(** * KeepLiveService native layer: watchdog daemon and heartbeat socket

    A shallow embedding of [fw_daemon.cpp] and [fw_socket.cpp], of the
    process diagnostics of [fw_process.cpp], of the heartbeat counter of
    [mediaroute/fw_mediaroute_jni.cpp], and of the channel calls that
    [fw_jni.cpp] exports.

    - C character arrays are [list ascii]; a C string is the prefix of an
      array before its first NUL byte.
    - [int], [pid_t] and [ssize_t] values are [Z].
    - Every libc / kernel call is an event of type [Call]; what the call
      answers is read from an environment record [Env].  A function of the
      source becomes a computation in the monad [M], which reads the
      environment, appends to the log of calls, and is [None] exactly when
      the C code would run past the end of an array.
    - Loops run over a list of environments, one per iteration. *)

From Stdlib Require Import ZArith List String Ascii Bool Lia DecimalString.
Import ListNotations.
Open Scope Z_scope.

(* ================================================================== *)
(** ** C strings and the pieces of libc the sources use                *)
(* ================================================================== *)

Module CStr.

Definition NUL : ascii := Ascii.zero.

Definition lit (s : string) : list ascii := list_ascii_of_string s.

(** The C string held by a char array: the bytes before the first NUL. *)
Fixpoint c_str (a : list ascii) : list ascii :=
  match a with
  | [] => []
  | c :: r => if Ascii.eqb c NUL then [] else c :: c_str r
  end.

Definition strlen (a : list ascii) : Z := Z.of_nat (List.length (c_str a)).

(** Arguments of a printf-style call. *)
Inductive parg := PStr (s : list ascii) | PInt (z : Z).

Definition decimal (z : Z) : list ascii :=
  lit (NilZero.string_of_int (Z.to_int z)).

Definition render (a : parg) : list ascii :=
  match a with
  | PStr s => c_str s
  | PInt z => decimal z
  end.

(** Expansion of the directives [%s] and [%d]; every other byte of the
    format is copied. *)
Fixpoint expand (fmt : list ascii) (args : list parg) : list ascii :=
  match fmt with
  | [] => []
  | c :: r =>
      if Ascii.eqb c "%" then
        match r, args with
        | d :: r', a :: args' =>
            if Ascii.eqb d "s" || Ascii.eqb d "d"
            then render a ++ expand r' args'
            else c :: expand r args
        | _, _ => c :: expand r args
        end
      else c :: expand r args
  end.

(** Overwrite [dst] from offset [off] with the bytes [src]. *)
Definition overwrite (off : nat) (src dst : list ascii) : list ascii :=
  firstn off dst ++ src ++ skipn (off + List.length src) dst.

(** [snprintf(buf, size, fmt, ...)]: the format is read as a C string,
    at most [size - 1] bytes of output are stored, then a NUL. *)
Definition snprintf (buf : list ascii) (size : nat) (fmt : list ascii)
           (args : list parg) : list ascii :=
  let out := firstn (size - 1) (expand (c_str fmt) args) in
  overwrite 0 (out ++ [NUL]) buf.

(** [memcpy(dst, src, n)]; [None] when [n] exceeds either array. *)
Definition memcpy (dst src : list ascii) (n : nat) : option (list ascii) :=
  if (n <=? List.length src)%nat && (n <=? List.length dst)%nat
  then Some (overwrite 0 (firstn n src) dst)
  else None.

(** [strcpy(dst + off, src)]; [None] when the copy, with its terminator,
    does not fit. *)
Definition strcpy_at (off : nat) (dst src : list ascii) : option (list ascii) :=
  let s := c_str src ++ [NUL] in
  if (off + List.length s <=? List.length dst)%nat
  then Some (overwrite off s dst)
  else None.

(** [strncpy(dst, src, n)] into a zero-initialised array of [n + 1]
    bytes whose last byte is never written: the stored C string is the
    source cut to [n] bytes. *)
Definition strncpy (src : list ascii) (n : nat) : list ascii :=
  firstn n (c_str src).

End CStr.
Import CStr.

(* ================================================================== *)
(** ** The operating system as seen by the two files                   *)
(* ================================================================== *)

Module OS.

Definition AF_UNIX : Z := 1.
(** Linux [struct sockaddr_un]: a 2-byte family, then [sun_path[108]]. *)
Definition SUN_PATH_SIZE : nat := 108.
Definition offsetof_sun_path : Z := 2.
(** An [fd_set] has room for the descriptors below [FD_SETSIZE]; [FD_SET]
    of any other writes outside it. *)
Definition FD_SETSIZE : Z := 1024.

Record sockaddr_un := { sun_family : Z; sun_path : list ascii }.

(** The bytes of [sun_path] that a [bind] or [connect] with address
    length [len] hands to the kernel. *)
Definition wire_path (a : sockaddr_un) (len : Z) : list ascii :=
  firstn (Z.to_nat (len - offsetof_sun_path)) (sun_path a).

Inductive Call :=
| Stat (path : list ascii)
| Kill (pid sig : Z)
| System (cmd : list ascii)
| Usleep (usec : Z)
| Sleep (sec : Z)
| IgnoreSigpipe
| Getpid
| Fork
| Setsid
| Open (path : list ascii)
| Dup2 (oldfd newfd : Z)
| Exit (code : Z)
| SocketCall
| Bind (fd : Z) (addr : sockaddr_un) (len : Z)
| Listen (fd backlog : Z)
| Connect (fd : Z) (addr : sockaddr_un) (len : Z)
| Accept (fd : Z)
| Close (fd : Z)
| Send (fd : Z) (msg : list ascii)
| Select (fd sec usec : Z)
| Recv (fd len : Z)
| PthreadCreate
| PthreadJoin
| LostCallback (f : nat).

(** What the next call of each kind answers. *)
Record Env := {
  env_stat : list ascii -> option bool;  (* [Some d]: stat returned 0, d = S_ISDIR *)
  env_kill : Z -> Z -> Z;
  env_system : list ascii -> Z;
  env_getpid : Z;
  env_fork : Z;
  env_open : Z;
  env_socket : Z;
  env_bind : Z;
  env_listen : Z;
  env_connect : Z;
  env_accept : Z;
  env_send : Z;
  env_select : Z;
  env_recv : Z;
  env_pthread_create : Z
}.

Definition M (A : Type) : Type := Env -> option (A * list Call).

Definition ret {A} (a : A) : M A := fun _ => Some (a, []).

Definition bind {A B} (m : M A) (k : A -> M B) : M B :=
  fun e =>
    match m e with
    | None => None
    | Some (a, l1) =>
        match k a e with
        | None => None
        | Some (b, l2) => Some (b, l1 ++ l2)
        end
    end.

(** Undefined behaviour: a write or read outside an array. *)
Definition overrun {A} : M A := fun _ => None.

Definition call {A} (c : Call) (answer : Env -> A) : M A :=
  fun e => Some (answer e, [c]).

Definition lift {A} (o : option A) : M A :=
  match o with Some a => ret a | None => overrun end.

End OS.
Import OS.

Declare Scope os_scope.
Delimit Scope os_scope with os.
Notation "x <- m ;; k" := (OS.bind m (fun x => k))
  (at level 61, m at next level, right associativity) : os_scope.
Notation "m ;;; k" := (OS.bind m (fun _ => k))
  (at level 61, right associativity) : os_scope.
Open Scope os_scope.

(* ================================================================== *)
(** ** fw_socket.cpp                                                   *)
(* ================================================================== *)

Module Socket.

Definition HEARTBEAT_MSG : list ascii := lit "HB".
Definition HEARTBEAT_ACK : list ascii := lit "OK".

(** The file's globals.  A callback pointer is [None] for [nullptr]. *)
Record Globals := {
  g_server_socket : Z;
  g_client_socket : Z;
  g_socket_path : list ascii;
  g_socket_running : bool;
  g_connection_lost_callback : option nat
}.

Definition initial : Globals := {|
  g_server_socket := -1;
  g_client_socket := -1;
  g_socket_path := repeat NUL 256;
  g_socket_running := false;
  g_connection_lost_callback := None
|}.

Definition set_server_socket (g : Globals) (fd : Z) : Globals :=
  {| g_server_socket := fd;
     g_client_socket := g_client_socket g;
     g_socket_path := g_socket_path g;
     g_socket_running := g_socket_running g;
     g_connection_lost_callback := g_connection_lost_callback g |}.

Definition set_client_socket (g : Globals) (fd : Z) : Globals :=
  {| g_server_socket := g_server_socket g;
     g_client_socket := fd;
     g_socket_path := g_socket_path g;
     g_socket_running := g_socket_running g;
     g_connection_lost_callback := g_connection_lost_callback g |}.

Definition set_socket_path (g : Globals) (p : list ascii) : Globals :=
  {| g_server_socket := g_server_socket g;
     g_client_socket := g_client_socket g;
     g_socket_path := p;
     g_socket_running := g_socket_running g;
     g_connection_lost_callback := g_connection_lost_callback g |}.

Definition set_socket_running (g : Globals) (b : bool) : Globals :=
  {| g_server_socket := g_server_socket g;
     g_client_socket := g_client_socket g;
     g_socket_path := g_socket_path g;
     g_socket_running := b;
     g_connection_lost_callback := g_connection_lost_callback g |}.

(** The format literal of line 78, byte for byte: a NUL, then [%s]. *)
Definition socket_path_format : list ascii := [NUL; "%"%char; "s"%char].

(** [create_socket_server]; [socket_name] is [None] for a null pointer. *)
Definition create_socket_server (g : Globals) (socket_name : option (list ascii))
  : M (Z * Globals) :=
  match socket_name with
  | None => ret (-1, g)
  | Some name =>
      if strlen name =? 0 then ret (-1, g) else
      let g := set_socket_path g
                 (snprintf (g_socket_path g) 256 socket_path_format [PStr name]) in
      fd <- call SocketCall env_socket ;;
      let g := set_server_socket g fd in
      if fd <? 0 then ret (-1, g) else
      path <- lift (memcpy (repeat NUL SUN_PATH_SIZE) (g_socket_path g)
                           (Z.to_nat (strlen name + 1))) ;;
      let addr := {| sun_family := AF_UNIX; sun_path := path |} in
      let path_len := offsetof_sun_path + strlen name + 1 in
      r <- call (Bind fd addr path_len) env_bind ;;
      if r <? 0 then
        call (Close fd) (fun _ => tt) ;;;
        ret (-1, set_server_socket g (-1))
      else
      r <- call (Listen fd 5) env_listen ;;
      if r <? 0 then
        call (Close fd) (fun _ => tt) ;;;
        ret (-1, set_server_socket g (-1))
      else ret (fd, g)
  end.

(** [connect_socket_server]. *)
Definition connect_socket_server (g : Globals) (socket_name : option (list ascii))
  : M (Z * Globals) :=
  match socket_name with
  | None => ret (-1, g)
  | Some name =>
      if strlen name =? 0 then ret (-1, g) else
      fd <- call SocketCall env_socket ;;
      let g := set_client_socket g fd in
      if fd <? 0 then ret (-1, g) else
      (* addr.sun_path[0] = 0 on a zeroed array, then strcpy at offset 1 *)
      path <- lift (strcpy_at 1 (repeat NUL SUN_PATH_SIZE) name) ;;
      let addr := {| sun_family := AF_UNIX; sun_path := path |} in
      let path_len := offsetof_sun_path + strlen name + 1 in
      r <- call (Connect fd addr path_len) env_connect ;;
      if r <? 0 then
        call (Close fd) (fun _ => tt) ;;;
        ret (-1, set_client_socket g (-1))
      else ret (fd, g)
  end.

(** The address a log of calls binds, and the one it connects to. *)
Fixpoint bound_address (l : list Call) : option (list ascii) :=
  match l with
  | [] => None
  | Bind _ a len :: _ => Some (wire_path a len)
  | _ :: r => bound_address r
  end.

Fixpoint connected_address (l : list Call) : option (list ascii) :=
  match l with
  | [] => None
  | Connect _ a len :: _ => Some (wire_path a len)
  | _ :: r => connected_address r
  end.

(** [send_heartbeat]. *)
Definition send_heartbeat (socket_fd : Z) : M bool :=
  if socket_fd <? 0 then ret false else
  sent <- call (Send socket_fd HEARTBEAT_MSG) env_send ;;
  if sent <=? 0 then ret false else ret true.

(** [receive_with_timeout].  [buffer] is [None] for a null pointer; the
    bytes stored in it are not modelled, since no caller reads them.
    [timeout_ms / 1000] and [timeout_ms % 1000] are C's truncating
    division and remainder.  The [FD_SET] of line 176 is unguarded. *)
Definition receive_with_timeout (socket_fd : Z) (buffer : option (list ascii))
           (buffer_size timeout_ms : Z) : M Z :=
  if (socket_fd <? 0) || (match buffer with None => true | Some _ => false end)
     || (buffer_size <=? 0)
  then ret (-1) else
  if FD_SETSIZE <=? socket_fd then overrun else
  let tv_sec := Z.quot timeout_ms 1000 in
  let tv_usec := Z.rem timeout_ms 1000 * 1000 in
  r <- call (Select socket_fd tv_sec tv_usec) env_select ;;
  if r <? 0 then ret (-1)
  else if r =? 0 then ret 0
  else
    received <- call (Recv socket_fd (buffer_size - 1)) env_recv ;;
    if received <=? 0 then ret (-1) else ret received.

(** *** The server thread

    [socket_server_thread] is two nested loops.  Its control state is
    where the thread stands: at the head of the accept loop, at the head
    of the receive loop of one peer, or returned.  The globals it reads
    at a loop head are written by other threads ([stop_socket_server]),
    so each step takes the globals as they are read at that moment. *)
Inductive ServerPc :=
| AtAccept
| AtReceive (client_fd : Z)
| ThreadReturned.

Definition stack_buffer : option (list ascii) := Some (repeat NUL 64).

Definition server_step (g : Globals) (pc : ServerPc) : M ServerPc :=
  match pc with
  | ThreadReturned => ret ThreadReturned
  | AtAccept =>
      if negb (g_socket_running g && (0 <=? g_server_socket g))
      then ret ThreadReturned else
      (* FD_SET(g_server_socket, &read_fds), line 223 *)
      if FD_SETSIZE <=? g_server_socket g then overrun else
      r <- call (Select (g_server_socket g) 1 0) env_select ;;
      if r <=? 0 then ret AtAccept else
      client_fd <- call (Accept (g_server_socket g)) env_accept ;;
      if client_fd <? 0 then ret AtAccept else ret (AtReceive client_fd)
  | AtReceive client_fd =>
      if negb (g_socket_running g) then
        call (Close client_fd) (fun _ => tt) ;;; ret AtAccept
      else
      received <- receive_with_timeout client_fd stack_buffer 64 5000 ;;
      if received <? 0 then
        call (Close client_fd) (fun _ => tt) ;;; ret AtAccept
      else if received >? 0 then
        call (Send client_fd HEARTBEAT_ACK) (fun _ => tt) ;;; ret (AtReceive client_fd)
      else ret (AtReceive client_fd)
  end.

(** The thread run for as many steps as the trace has entries. *)
Fixpoint server_run (pc : ServerPc) (trace : list (Globals * Env))
  : option (ServerPc * list Call) :=
  match trace with
  | [] => Some (pc, [])
  | (g, e) :: rest =>
      match server_step g pc e with
      | None => None
      | Some (pc', l1) =>
          match server_run pc' rest with
          | None => None
          | Some (pc'', l2) => Some (pc'', l1 ++ l2)
          end
      end
  end.

(** [start_socket_server_thread]. *)
Definition start_socket_server_thread (g : Globals) (socket_name : option (list ascii))
  : M (bool * Globals) :=
  if g_socket_running g then ret (true, g) else
  r <- create_socket_server g socket_name ;;
  let g := snd r in
  if fst r <? 0 then ret (false, g) else
  let g := set_socket_running g true in
  rc <- call PthreadCreate env_pthread_create ;;
  if negb (rc =? 0) then
    let g := set_socket_running g false in
    call (Close (g_server_socket g)) (fun _ => tt) ;;;
    ret (false, set_server_socket g (-1))
  else ret (true, g).

(** [stop_socket_server]. *)
Definition stop_socket_server (g : Globals) : M Globals :=
  let g := set_socket_running g false in
  g <- (if 0 <=? g_server_socket g
        then call (Close (g_server_socket g)) (fun _ => tt) ;;;
             ret (set_server_socket g (-1))
        else ret g) ;;
  g <- (if 0 <=? g_client_socket g
        then call (Close (g_client_socket g)) (fun _ => tt) ;;;
             ret (set_client_socket g (-1))
        else ret g) ;;
  call PthreadJoin (fun _ => tt) ;;;
  ret g.

(** [set_connection_lost_callback]. *)
Definition set_connection_lost_callback (g : Globals) (callback : option nat)
  : Globals :=
  {| g_server_socket := g_server_socket g;
     g_client_socket := g_client_socket g;
     g_socket_path := g_socket_path g;
     g_socket_running := g_socket_running g;
     g_connection_lost_callback := callback |}.

(** *** The heartbeat client *)

(** [if (g_connection_lost_callback != nullptr) g_connection_lost_callback();] *)
Definition notify_lost (g : Globals) : M unit :=
  match g_connection_lost_callback g with
  | Some f => call (LostCallback f) (fun _ => tt)
  | None => ret tt
  end.

(** [usleep] takes a 32-bit unsigned count. *)
Definition usleep_arg (ms : Z) : Z := (ms * 1000) mod 2 ^ 32.

(** One pass through the body of the [while] of [start_heartbeat_client];
    [true] stands for [break]. *)
Definition heartbeat_body (g : Globals) (interval_ms : Z) : M bool :=
  ok <- send_heartbeat (g_client_socket g) ;;
  if negb ok then
    notify_lost g ;;; ret true
  else
  received <- receive_with_timeout (g_client_socket g) stack_buffer 64 interval_ms ;;
  if received <? 0 then
    notify_lost g ;;; ret true
  else
    call (Usleep (usleep_arg interval_ms)) (fun _ => tt) ;;; ret false.

(** How a loop run over a finite trace ends: it left the loop, or the
    trace ran out with the loop still going. *)
Inductive LoopEnd := Left | Going.

Fixpoint heartbeat_loop (g : Globals) (interval_ms : Z) (envs : list Env)
  : option (LoopEnd * list Call) :=
  if g_client_socket g <? 0 then Some (Left, []) else
  match envs with
  | [] => Some (Going, [])
  | e :: rest =>
      match heartbeat_body g interval_ms e with
      | None => None
      | Some (true, l) => Some (Left, l)
      | Some (false, l1) =>
          match heartbeat_loop g interval_ms rest with
          | None => None
          | Some (r, l2) => Some (r, l1 ++ l2)
          end
      end
  end.

(** [start_heartbeat_client]: [Some b] when the function returns [b],
    [None] when the trace ends inside the loop.  [e] answers the calls
    of the connect, [envs] those of the loop iterations. *)
Definition start_heartbeat_client (g : Globals) (socket_name : option (list ascii))
           (interval_ms : Z) (e : Env) (envs : list Env)
  : option (option bool * Globals * list Call) :=
  match connect_socket_server g socket_name e with
  | None => None
  | Some ((fd, g), l1) =>
      if fd <? 0 then Some (Some false, g, l1) else
      match heartbeat_loop g interval_ms envs with
      | None => None
      | Some (Left, l2) => Some (Some true, g, l1 ++ l2)
      | Some (Going, l2) => Some (None, g, l1 ++ l2)
      end
  end.

End Socket.

(* ================================================================== *)
(** ** fw_daemon.cpp                                                   *)
(* ================================================================== *)

Module Daemon.

Record DaemonConfig := {
  package_name : list ascii;
  service_name : list ascii;
  check_interval_ms : Z;
  parent_pid : Z;
  use_am_command : bool;
  use_socket : bool;
  socket_path : list ascii
}.

(** The file's globals, one copy per process. *)
Record Globals := {
  g_config : DaemonConfig;
  g_daemon_running : bool
}.

(** Static storage is zero-initialised. *)
Definition initial : Globals := {|
  g_config := {| package_name := []; service_name := [];
                 check_interval_ms := 0; parent_pid := 0;
                 use_am_command := false; use_socket := false;
                 socket_path := [] |};
  g_daemon_running := false
|}.

Definition set_running (g : Globals) (b : bool) : Globals :=
  {| g_config := g_config g; g_daemon_running := b |}.

(** [snprintf(proc_path, sizeof(proc_path), "/proc/%d", pid)]. *)
Definition proc_path (pid : Z) : list ascii :=
  c_str (snprintf (repeat NUL 64) 64 (lit "/proc/%d") [PInt pid]).

(** [is_process_alive]. *)
Definition is_process_alive (pid : Z) : M bool :=
  if pid <=? 0 then ret false else
  st <- call (Stat (proc_path pid)) (fun e => env_stat e (proc_path pid)) ;;
  if match st with Some is_dir => is_dir | None => false end then ret true else
  r <- call (Kill pid 0) (fun e => env_kill e pid 0) ;;
  if r =? 0 then ret true else ret false.

Definition am_startservice_format : list ascii :=
  lit "am startservice --user 0 -n %s/%s --es start_reason native_daemon 2>&1".

Definition am_start_foreground_format : list ascii :=
  lit "am start-foreground-service --user 0 -n %s/%s --es start_reason native_daemon 2>&1".

Definition am_broadcast_format : list ascii :=
  lit "am broadcast --user 0 -a %s.NATIVE_WAKEUP -p %s 2>&1".

Definition am_startservice_cmd (package_name service_name : list ascii) :=
  c_str (snprintf (repeat NUL 1024) 1024 am_startservice_format
                  [PStr package_name; PStr service_name]).

Definition am_start_foreground_cmd (package_name service_name : list ascii) :=
  c_str (snprintf (repeat NUL 1024) 1024 am_start_foreground_format
                  [PStr package_name; PStr service_name]).

Definition am_broadcast_cmd (package_name : list ascii) :=
  c_str (snprintf (repeat NUL 512) 512 am_broadcast_format
                  [PStr package_name; PStr package_name]).

Definition system (cmd : list ascii) : M Z :=
  call (System cmd) (fun e => env_system e cmd).

(** [start_service_via_am]. *)
Definition start_service_via_am (package_name service_name : list ascii) : M bool :=
  r <- system (am_startservice_cmd package_name service_name) ;;
  if r =? 0 then ret true else
  r <- system (am_start_foreground_cmd package_name service_name) ;;
  if r =? 0 then ret true else ret false.

(** [start_via_broadcast]. *)
Definition start_via_broadcast (package_name : list ascii) : M bool :=
  r <- system (am_broadcast_cmd package_name) ;;
  if r =? 0 then ret true else ret false.

(** Lines 187-201 of [daemon_main_loop]: one round of reactivation. *)
Definition reactivate (c : DaemonConfig) : M bool :=
  success <- (if use_am_command c
              then ok <- start_service_via_am (package_name c) (service_name c) ;;
                   if ok then ret true else ret false
              else ret false) ;;
  if negb success
  then ok <- start_via_broadcast (package_name c) ;;
       if ok then ret true else ret success
  else ret success.

Definition max_consecutive_failures : Z := 3.

(** [usleep] takes a 32-bit unsigned count. *)
Definition usleep_arg (ms : Z) : Z := (ms * 1000) mod 2 ^ 32.

(** One pass through the body of the [while] of [daemon_main_loop], from
    the counter before to ([break] taken?, the counter after). *)
Definition cycle (g : Globals) (consecutive_failures : Z) : M (bool * Z) :=
  call (Usleep (usleep_arg (check_interval_ms (g_config g)))) (fun _ => tt) ;;;
  alive <- is_process_alive (parent_pid (g_config g)) ;;
  if negb alive then
    success <- reactivate (g_config g) ;;
    if success then
      call (Sleep 5) (fun _ => tt) ;;;
      ret (false, 0)
    else
      let consecutive_failures := consecutive_failures + 1 in
      if consecutive_failures >=? max_consecutive_failures
      then ret (true, consecutive_failures)
      else ret (false, consecutive_failures)
  else ret (false, 0).

(** How the loop ends on a finite trace of cycles. *)
Inductive LoopEnd :=
| FlagCleared   (* the [while] condition was false *)
| GaveUp        (* [break] after too many failures *)
| Going.        (* the trace ran out inside the loop *)

Record LoopResult := {
  loop_end : LoopEnd;
  failures : Z;          (* [consecutive_failures] at that point *)
  cycles : nat;          (* loop bodies executed *)
  calls : list Call
}.

(** The [while] of [daemon_main_loop].  The loop runs in the forked
    child, which is single-threaded and never writes the globals, so
    they are the same at every loop head. *)
Fixpoint monitor (g : Globals) (consecutive_failures : Z) (envs : list Env)
  : option LoopResult :=
  if negb (g_daemon_running g)
  then Some {| loop_end := FlagCleared; failures := consecutive_failures;
               cycles := 0; calls := [] |}
  else
  match envs with
  | [] => Some {| loop_end := Going; failures := consecutive_failures;
                  cycles := 0; calls := [] |}
  | e :: rest =>
      match cycle g consecutive_failures e with
      | None => None
      | Some ((true, n), l) =>
          Some {| loop_end := GaveUp; failures := n; cycles := 1; calls := l |}
      | Some ((false, n), l) =>
          match monitor g n rest with
          | None => None
          | Some r => Some {| loop_end := loop_end r; failures := failures r;
                              cycles := S (cycles r); calls := l ++ calls r |}
          end
      end
  end.

(** [daemon_main_loop]; the globals after it are the globals before. *)
Definition daemon_main_loop (g : Globals) (envs : list Env)
  : option (LoopResult * Globals) :=
  match monitor g 0 envs with
  | None => None
  | Some r => Some ({| loop_end := loop_end r; failures := failures r;
                       cycles := cycles r; calls := IgnoreSigpipe :: calls r |}, g)
  end.

(** What a call of [start_daemon] comes to in the process that runs it. *)
Inductive StartEnd :=
| Returned (r : Z)          (* the caller gets [r] back *)
| ChildExited (l : LoopEnd) (* the forked child ran the loop and called [_exit] *)
| ChildGoing.               (* the forked child is still in the loop *)

Definition save_config (g : Globals) (package_name' service_name' : list ascii)
           (check_interval_ms' : Z) (pid : Z) : Globals :=
  {| g_config :=
       {| package_name := strncpy package_name' 255;
          service_name := strncpy service_name' 511;
          check_interval_ms := if check_interval_ms' >? 0 then check_interval_ms' else 3000;
          parent_pid := pid;
          use_am_command := true;
          use_socket := false;
          socket_path := socket_path (g_config g) |};
     g_daemon_running := g_daemon_running g |}.

(** The child's first steps: its own pid, asked for the log of line 265,
    then its detaching from its parent, lines 268-282. *)
Definition detach : M unit :=
  call Getpid (fun _ => tt) ;;;
  call Setsid (fun _ => tt) ;;;
  call (Close 0) (fun _ => tt) ;;;
  call (Close 1) (fun _ => tt) ;;;
  call (Close 2) (fun _ => tt) ;;;
  fd <- call (Open (lit "/dev/null")) env_open ;;
  if 0 <=? fd then
    call (Dup2 fd 0) (fun _ => tt) ;;;
    call (Dup2 fd 1) (fun _ => tt) ;;;
    call (Dup2 fd 2) (fun _ => tt) ;;;
    if fd >? 2 then call (Close fd) (fun _ => tt) else ret tt
  else ret tt.

(** [start_daemon], up to and including the [fork]. *)
Definition start_daemon_fork (g : Globals) (package_name service_name : list ascii)
           (check_interval_ms : Z) : M (Z * Globals) :=
  me <- call Getpid env_getpid ;;
  let g := save_config g package_name service_name check_interval_ms me in
  pid <- call Fork env_fork ;;
  ret (pid, g).

(** [start_daemon] in the process that runs it: [e] answers the calls up
    to the child's entry into the loop, [envs] those of the loop's
    cycles.  A [fork] answering 0 makes this the child. *)
Definition start_daemon (g : Globals) (package_name service_name : list ascii)
           (check_interval_ms : Z) (e : Env) (envs : list Env)
  : option (StartEnd * Globals * list Call) :=
  if g_daemon_running g then Some (Returned 0, g, []) else
  match start_daemon_fork g package_name service_name check_interval_ms e with
  | None => None
  | Some ((pid, g), l1) =>
      if pid <? 0 then Some (Returned (-1), g, l1)
      else if pid =? 0 then
        match detach e with
        | None => None
        | Some (_, l2) =>
            let g := set_running g true in
            match daemon_main_loop g envs with
            | None => None
            | Some (r, g) =>
                match loop_end r with
                | Going => Some (ChildGoing, g, l1 ++ l2 ++ calls r)
                | x => Some (ChildExited x, g, l1 ++ l2 ++ calls r ++ [Exit 0])
                end
            end
        end
      else Some (Returned 0, g, l1)
  end.

(** [stop_daemon]. *)
Definition stop_daemon (g : Globals) : Globals := set_running g false.

(** [is_daemon_running]. *)
Definition is_daemon_running (g : Globals) : bool := g_daemon_running g.

Definition count_forks (l : list Call) : nat :=
  List.length (filter (fun c => match c with Fork => true | _ => false end) l).

End Daemon.

(* ================================================================== *)
(** ** Vocabulary of the statements                                    *)
(* ================================================================== *)

(** An environment in which every call succeeds; in it the supervised
    process has no [/proc] entry and cannot be signalled, and every
    command run through [system] fails. *)
Definition calm : Env := {|
  env_stat := fun _ => None; env_kill := fun _ _ => -1; env_system := fun _ => 1;
  env_getpid := 100; env_fork := 101; env_open := 3;
  env_socket := 3; env_bind := 0; env_listen := 0; env_connect := 0;
  env_accept := 4; env_send := 2; env_select := 1; env_recv := 2;
  env_pthread_create := 0 |}.

Definition with_fork (e : Env) (pid : Z) : Env := {|
  env_stat := env_stat e; env_kill := env_kill e; env_system := env_system e;
  env_getpid := env_getpid e; env_fork := pid; env_open := env_open e;
  env_socket := env_socket e; env_bind := env_bind e; env_listen := env_listen e;
  env_connect := env_connect e; env_accept := env_accept e; env_send := env_send e;
  env_select := env_select e; env_recv := env_recv e;
  env_pthread_create := env_pthread_create e |}.

Definition with_select (e : Env) (r : Z) : Env := {|
  env_stat := env_stat e; env_kill := env_kill e; env_system := env_system e;
  env_getpid := env_getpid e; env_fork := env_fork e; env_open := env_open e;
  env_socket := env_socket e; env_bind := env_bind e; env_listen := env_listen e;
  env_connect := env_connect e; env_accept := env_accept e; env_send := env_send e;
  env_select := r; env_recv := env_recv e;
  env_pthread_create := env_pthread_create e |}.

Definition with_recv (e : Env) (r : Z) : Env := {|
  env_stat := env_stat e; env_kill := env_kill e; env_system := env_system e;
  env_getpid := env_getpid e; env_fork := env_fork e; env_open := env_open e;
  env_socket := env_socket e; env_bind := env_bind e; env_listen := env_listen e;
  env_connect := env_connect e; env_accept := env_accept e; env_send := env_send e;
  env_select := env_select e; env_recv := r;
  env_pthread_create := env_pthread_create e |}.

Definition with_send (e : Env) (r : Z) : Env := {|
  env_stat := env_stat e; env_kill := env_kill e; env_system := env_system e;
  env_getpid := env_getpid e; env_fork := env_fork e; env_open := env_open e;
  env_socket := env_socket e; env_bind := env_bind e; env_listen := env_listen e;
  env_connect := env_connect e; env_accept := env_accept e; env_send := r;
  env_select := env_select e; env_recv := env_recv e;
  env_pthread_create := env_pthread_create e |}.

Definition wd_sock_1 : list ascii := lit "wd_sock_1".

(** *** Sockets *)

(** The path global holds nothing but NUL bytes. *)
Definition path_blank (g : Socket.Globals) : Prop :=
  Socket.g_socket_path g = repeat NUL 256.

(** A receive that reports a timeout: [select] answered 0. *)
Definition times_out (e : Env) : bool := env_select e =? 0.

(** A receive on which the peer has closed: readable, and zero bytes. *)
Definition peer_closed (e : Env) : bool := (0 <? env_select e) && (env_recv e =? 0).

(** A receive that [receive_with_timeout] answers with -1. *)
Definition receive_fails (e : Env) : bool :=
  (env_select e <? 0) || ((0 <? env_select e) && (env_recv e <=? 0)).

(** A heartbeat round that the client counts as lost. *)
Definition round_lost (e : Env) : bool := (env_send e <=? 0) || receive_fails e.

Definition count_lost_callbacks (l : list Call) : nat :=
  List.length (filter (fun c => match c with LostCallback _ => true | _ => false end) l).

(** Calls of the loss callback that a lost connection is due: one if a
    callback is registered, none otherwise. *)
Definition callbacks_due (g : Socket.Globals) : nat :=
  match Socket.g_connection_lost_callback g with Some _ => 1%nat | None => 0%nat end.

Definition count_connects (l : list Call) : nat :=
  List.length (filter (fun c => match c with
                                | Connect _ _ _ => true
                                | SocketCall => true
                                | _ => false end) l).

Definition closes (fd : Z) (l : list Call) : bool :=
  existsb (fun c => match c with Close fd' => fd' =? fd | _ => false end) l.

(** *** The daemon *)

(** What the prober answers for the supervised process in a cycle. *)
Definition probe (g : Daemon.Globals) (e : Env) : bool :=
  match Daemon.is_process_alive (Daemon.parent_pid (Daemon.g_config g)) e with
  | Some (b, _) => b
  | None => false
  end.

(** Every command run through [system] in the cycle reports failure. *)
Definition every_attempt_fails (e : Env) : Prop := forall cmd, env_system e cmd <> 0.

(** A cycle in which the supervised process is found dead and no
    reactivation attempt succeeds. *)
Definition dead_and_failing (g : Daemon.Globals) (e : Env) : Prop :=
  probe g e = false /\ every_attempt_fails e.

Definition summary (r : Daemon.LoopResult) : Daemon.LoopEnd * Z * nat :=
  (Daemon.loop_end r, Daemon.failures r, Daemon.cycles r).

(** Where [daemon_main_loop] stands after a trace of cycles: how it ended,
    the failure counter, the cycles run. *)
Definition loop_state (g : Daemon.Globals) (envs : list Env)
  : option (Daemon.LoopEnd * Z * nat) :=
  match Daemon.daemon_main_loop g envs with
  | Some (r, _) => Some (Daemon.loop_end r, Daemon.failures r, Daemon.cycles r)
  | None => None
  end.

(** The two checks of the prober, as the environment answers them. *)
Definition proc_entry_is_dir (e : Env) (pid : Z) : bool :=
  match env_stat e (Daemon.proc_path pid) with Some true => true | _ => false end.

Definition signal_0_delivered (e : Env) (pid : Z) : bool := env_kill e pid 0 =? 0.

(** The states of the globals in which a process can call the daemon's
    interface: the initial state, and those left by calls that came back
    to their caller. *)
Inductive callable : Daemon.Globals -> Prop :=
| callable_initial : callable Daemon.initial
| callable_start g p s i e envs r g' l :
    callable g ->
    Daemon.start_daemon g p s i e envs = Some (Daemon.Returned r, g', l) ->
    callable g'
| callable_stop g : callable g -> callable (Daemon.stop_daemon g).

(** Two calls of [start_daemon] in a row in one process, both coming back:
    the two return values and the number of [fork]s. *)
Definition start_daemon_twice (g : Daemon.Globals) (p s : list ascii) (i : Z)
           (e1 e2 : Env) : option (Z * Z * nat) :=
  match Daemon.start_daemon g p s i e1 [] with
  | Some (Daemon.Returned r1, g1, l1) =>
      match Daemon.start_daemon g1 p s i e2 [] with
      | Some (Daemon.Returned r2, _, l2) => Some (r1, r2, Daemon.count_forks (l1 ++ l2))
      | _ => None
      end
  | _ => None
  end.

(** The globals of the forked child on entry to the loop. *)
Definition child_globals (p s : list ascii) (i pid : Z) : Daemon.Globals :=
  Daemon.set_running (Daemon.save_config Daemon.initial p s i pid) true.

(** *** Concrete inputs *)

(** As [calm], but signal 0 reaches the supervised process. *)
Definition breathing : Env := {|
  env_stat := fun _ => None; env_kill := fun _ _ => 0; env_system := fun _ => 1;
  env_getpid := 100; env_fork := 101; env_open := 3;
  env_socket := 3; env_bind := 0; env_listen := 0; env_connect := 0;
  env_accept := 4; env_send := 2; env_select := 1; env_recv := 2;
  env_pthread_create := 0 |}.

(** The forked child of process 100, watching it every second. *)
Definition watching : Daemon.Globals :=
  child_globals (lit "com.x") (lit "com.x.Svc") 1000 100.

(** A server that listens on descriptor 3. *)
Definition serving : Socket.Globals :=
  Socket.set_socket_running (Socket.set_server_socket Socket.initial 3) true.

(** A client connected on descriptor 3, with callback 7 registered. *)
Definition connected : Socket.Globals :=
  Socket.set_connection_lost_callback (Socket.set_client_socket Socket.initial 3) (Some 7%nat).

(** As [calm], but [connect] is refused. *)
Definition refusing : Env := {|
  env_stat := fun _ => None; env_kill := fun _ _ => -1; env_system := fun _ => 1;
  env_getpid := 100; env_fork := 101; env_open := 3;
  env_socket := 3; env_bind := 0; env_listen := 0; env_connect := -1;
  env_accept := 4; env_send := 2; env_select := 1; env_recv := 2;
  env_pthread_create := 0 |}.

(** As [calm], but the foreground variant of the activation command for
    com.x.Svc succeeds. *)
Definition foreground_only : Env := {|
  env_stat := fun _ => None; env_kill := fun _ _ => -1;
  env_system := fun cmd =>
    if String.eqb (string_of_list_ascii cmd)
         "am start-foreground-service --user 0 -n com.x/com.x.Svc --es start_reason native_daemon 2>&1"
    then 0 else 1;
  env_getpid := 100; env_fork := 101; env_open := 3;
  env_socket := 3; env_bind := 0; env_listen := 0; env_connect := 0;
  env_accept := 4; env_send := 2; env_select := 1; env_recv := 2;
  env_pthread_create := 0 |}.

Definition no_result : Daemon.LoopResult :=
  {| Daemon.loop_end := Daemon.Going; Daemon.failures := 0;
     Daemon.cycles := 0; Daemon.calls := [] |}.


(* ================================================================== *)
(** ** Further vocabulary: the channel                                 *)
(* ================================================================== *)

Definition count_calls (p : Call -> bool) (l : list Call) : nat :=
  List.length (filter p l).

Definition is_send (c : Call) : bool :=
  match c with Send _ _ => true | _ => false end.

Definition is_close (c : Call) : bool :=
  match c with Close _ => true | _ => false end.

Definition is_recv (c : Call) : bool :=
  match c with Recv _ _ => true | _ => false end.

Definition is_thread_create (c : Call) : bool :=
  match c with PthreadCreate => true | _ => false end.

Definition is_accept (c : Call) : bool :=
  match c with Accept _ => true | _ => false end.

(** The address [create_socket_server] hands to [bind]. *)
Definition server_sockaddr : sockaddr_un :=
  {| sun_family := AF_UNIX; sun_path := repeat NUL SUN_PATH_SIZE |}.

(** The address [connect_socket_server] hands to [connect]. *)
Definition client_sockaddr (name : list ascii) : sockaddr_un :=
  {| sun_family := AF_UNIX;
     sun_path := overwrite 1 (c_str name ++ [NUL]) (repeat NUL SUN_PATH_SIZE) |}.

Definition sockaddr_len (name : list ascii) : Z :=
  offsetof_sun_path + strlen name + 1.

(** The channel functions that [fw_jni.cpp] exports to the Java side
    ([startSocketServer], [stopSocketServer], [connectSocket],
    [sendHeartbeat]); [GetStringUTFChars] hands them a non-null name. *)
Inductive ChannelOp :=
| StartSocketServer (name : list ascii)
| StopSocketServer
| ConnectSocket (name : list ascii)
| SendHeartbeat (fd : Z).

Definition channel_op (g : Socket.Globals) (op : ChannelOp) : M Socket.Globals :=
  match op with
  | StartSocketServer name =>
      r <- Socket.start_socket_server_thread g (Some name) ;; ret (snd r)
  | StopSocketServer => Socket.stop_socket_server g
  | ConnectSocket name =>
      r <- Socket.connect_socket_server g (Some name) ;; ret (snd r)
  | SendHeartbeat fd =>
      Socket.send_heartbeat fd ;;; ret g
  end.

(** A sequence of exported calls, each with the environment that answers
    it. *)
Fixpoint channel_ops (g : Socket.Globals) (ops : list (ChannelOp * Env))
  : option (Socket.Globals * list Call) :=
  match ops with
  | [] => Some (g, [])
  | (op, e) :: rest =>
      match channel_op g op e with
      | None => None
      | Some (g1, l1) =>
          match channel_ops g1 rest with
          | None => None
          | Some (g2, l2) => Some (g2, l1 ++ l2)
          end
      end
  end.

(** The names the exported calls are given are short enough for
    [sun_path]. *)
Definition name_fits (op : ChannelOp) : Prop :=
  match op with
  | StartSocketServer name => strlen name <= 107
  | ConnectSocket name => strlen name <= 106
  | _ => True
  end.

(** The server thread is where it may be while the server runs. *)
Definition server_running (ge : Socket.Globals * Env) : Prop :=
  Socket.g_socket_running (fst ge) = true /\ 0 <= Socket.g_server_socket (fst ge).

(** The descriptors in a step of the server thread have room in an
    [fd_set]: the listening one, and the one [accept] would answer. *)
Definition descriptors_fit (ge : Socket.Globals * Env) : Prop :=
  Socket.g_server_socket (fst ge) < FD_SETSIZE /\ env_accept (snd ge) < FD_SETSIZE.

(** So has the peer the thread is serving, if it is serving one. *)
Definition peer_fits (pc : Socket.ServerPc) : Prop :=
  match pc with Socket.AtReceive fd => fd < FD_SETSIZE | _ => True end.

(** The descriptors that the [accept] calls of a run of the server thread
    return: one for each step that calls [accept]. *)
Fixpoint accepted (pc : Socket.ServerPc) (trace : list (Socket.Globals * Env)) : list Z :=
  match trace with
  | [] => []
  | (g, e) :: rest =>
      match Socket.server_step g pc e with
      | None => []
      | Some (pc', l) =>
          (if existsb is_accept l then [env_accept e] else []) ++ accepted pc' rest
      end
  end.

(** What the server thread may do to a peer: read from it, acknowledge
    it with OK, close it; besides that it waits and accepts. *)
Definition peer_call (peers : list Z) (c : Call) : Prop :=
  match c with
  | Send fd msg => In fd peers /\ msg = lit "OK"
  | Close fd => In fd peers
  | Recv fd len => In fd peers /\ len = 63
  | Select _ _ _ => True
  | Accept _ => True
  | _ => False
  end.

(** While the flag is set, the listening descriptor is a valid one. *)
Definition listening_while_running (g : Socket.Globals) : Prop :=
  Socket.g_socket_running g = true -> 0 <= Socket.g_server_socket g.

(** The rounds the client loop runs on a trace: up to and including the
    first lost one. *)
Fixpoint rounds_run (envs : list Env) : nat :=
  match envs with
  | [] => 0
  | e :: rest => if round_lost e then 1 else S (rounds_run rest)
  end.

(** What the client loop may call: a heartbeat on its descriptor, the
    wait for the answer, the sleep, the callback. *)
Definition client_call (fd : Z) (c : Call) : Prop :=
  match c with
  | Send fd' msg => fd' = fd /\ msg = lit "HB"
  | Select fd' _ _ => fd' = fd
  | Recv fd' len => fd' = fd /\ len = 63
  | Usleep _ => True
  | LostCallback _ => True
  | _ => False
  end.

(* ================================================================== *)
(** ** Further vocabulary: the daemon                                  *)
(* ================================================================== *)

(** What a round of reactivation answers in a cycle. *)
Definition round_succeeds (g : Daemon.Globals) (e : Env) : bool :=
  match Daemon.reactivate (Daemon.g_config g) e with
  | Some (b, _) => b
  | None => false
  end.

(** A cycle that counts as a failure: the process is found dead and the
    round of reactivation fails. *)
Definition round_failed (g : Daemon.Globals) (e : Env) : bool :=
  negb (probe g e) && negb (round_succeeds g e).

Definition is_system (c : Call) : bool :=
  match c with System _ => true | _ => false end.

(** What the monitoring loop may call. *)
Definition monitor_call (g : Daemon.Globals) (c : Call) : Prop :=
  let cfg := Daemon.g_config g in
  match c with
  | Usleep u => u = Daemon.usleep_arg (Daemon.check_interval_ms cfg)
  | Sleep s => s = 5
  | Stat path => path = Daemon.proc_path (Daemon.parent_pid cfg)
  | Kill pid sig => pid = Daemon.parent_pid cfg /\ sig = 0
  | System cmd =>
      cmd = Daemon.am_startservice_cmd (Daemon.package_name cfg) (Daemon.service_name cfg) \/
      cmd = Daemon.am_start_foreground_cmd (Daemon.package_name cfg) (Daemon.service_name cfg) \/
      cmd = Daemon.am_broadcast_cmd (Daemon.package_name cfg)
  | _ => False
  end.

(** The three command lines in full. *)
Definition am_startservice_text (pkg svc : list ascii) : list ascii :=
  lit "am startservice --user 0 -n " ++ pkg ++ lit "/" ++ svc
  ++ lit " --es start_reason native_daemon 2>&1".

Definition am_start_foreground_text (pkg svc : list ascii) : list ascii :=
  lit "am start-foreground-service --user 0 -n " ++ pkg ++ lit "/" ++ svc
  ++ lit " --es start_reason native_daemon 2>&1".

Definition am_broadcast_text (pkg : list ascii) : list ascii :=
  lit "am broadcast --user 0 -a " ++ pkg ++ lit ".NATIVE_WAKEUP -p " ++ pkg
  ++ lit " 2>&1".

Definition no_NUL (l : list ascii) : Prop := Forall (fun c => c <> NUL) l.

(* ================================================================== *)
(** ** fw_process.cpp                                                  *)
(* ================================================================== *)

(** The calls this file makes, and what answers them.  None of its
    functions shares state with the daemon or the channel, so they have
    a log and an environment of their own. *)
Module ProcOS.

Record dirent := { d_type : Z; d_name : list ascii }.

Inductive Call :=
| Fopen (path mode : list ascii) (opened : bool)
| Fscanf (path : list ascii)
| Fprintf (path : list ascii) (value : Z)
| Fgets (path : list ascii)
| Fclose (path : list ascii)
| Setpriority (which who prio : Z)
| Getpriority (which who : Z)
| Getuid
| Geteuid
| Access (path : list ascii)
| Opendir (path : list ascii) (opened : bool)
| Readdir
| Closedir.

Record Env := {
  env_fopen : list ascii -> list ascii -> bool;
  (* what [fscanf(fp, "%d", &x)] stores; [None] when it does not answer 1 *)
  env_fscanf : list ascii -> option Z;
  env_fprintf : Z;
  (* the bytes of a file *)
  env_file : list ascii -> list ascii;
  (* what [sscanf(s, "%ld", &x)] stores; [None] when it stores nothing *)
  env_sscanf : list ascii -> option Z;
  env_setpriority : Z;
  env_getpriority : Z;
  env_errno : Z;
  env_getuid : Z;
  env_geteuid : Z;
  env_access : list ascii -> Z;
  env_opendir : bool;
  env_readdir : list dirent
}.

Definition M (A : Type) : Type := Env -> A * list Call.

Definition ret {A} (a : A) : M A := fun _ => (a, []).

Definition bind {A B} (m : M A) (k : A -> M B) : M B :=
  fun e => let (a, l1) := m e in let (b, l2) := k a e in (b, l1 ++ l2).

Definition call {A} (c : Env -> Call) (answer : Env -> A) : M A :=
  fun e => (answer e, [c e]).

(** A 32-bit [int] after an arithmetic operation. *)
Definition wrap32 (z : Z) : Z := (z + 2 ^ 31) mod 2 ^ 32 - 2 ^ 31.

End ProcOS.

Declare Scope proc_scope.
Delimit Scope proc_scope with proc.
Notation "x <- m ;; k" := (ProcOS.bind m (fun x => k))
  (at level 61, m at next level, right associativity) : proc_scope.
Notation "m ;;; k" := (ProcOS.bind m (fun _ => k))
  (at level 61, right associativity) : proc_scope.

Module Process.
Import ProcOS.
Local Open Scope proc_scope.

Definition PRIO_PROCESS : Z := 0.
Definition DT_DIR : Z := 4.

Definition fopen (path mode : list ascii) : M bool :=
  call (fun e => Fopen path mode (env_fopen e path mode)) (fun e => env_fopen e path mode).

Definition fclose (path : list ascii) : M unit :=
  call (fun _ => Fclose path) (fun _ => tt).

Definition oom_score_adj_path : list ascii := lit "/proc/self/oom_score_adj".
Definition oom_adj_path : list ascii := lit "/proc/self/oom_adj".

(** [get_oom_adj]. *)
Definition get_oom_adj : M Z :=
  fp <- fopen oom_score_adj_path (lit "r") ;;
  if fp then
    v <- call (fun _ => Fscanf oom_score_adj_path) (fun e => env_fscanf e oom_score_adj_path) ;;
    let adj := match v with Some a => a | None => 1000 end in
    fclose oom_score_adj_path ;;;
    ret adj
  else
  fp <- fopen oom_adj_path (lit "r") ;;
  if fp then
    v <- call (fun _ => Fscanf oom_adj_path) (fun e => env_fscanf e oom_adj_path) ;;
    let adj := match v with Some a => a | None => 15 end in
    fclose oom_adj_path ;;;
    let adj := Z.quot (wrap32 (adj * 1000)) 17 in
    ret adj
  else ret 1000.

(** [set_oom_adj]. *)
Definition set_oom_adj (adj : Z) : M bool :=
  fp <- fopen oom_score_adj_path (lit "w") ;;
  if fp then
    r <- call (fun _ => Fprintf oom_score_adj_path adj) env_fprintf ;;
    fclose oom_score_adj_path ;;;
    if r >? 0 then ret true else ret false
  else ret false.

(** [set_process_priority]. *)
Definition set_process_priority (priority : Z) : M bool :=
  let priority := if priority <? -20 then -20 else priority in
  let priority := if priority >? 19 then 19 else priority in
  r <- call (fun _ => Setpriority PRIO_PROCESS 0 priority) env_setpriority ;;
  if r =? 0 then ret true else ret false.

(** [get_process_priority]: [errno] is cleared before the call and read
    after it. *)
Definition get_process_priority : M Z :=
  priority <- call (fun _ => Getpriority PRIO_PROCESS 0) env_getpriority ;;
  errno <- (fun e => (env_errno e, [])) ;;
  if negb (errno =? 0) then ret 0 else ret priority.

(** *** Reading a file line by line *)

Definition newline : ascii := ascii_of_nat 10.

(** The bytes one [fgets(line, n + 1, fp)] takes from what is left of a
    file, and what it leaves. *)
Fixpoint fgets_take (n : nat) (s : list ascii) : list ascii * list ascii :=
  match n, s with
  | O, _ => ([], s)
  | _, [] => ([], [])
  | S n', c :: r =>
      if Ascii.eqb c newline then ([c], r)
      else let (l, rest) := fgets_take n' r in (c :: l, rest)
  end.

(** The lines successive calls of [fgets(line, 256, fp)] give until it
    answers NULL; [fuel] bounds the number of calls. *)
Fixpoint fgets_lines (fuel : nat) (s : list ascii) : list (list ascii) :=
  match fuel, s with
  | O, _ => []
  | _, [] => []
  | S fuel', _ :: _ =>
      let (l, rest) := fgets_take 255 s in l :: fgets_lines fuel' rest
  end.

Definition read_lines (s : list ascii) : list (list ascii) :=
  fgets_lines (List.length s) s.

(** The [while (fgets(line, sizeof(line), fp) != nullptr)] of a function:
    the lines it goes through; [fgets] is called once per line and once
    more for the NULL that ends the loop. *)
Definition fgets_all (path : list ascii) : M (list (list ascii)) :=
  fun e => let lines := read_lines (env_file e path) in
           (lines, repeat (Fgets path) (S (List.length lines))).

(** [strncmp(line, key, strlen(key)) == 0] for a literal [key]. *)
Definition has_prefix (key line : list ascii) : bool :=
  if list_eq_dec ascii_dec (firstn (List.length key) (c_str line)) key
  then true else false.

Definition status_keys : list (list ascii) :=
  [lit "Name:"; lit "State:"; lit "Pid:"; lit "PPid:";
   lit "Threads:"; lit "VmSize:"; lit "VmRSS:"; lit "VmPeak:"].

Definition is_status_key_line (line : list ascii) : bool :=
  has_prefix (lit "Name:") line ||
  has_prefix (lit "State:") line ||
  has_prefix (lit "Pid:") line ||
  has_prefix (lit "PPid:") line ||
  has_prefix (lit "Threads:") line ||
  has_prefix (lit "VmSize:") line ||
  has_prefix (lit "VmRSS:") line ||
  has_prefix (lit "VmPeak:") line.

Definition status_path : list ascii := lit "/proc/self/status".

(** The message of line 171, as its UTF-8 bytes. *)
Definition status_unreadable : list ascii :=
  map ascii_of_nat
      [230; 151; 160; 230; 179; 149; 232; 175; 187; 229; 143; 150;
       232; 191; 155; 231; 168; 139; 231; 138; 182; 230; 128; 129]%nat.

(** The body of the [while] of [get_process_status] on one line:
    [result] is the 4096-byte array, [offset] the write position.
    [None] when [strcpy] would run past the array. *)
Definition status_step (st : list ascii * Z) (line : list ascii)
  : option (list ascii * Z) :=
  let (result, offset) := st in
  if is_status_key_line line then
    let len := strlen line in
    if offset + len <? 4096 - 1 then
      match strcpy_at (Z.to_nat offset) result line with
      | Some result' => Some (result', offset + len)
      | None => None
      end
    else Some (result, offset)
  else Some (result, offset).

Fixpoint status_loop (st : list ascii * Z) (lines : list (list ascii))
  : option (list ascii * Z) :=
  match lines with
  | [] => Some st
  | line :: rest =>
      match status_step st line with
      | Some st' => status_loop st' rest
      | None => None
      end
  end.

(** [strncpy(dst, src, n)] on a [dst] of more than [n] bytes: [n] bytes
    are written, the source string and then NULs. *)
Definition strncpy_pad (dst src : list ascii) (n : nat) : list ascii :=
  let s := firstn n (c_str src) in
  overwrite 0 (s ++ repeat NUL (n - List.length s)) dst.

(** [get_process_status]: the buffer afterwards; [buffer] is [None] for
    a null pointer, and the outer [None] is a write past an array. *)
Definition get_process_status (buffer : option (list ascii)) (buffer_size : Z)
  : M (option (option (list ascii))) :=
  match buffer with
  | None => ret (Some None)
  | Some buf =>
      if buffer_size <=? 0 then ret (Some (Some buf)) else
      let buf := overwrite 0 [NUL] buf in
      fp <- fopen status_path (lit "r") ;;
      if negb fp then
        ret (Some (Some (snprintf buf (Z.to_nat buffer_size) status_unreadable [])))
      else
      lines <- fgets_all status_path ;;
      let st := status_loop (repeat NUL 4096, 0) lines in
      fclose status_path ;;;
      match st with
      | None => ret None
      | Some (result, _) =>
          let buf := strncpy_pad buf result (Z.to_nat (buffer_size - 1)) in
          let buf := overwrite (Z.to_nat (buffer_size - 1)) [NUL] buf in
          ret (Some (Some buf))
      end
  end.

Definition meminfo_path : list ascii := lit "/proc/meminfo".

(** The body of the [while] of [get_memory_info] on one line; [scan] is
    [sscanf(s, "%ld", &x)], which leaves [x] alone when it finds no
    number. *)
Definition meminfo_step (scan : list ascii -> option Z) (st : Z * Z * Z)
           (line : list ascii) : Z * Z * Z :=
  let '(total_kb, free_kb, available_kb) := st in
  let store (old : Z) (n : nat) :=
      match scan (skipn n (c_str line)) with Some v => v | None => old end in
  if has_prefix (lit "MemTotal:") line then (store total_kb 9%nat, free_kb, available_kb)
  else if has_prefix (lit "MemFree:") line then (total_kb, store free_kb 8%nat, available_kb)
  else if has_prefix (lit "MemAvailable:") line
       then (total_kb, free_kb, store available_kb 13%nat)
  else (total_kb, free_kb, available_kb).

(** [get_memory_info]: the three values stored through the pointers, or
    [None] when one of the pointers is null and nothing is stored. *)
Definition get_memory_info (pointers_ok : bool) : M (option (Z * Z * Z)) :=
  if negb pointers_ok then ret None else
  fp <- fopen meminfo_path (lit "r") ;;
  if negb fp then ret (Some (0, 0, 0)) else
  lines <- fgets_all meminfo_path ;;
  scan <- (fun e => (env_sscanf e, [])) ;;
  fclose meminfo_path ;;;
  ret (Some (fold_left (meminfo_step scan) lines (0, 0, 0))).

(** *** [check_root] *)

Definition accessible (path : list ascii) : M bool :=
  r <- call (fun _ => Access path) (fun e => env_access e path) ;;
  ret (r =? 0).

(** C's [a || b] on two calls: the second is made only when the first
    answers false. *)
Definition orM (a b : M bool) : M bool :=
  x <- a ;; if x then ret true else b.

Definition check_root : M bool :=
  is_root <- orM (u <- call (fun _ => Getuid) env_getuid ;; ret (u =? 0))
                 (u <- call (fun _ => Geteuid) env_geteuid ;; ret (u =? 0)) ;;
  if is_root then ret true else
  su <- orM (accessible (lit "/system/app/Superuser.apk"))
       (orM (accessible (lit "/system/xbin/su"))
       (orM (accessible (lit "/system/bin/su"))
       (orM (accessible (lit "/data/local/bin/su"))
            (accessible (lit "/sbin/su"))))) ;;
  if su then ret true else
  magisk <- orM (accessible (lit "/sbin/.magisk"))
                (accessible (lit "/data/adb/magisk")) ;;
  if magisk then ret true else ret false.

(** *** [get_process_count] *)

(** The [for] loop of lines 287-292 over a name: [true] when it ends
    without meeting a byte that is not a digit. *)
Fixpoint only_digits (name : list ascii) : bool :=
  match name with
  | [] => true
  | c :: r =>
      if Ascii.eqb c NUL then true
      else if (nat_of_ascii c <? 48)%nat || (57 <? nat_of_ascii c)%nat then false
      else only_digits r
  end.

Definition first_byte_is_NUL (name : list ascii) : bool :=
  match name with
  | [] => true
  | c :: _ => Ascii.eqb c NUL
  end.

(** The body of the [while] on one directory entry. *)
Definition count_step (count : Z) (entry : dirent) : Z :=
  if d_type entry =? DT_DIR then
    let is_pid := only_digits (d_name entry) in
    if is_pid && negb (first_byte_is_NUL (d_name entry))
    then wrap32 (count + 1) else count
  else count.

(** [get_process_count]: [readdir] is called once per entry and once
    more for the NULL that ends the loop. *)
Definition get_process_count : M Z :=
  dir <- call (fun e => Opendir (lit "/proc") (env_opendir e)) env_opendir ;;
  if negb dir then ret (-1) else
  entries <- (fun e => (env_readdir e, repeat Readdir (S (List.length (env_readdir e))))) ;;
  call (fun _ => Closedir) (fun _ => tt) ;;;
  ret (fold_left count_step entries 0).

End Process.

(* ================================================================== *)
(** ** Further vocabulary: process diagnostics                         *)
(* ================================================================== *)

(** The files whose presence [check_root] takes for a sign of root, in
    the order it looks for them. *)
Definition root_markers : list (list ascii) :=
  [lit "/system/app/Superuser.apk"; lit "/system/xbin/su"; lit "/system/bin/su";
   lit "/data/local/bin/su"; lit "/sbin/su"; lit "/sbin/.magisk";
   lit "/data/adb/magisk"].

(** The elements of a list up to and including the first that satisfies
    [p]. *)
Fixpoint up_to_first {A} (p : A -> bool) (l : list A) : list A :=
  match l with
  | [] => []
  | x :: r => if p x then [x] else x :: up_to_first p r
  end.

Definition is_digit (c : ascii) : Prop :=
  (48 <= nat_of_ascii c <= 57)%nat.

(** A directory entry that [get_process_count] counts: a directory whose
    name is a non-empty string of digits. *)
Definition is_pid_entry (d : ProcOS.dirent) : Prop :=
  ProcOS.d_type d = Process.DT_DIR /\
  c_str (ProcOS.d_name d) <> [] /\
  Forall is_digit (c_str (ProcOS.d_name d)).

Definition is_pid_entryb (d : ProcOS.dirent) : bool :=
  (ProcOS.d_type d =? Process.DT_DIR) &&
  Process.only_digits (ProcOS.d_name d) &&
  negb (Process.first_byte_is_NUL (ProcOS.d_name d)).

Definition count_opened (l : list ProcOS.Call) : nat :=
  List.length (filter (fun c => match c with
                                | ProcOS.Fopen _ _ true => true
                                | _ => false end) l).

Definition count_closed (l : list ProcOS.Call) : nat :=
  List.length (filter (fun c => match c with
                                | ProcOS.Fclose _ => true
                                | _ => false end) l).

(** The value [get_oom_adj] takes from the old file. *)
Definition legacy_oom_adj (e : ProcOS.Env) : Z :=
  match ProcOS.env_fscanf e Process.oom_adj_path with Some a => a | None => 15 end.

(** The value of the last line that starts with [key] and in which
    [scan] finds a number after the key; 0 when there is none. *)
Definition last_scanned (scan : list ascii -> option Z) (key : list ascii)
           (lines : list (list ascii)) : Z :=
  fold_left (fun acc line =>
               if Process.has_prefix key line
               then match scan (skipn (List.length key) (c_str line)) with
                    | Some v => v
                    | None => acc
                    end
               else acc) lines 0.

(** The text [get_process_status] collects while every kept line fits:
    the lines that start with one of the eight keys, in file order. *)
Definition status_text (lines : list (list ascii)) : list ascii :=
  List.concat (map c_str (filter Process.is_status_key_line lines)).

(** What [get_process_status] has collected after some lines: a line
    is added when it starts with one of the keys and, with what is
    there already, stays below 4095 bytes. *)
Fixpoint status_collect (acc : list ascii) (lines : list (list ascii)) : list ascii :=
  match lines with
  | [] => acc
  | line :: rest =>
      if Process.is_status_key_line line
         && (List.length acc + List.length (c_str line) <? 4095)%nat
      then status_collect (acc ++ c_str line) rest
      else status_collect acc rest
  end.

(** The array [result] when it holds the string [acc]. *)
Definition result_holding (acc : list ascii) : list ascii :=
  acc ++ repeat NUL (4096 - List.length acc).

(* ================================================================== *)
(** ** mediaroute/fw_mediaroute_jni.cpp                                *)
(* ================================================================== *)

Module MediaRoute.

Record ServiceState := {
  isService1Running : bool;
  isService2Running : bool;
  lastHeartbeatTime : Z;
  heartbeatCount : Z;
  packageName : list ascii;
  service1Name : list ascii;
  service2Name : list ascii
}.

Record Globals := {
  g_serviceState : ServiceState;
  g_initialized : bool
}.

Definition initial : Globals := {|
  g_serviceState := {| isService1Running := false; isService2Running := false;
                       lastHeartbeatTime := 0; heartbeatCount := 0;
                       packageName := []; service1Name := []; service2Name := [] |};
  g_initialized := false
|}.

(** What [clock_gettime(CLOCK_MONOTONIC, &ts)] stores. *)
Record timespec := { tv_sec : Z; tv_nsec : Z }.

(** A [long] of 64 bits, and an [int] of 32, after an arithmetic
    operation. *)
Definition wrap64 (z : Z) : Z := (z + 2 ^ 63) mod 2 ^ 64 - 2 ^ 63.
Definition wrap32 (z : Z) : Z := (z + 2 ^ 31) mod 2 ^ 32 - 2 ^ 31.

(** [getCurrentTimeMs], from the time the clock gives. *)
Definition getCurrentTimeMs (ts : timespec) : Z :=
  wrap64 (wrap64 (tv_sec ts * 1000) + Z.quot (tv_nsec ts) 1000000).

Definition with_state (g : Globals) (s : ServiceState) : Globals :=
  {| g_serviceState := s; g_initialized := g_initialized g |}.

(** [init]: [exchange] stores [true] and gives the value before. *)
Definition init (g : Globals) (ts : timespec) : Globals :=
  let was := g_initialized g in
  let g := {| g_serviceState := g_serviceState g; g_initialized := true |} in
  if was then g else
  let s := g_serviceState g in
  with_state g {| isService1Running := false;
                  isService2Running := false;
                  lastHeartbeatTime := getCurrentTimeMs ts;
                  heartbeatCount := 0;
                  packageName := packageName s;
                  service1Name := service1Name s;
                  service2Name := service2Name s |}.

(** [checkWakeLock]. *)
Definition checkWakeLock (g : Globals) (ts : timespec) : Globals :=
  let s := g_serviceState g in
  with_state g {| isService1Running := isService1Running s;
                  isService2Running := isService2Running s;
                  lastHeartbeatTime := getCurrentTimeMs ts;
                  heartbeatCount := wrap32 (heartbeatCount s + 1);
                  packageName := packageName s;
                  service1Name := service1Name s;
                  service2Name := service2Name s |}.

(** [onServiceStarted]. *)
Definition onServiceStarted (g : Globals) (ts : timespec)
           (packageName' serviceName : list ascii) : Globals :=
  let s := g_serviceState g in
  with_state g {| isService1Running := true;
                  isService2Running := isService2Running s;
                  lastHeartbeatTime := getCurrentTimeMs ts;
                  heartbeatCount := heartbeatCount s;
                  packageName := packageName';
                  service1Name := serviceName;
                  service2Name := service2Name s |}.

(** [onServiceStopped]. *)
Definition onServiceStopped (g : Globals) : Globals :=
  let s := g_serviceState g in
  with_state g {| isService1Running := false;
                  isService2Running := isService2Running s;
                  lastHeartbeatTime := lastHeartbeatTime s;
                  heartbeatCount := heartbeatCount s;
                  packageName := packageName s;
                  service1Name := service1Name s;
                  service2Name := service2Name s |}.

(** [onService2Started]. *)
Definition onService2Started (g : Globals) (ts : timespec)
           (packageName' serviceName : list ascii) : Globals :=
  let s := g_serviceState g in
  with_state g {| isService1Running := isService1Running s;
                  isService2Running := true;
                  lastHeartbeatTime := getCurrentTimeMs ts;
                  heartbeatCount := heartbeatCount s;
                  packageName := packageName';
                  service1Name := service1Name s;
                  service2Name := serviceName |}.

(** [onService2Stopped]. *)
Definition onService2Stopped (g : Globals) : Globals :=
  let s := g_serviceState g in
  with_state g {| isService1Running := isService1Running s;
                  isService2Running := false;
                  lastHeartbeatTime := lastHeartbeatTime s;
                  heartbeatCount := heartbeatCount s;
                  packageName := packageName s;
                  service1Name := service1Name s;
                  service2Name := service2Name s |}.

(** [performHeartbeat]: the answer, the time since the last heartbeat
    that it logs, and the globals after. *)
Definition performHeartbeat (g : Globals) (ts : timespec) : bool * Z * Globals :=
  let s := g_serviceState g in
  let now := getCurrentTimeMs ts in
  let lastHeartbeat := lastHeartbeatTime s in
  let elapsed := wrap64 (now - lastHeartbeat) in
  let g' := with_state g {| isService1Running := isService1Running s;
                            isService2Running := isService2Running s;
                            lastHeartbeatTime := now;
                            heartbeatCount := wrap32 (heartbeatCount s + 1);
                            packageName := packageName s;
                            service1Name := service1Name s;
                            service2Name := service2Name s |} in
  let service1OK := isService1Running s in
  let service2OK := isService2Running s in
  if negb service1OK && negb service2OK then (false, elapsed, g')
  else (true, elapsed, g').

(** [getServiceStatus]. *)
Definition getServiceStatus (g : Globals) : Z :=
  let service1OK := isService1Running (g_serviceState g) in
  let service2OK := isService2Running (g_serviceState g) in
  if service1OK && service2OK then 0
  else if service1OK || service2OK then 1
  else 2.

(** The entry points, as the Java side calls them; the names it passes
    arrive as C strings. *)
Inductive Op :=
| NativeInit
| NativeCheckWakeLock
| NativeOnServiceStarted (packageName serviceName : list ascii)
| NativeOnServiceStopped
| NativeOnService2Started (packageName serviceName : list ascii)
| NativeOnService2Stopped
| NativePerformHeartbeat
| NativeGetServiceStatus.

(** What an entry point gives back to the Java side. *)
Inductive Answer :=
| Void
| JBoolean (b : bool)
| JInt (i : Z).

Definition native (g : Globals) (op : Op) (ts : timespec) : Globals * Answer :=
  match op with
  | NativeInit => (init g ts, Void)
  | NativeCheckWakeLock => (checkWakeLock g ts, Void)
  | NativeOnServiceStarted p s => (onServiceStarted g ts (c_str p) (c_str s), Void)
  | NativeOnServiceStopped => (onServiceStopped g, Void)
  | NativeOnService2Started p s => (onService2Started g ts (c_str p) (c_str s), Void)
  | NativeOnService2Stopped => (onService2Stopped g, Void)
  | NativePerformHeartbeat =>
      let '(b, _, g') := performHeartbeat g ts in (g', JBoolean b)
  | NativeGetServiceStatus => (g, JInt (getServiceStatus g))
  end.

(** A sequence of calls, each with the time the clock shows during it. *)
Fixpoint natives (g : Globals) (ops : list (Op * timespec)) : Globals :=
  match ops with
  | [] => g
  | (op, ts) :: rest => natives (fst (native g op ts)) rest
  end.

End MediaRoute.

(** *** Vocabulary *)

(** A call that counts as a heartbeat. *)
Definition is_beat (op : MediaRoute.Op) : bool :=
  match op with
  | MediaRoute.NativeCheckWakeLock | MediaRoute.NativePerformHeartbeat => true
  | _ => false
  end.

(** The heartbeats among a sequence of calls. *)
Definition beats (ops : list (MediaRoute.Op * MediaRoute.timespec)) : Z :=
  Z.of_nat (List.length (filter (fun o => is_beat (fst o)) ops)).

(** What a call says about the first service: started, stopped, or
    nothing. *)
Definition service1_event (op : MediaRoute.Op) : option bool :=
  match op with
  | MediaRoute.NativeOnServiceStarted _ _ => Some true
  | MediaRoute.NativeOnServiceStopped => Some false
  | _ => None
  end.

Definition service2_event (op : MediaRoute.Op) : option bool :=
  match op with
  | MediaRoute.NativeOnService2Started _ _ => Some true
  | MediaRoute.NativeOnService2Stopped => Some false
  | _ => None
  end.

(** The last thing a sequence of calls says, if it says anything. *)
Fixpoint last_event {A} (event : A -> option bool) (ops : list A) : option bool :=
  match ops with
  | [] => None
  | op :: rest =>
      match last_event event rest with
      | Some b => Some b
      | None => event op
      end
  end.

(** A time as a normalised [timespec] gives it, early enough for the
    milliseconds to fit a [long]. *)
Definition normal_time (ts : MediaRoute.timespec) : Prop :=
  0 <= MediaRoute.tv_sec ts < 2 ^ 31 /\ 0 <= MediaRoute.tv_nsec ts < 1000000000.

(** The clock does not go back from [a] to [b]. *)
Definition not_before (a b : MediaRoute.timespec) : Prop :=
  MediaRoute.tv_sec a < MediaRoute.tv_sec b \/
  (MediaRoute.tv_sec a = MediaRoute.tv_sec b /\
   MediaRoute.tv_nsec a <= MediaRoute.tv_nsec b).

(** *** Further concrete inputs *)

Definition one_second : MediaRoute.timespec :=
  {| MediaRoute.tv_sec := 1; MediaRoute.tv_nsec := 0 |}.

Definition two_and_a_half_seconds : MediaRoute.timespec :=
  {| MediaRoute.tv_sec := 2; MediaRoute.tv_nsec := 500000000 |}.

(** The globals after a first [init] at one second. *)
Definition initialised : MediaRoute.Globals :=
  MediaRoute.init MediaRoute.initial one_second.

(** A server started, a client connected, the server stopped. *)
Definition a_session : list (ChannelOp * Env) :=
  [(StartSocketServer wd_sock_1, calm); (ConnectSocket wd_sock_1, calm);
   (SendHeartbeat 3, calm); (StopSocketServer, calm)].

(* ================================================================== *)
(** ** Properties of the socket addresses                              *)
(* ================================================================== *)

Section SocketAddress.
Import Socket.

Lemma c_str_socket_path_format : c_str socket_path_format = [].
Proof. reflexivity. Qed.

(** The [snprintf] of line 78 stores one NUL at the head of the path and
    nothing of the name. *)
Lemma snprintf_socket_path p name :
  snprintf p 256 socket_path_format [PStr name] = NUL :: skipn 1 p.
Proof. reflexivity. Qed.

Lemma firstn_repeat_le {A} (x : A) n m :
  (n <= m)%nat -> firstn n (repeat x m) = repeat x n.
Proof.
  revert m; induction n as [|n IH]; intros [|m] H; simpl; try lia; auto.
  f_equal. apply IH. lia.
Qed.

Lemma skipn_repeat' {A} (x : A) n m :
  skipn n (repeat x m) = repeat x (m - n).
Proof.
  revert m; induction n as [|n IH]; intros [|m]; simpl; auto.
Qed.

Lemma c_str_head_not_NUL a c r : c_str a = c :: r -> c <> NUL.
Proof.
  destruct a as [|x a]; simpl; [discriminate|].
  destruct (Ascii.eqb_spec x NUL); [discriminate|].
  intros [= <- _]. assumption.
Qed.

Lemma strlen_pos_cons name :
  0 < strlen name -> exists c r, c_str name = c :: r /\ c <> NUL.
Proof.
  unfold strlen. destruct (c_str name) as [|c r] eqn:E; simpl; [lia|].
  intros _. exists c, r. split; [reflexivity|]. eapply c_str_head_not_NUL; eauto.
Qed.

Lemma initial_path_blank : path_blank initial.
Proof. reflexivity. Qed.

(** What [create_socket_server] binds when the calls succeed: as many
    NUL bytes as the name is long, and one more. *)
Lemma create_socket_server_binds_blank g name e :
  path_blank g -> 0 < strlen name <= 107 -> 0 <= env_socket e ->
  exists r g' l,
    create_socket_server g (Some name) e = Some ((r, g'), l) /\
    path_blank g' /\
    bound_address l = Some (repeat NUL (Z.to_nat (strlen name + 1))).
Proof.
  intros Hp [Hlo Hhi] Hs. unfold create_socket_server.
  destruct (Z.eqb_spec (strlen name) 0) as [E|_]; [lia|].
  rewrite snprintf_socket_path, Hp.
  change (NUL :: skipn 1 (repeat NUL 256)) with (repeat NUL 256).
  unfold OS.bind, call at 1.
  destruct (Z.ltb_spec (env_socket e) 0) as [?|_]; [lia|].
  cbn [g_socket_path set_server_socket set_socket_path].
  unfold memcpy.
  rewrite !repeat_length.
  replace (Z.to_nat (strlen name + 1) <=? 256)%nat with true
    by (symmetry; apply Nat.leb_le; lia).
  replace (Z.to_nat (strlen name + 1) <=? SUN_PATH_SIZE)%nat with true
    by (symmetry; apply Nat.leb_le; unfold SUN_PATH_SIZE; lia).
  cbn [andb lift ret].
  assert (Hpath : overwrite 0 (firstn (Z.to_nat (strlen name + 1)) (repeat NUL 256))
                    (repeat NUL SUN_PATH_SIZE) = repeat NUL SUN_PATH_SIZE).
  { unfold overwrite.
    rewrite (firstn_repeat_le NUL (Z.to_nat (strlen name + 1)) 256) by lia.
    cbn [firstn app].
    rewrite repeat_length, skipn_repeat', Nat.add_0_l, <- repeat_app.
    f_equal. unfold SUN_PATH_SIZE. lia. }
  rewrite Hpath.
  assert (Hw : wire_path {| sun_family := AF_UNIX; sun_path := repeat NUL SUN_PATH_SIZE |}
                 (offsetof_sun_path + strlen name + 1)
               = repeat NUL (Z.to_nat (strlen name + 1))).
  { unfold wire_path. cbn [sun_path].
    replace (offsetof_sun_path + strlen name + 1 - offsetof_sun_path)
      with (strlen name + 1) by lia.
    apply firstn_repeat_le. unfold SUN_PATH_SIZE. lia. }
  unfold call.
  destruct (env_bind e <? 0); [|destruct (env_listen e <? 0)];
    do 3 eexists;
    (split; [reflexivity|split; [reflexivity|]]);
    cbn [app bound_address]; rewrite Hw; reflexivity.
Qed.

(** What [connect_socket_server] connects to when [socket] succeeds: a
    NUL byte, then the name. *)
Lemma connect_socket_server_address g name e :
  0 < strlen name <= 106 -> 0 <= env_socket e ->
  exists r g' l,
    connect_socket_server g (Some name) e = Some ((r, g'), l) /\
    connected_address l = Some (NUL :: c_str name).
Proof.
  intros [Hlo Hhi] Hs. unfold connect_socket_server.
  destruct (Z.eqb_spec (strlen name) 0) as [E|_]; [lia|].
  unfold OS.bind, call at 1.
  destruct (Z.ltb_spec (env_socket e) 0) as [?|_]; [lia|].
  unfold strcpy_at. rewrite repeat_length, length_app. cbn [List.length].
  unfold strlen in *.
  replace (1 + (List.length (c_str name) + 1) <=? SUN_PATH_SIZE)%nat with true
    by (symmetry; apply Nat.leb_le; unfold SUN_PATH_SIZE; lia).
  cbn [lift ret].
  set (path := overwrite 1 (c_str name ++ [NUL]) (repeat NUL SUN_PATH_SIZE)).
  assert (Hw : wire_path {| sun_family := AF_UNIX; sun_path := path |}
                 (offsetof_sun_path + Z.of_nat (List.length (c_str name)) + 1)
               = NUL :: c_str name).
  { unfold wire_path, path, overwrite. cbn [sun_path].
    replace (Z.to_nat (offsetof_sun_path + Z.of_nat (List.length (c_str name)) + 1
                       - offsetof_sun_path))
      with (S (List.length (c_str name))) by lia.
    change (firstn 1 (repeat NUL SUN_PATH_SIZE)) with [NUL].
    cbn [app firstn]. f_equal.
    rewrite <- app_assoc, firstn_app, Nat.sub_diag, firstn_all. cbn [firstn]. apply app_nil_r. }
  unfold call.
  destruct (env_connect e <? 0); do 3 eexists; (split; [reflexivity|]);
    cbn [app connected_address]; rewrite Hw; reflexivity.
Qed.

(** For every name both functions accept, the server's address and the
    client's differ. *)
Lemma bound_and_connected_address_differ g1 g2 name e1 e2 :
  path_blank g1 -> 0 < strlen name <= 106 ->
  0 <= env_socket e1 -> 0 <= env_socket e2 ->
  exists r1 g1' l1 r2 g2' l2,
    create_socket_server g1 (Some name) e1 = Some ((r1, g1'), l1) /\
    connect_socket_server g2 (Some name) e2 = Some ((r2, g2'), l2) /\
    bound_address l1 <> connected_address l2.
Proof.
  intros Hp Hn H1 H2.
  destruct (create_socket_server_binds_blank g1 name e1 Hp) as (r1 & g1' & l1 & E1 & _ & B);
    [lia|assumption|].
  destruct (connect_socket_server_address g2 name e2 Hn H2) as (r2 & g2' & l2 & E2 & C).
  exists r1, g1', l1, r2, g2', l2. repeat split; try assumption.
  rewrite B, C.
  destruct (strlen_pos_cons name) as (c & r & Ec & Hc); [lia|].
  rewrite Ec. replace (Z.to_nat (strlen name + 1)) with (S (S (Z.to_nat (strlen name - 1)))) by lia.
  cbn [repeat]. intros [= Habs _]. apply Hc. symmetry. exact Habs.
Qed.

End SocketAddress.
(* ================================================================== *)
(** ** The monad                                                       *)
(* ================================================================== *)

Lemma bind_Some {A B} (m : M A) (k : A -> M B) e a l1 b l2 :
  m e = Some (a, l1) -> k a e = Some (b, l2) -> OS.bind m k e = Some (b, l1 ++ l2).
Proof. intros H1 H2. unfold OS.bind. rewrite H1, H2. reflexivity. Qed.

(* ================================================================== *)
(** ** The daemon                                                      *)
(* ================================================================== *)

Section DaemonFacts.
Import Daemon.

Lemma is_process_alive_eq pid e :
  is_process_alive pid e =
  if pid <=? 0 then Some (false, [])
  else if proc_entry_is_dir e pid then Some (true, [Stat (proc_path pid)])
  else Some (signal_0_delivered e pid, [Stat (proc_path pid); Kill pid 0]).
Proof.
  unfold is_process_alive, proc_entry_is_dir, signal_0_delivered, OS.bind, call, ret.
  destruct (pid <=? 0); [reflexivity|].
  destruct (env_stat e (proc_path pid)) as [[|]|]; try reflexivity;
    destruct (env_kill e pid 0 =? 0); reflexivity.
Qed.

Lemma is_process_alive_probe g e :
  exists l, is_process_alive (parent_pid (g_config g)) e = Some (probe g e, l).
Proof.
  unfold probe. rewrite is_process_alive_eq.
  destruct (_ <=? 0); [|destruct (proc_entry_is_dir _ _)]; eexists; reflexivity.
Qed.

Lemma start_service_via_am_eq p s e :
  start_service_via_am p s e =
  let plain := env_system e (am_startservice_cmd p s) =? 0 in
  let fg := env_system e (am_start_foreground_cmd p s) =? 0 in
  Some (plain || fg,
        System (am_startservice_cmd p s)
        :: if plain then [] else [System (am_start_foreground_cmd p s)]).
Proof.
  unfold start_service_via_am, system, OS.bind, call, ret. cbn zeta.
  destruct (env_system e (am_startservice_cmd p s) =? 0); [reflexivity|].
  destruct (env_system e (am_start_foreground_cmd p s) =? 0); reflexivity.
Qed.

Lemma start_via_broadcast_eq p e :
  start_via_broadcast p e =
  Some (env_system e (am_broadcast_cmd p) =? 0, [System (am_broadcast_cmd p)]).
Proof.
  unfold start_via_broadcast, system, OS.bind, call, ret.
  destruct (env_system e (am_broadcast_cmd p) =? 0); reflexivity.
Qed.

Lemma reactivate_eq c e :
  reactivate c e =
  let am := if use_am_command c
            then env_system e (am_startservice_cmd (package_name c) (service_name c)) =? 0
            else true in
  let fg := env_system e (am_start_foreground_cmd (package_name c) (service_name c)) =? 0 in
  let bc := env_system e (am_broadcast_cmd (package_name c)) =? 0 in
  if use_am_command c then
    Some (am || fg || bc,
          System (am_startservice_cmd (package_name c) (service_name c))
          :: if am then [] else
               System (am_start_foreground_cmd (package_name c) (service_name c))
               :: if fg then [] else [System (am_broadcast_cmd (package_name c))])
  else Some (bc, [System (am_broadcast_cmd (package_name c))]).
Proof.
  unfold reactivate, OS.bind. cbn zeta.
  destruct (use_am_command c).
  - rewrite start_service_via_am_eq. cbn zeta.
    destruct (env_system e (am_startservice_cmd (package_name c) (service_name c)) =? 0);
      cbn -[am_startservice_cmd am_start_foreground_cmd am_broadcast_cmd start_via_broadcast]; [reflexivity|].
    destruct (env_system e (am_start_foreground_cmd (package_name c) (service_name c)) =? 0);
      cbn -[am_startservice_cmd am_start_foreground_cmd am_broadcast_cmd start_via_broadcast]; [reflexivity|].
    rewrite start_via_broadcast_eq.
    destruct (env_system e (am_broadcast_cmd (package_name c)) =? 0); reflexivity.
  - cbn -[am_broadcast_cmd start_via_broadcast]. rewrite start_via_broadcast_eq.
    destruct (env_system e (am_broadcast_cmd (package_name c)) =? 0); reflexivity.
Qed.

Lemma reactivate_all_fail c e :
  every_attempt_fails e -> exists l, reactivate c e = Some (false, l).
Proof.
  intros H. rewrite reactivate_eq. cbn zeta.
  rewrite !(proj2 (Z.eqb_neq _ _) (H _)).
  destruct (use_am_command c); eexists; reflexivity.
Qed.

Lemma reactivate_total c e : exists b l, reactivate c e = Some (b, l).
Proof.
  rewrite reactivate_eq. cbn zeta. destruct (use_am_command c); do 2 eexists; reflexivity.
Qed.

(** The loop body, call by call. *)
Lemma cycle_eq g n e :
  cycle g n e =
  let sleep := Usleep (usleep_arg (check_interval_ms (g_config g))) in
  match is_process_alive (parent_pid (g_config g)) e with
  | None => None
  | Some (true, l1) => Some ((false, 0), sleep :: l1)
  | Some (false, l1) =>
      match reactivate (g_config g) e with
      | None => None
      | Some (true, l2) => Some ((false, 0), sleep :: l1 ++ l2 ++ [Sleep 5])
      | Some (false, l2) =>
          Some ((n + 1 >=? max_consecutive_failures, n + 1), sleep :: l1 ++ l2 ++ [])
      end
  end.
Proof.
  unfold cycle, OS.bind, call, ret. cbn zeta.
  destruct (is_process_alive (parent_pid (g_config g)) e) as [[[|] l1]|];
    cbn [negb app]; try reflexivity.
  - rewrite app_nil_r. reflexivity.
  - destruct (reactivate (g_config g) e) as [[[|] l2]|]; try reflexivity.
    destruct (n + 1 >=? max_consecutive_failures); reflexivity.
Qed.

(** A cycle in which the prober finds the process alive. *)
Lemma cycle_alive g n e :
  probe g e = true -> exists l, cycle g n e = Some ((false, 0), l).
Proof.
  intros Hp. destruct (is_process_alive_probe g e) as [l Hl]. rewrite Hp in Hl.
  rewrite cycle_eq, Hl. eexists; reflexivity.
Qed.

(** A cycle in which it is dead and nothing brings it back. *)
Lemma cycle_dead_and_failing g n e :
  dead_and_failing g e ->
  exists l, cycle g n e = Some ((n + 1 >=? max_consecutive_failures, n + 1), l).
Proof.
  intros [Hp Hf]. destruct (is_process_alive_probe g e) as [l Hl]. rewrite Hp in Hl.
  destruct (reactivate_all_fail (g_config g) e Hf) as [l' Hl'].
  rewrite cycle_eq, Hl, Hl'. eexists; reflexivity.
Qed.

Lemma cycle_total g n e : exists b n' l, cycle g n e = Some ((b, n'), l).
Proof.
  destruct (is_process_alive_probe g e) as [l Hl].
  destruct (reactivate_total (g_config g) e) as (b & l' & Hr).
  rewrite cycle_eq, Hl, Hr. cbn zeta.
  destruct (probe g e); [|destruct b]; do 3 eexists; reflexivity.
Qed.

Lemma monitor_nil g n :
  g_daemon_running g = true ->
  option_map summary (monitor g n []) = Some (Going, n, 0%nat).
Proof. intros H. cbn. rewrite H. reflexivity. Qed.

(** The loop never runs off an array: on every trace it has a state. *)
Lemma monitor_total g envs : forall n, exists r, monitor g n envs = Some r.
Proof.
  induction envs as [|e envs IH]; intros n; cbn [monitor].
  - destruct (negb (g_daemon_running g)); eexists; reflexivity.
  - destruct (negb (g_daemon_running g)); [eexists; reflexivity|].
    destruct (cycle_total g n e) as (b & n' & l & Hc). rewrite Hc.
    destruct b; [eexists; reflexivity|].
    destruct (IH n') as [r Hr]. rewrite Hr. eexists; reflexivity.
Qed.

(** A trace on which the loop is still going can be extended. *)
Lemma monitor_app g pre : forall n f c post,
  option_map summary (monitor g n pre) = Some (Going, f, c) ->
  option_map summary (monitor g n (pre ++ post)) =
  option_map (fun '(x, f', c') => (x, f', (c + c')%nat))
             (option_map summary (monitor g f post)).
Proof.
  induction pre as [|e pre IH]; intros n f c post H.
  - cbn [monitor] in H. destruct (negb (g_daemon_running g)) eqn:E; cbn in H;
      [discriminate|]. injection H as <- <-.
    cbn [app]. destruct (monitor g n post) as [r|]; cbn; [|reflexivity].
    reflexivity.
  - cbn [app monitor] in *.
    destruct (negb (g_daemon_running g)); [discriminate|].
    destruct (cycle g n e) as [[[[|] n'] l]|]; try discriminate.
    destruct (monitor g n' pre) as [r|] eqn:Er; [|discriminate].
    cbn in H. injection H as Hend <- <-.
    specialize (IH n' (failures r) (cycles r) post).
    rewrite Er in IH. unfold summary in IH at 1. cbn [option_map] in IH.
    rewrite Hend in IH. specialize (IH eq_refl).
    destruct (monitor g n' (pre ++ post)) as [r2|];
      destruct (monitor g (failures r) post) as [r3|]; cbn in IH |- *;
      try discriminate; [|reflexivity].
    injection IH as -> -> ->. reflexivity.
Qed.

Lemma loop_state_monitor g envs :
  loop_state g envs = option_map summary (monitor g 0 envs).
Proof.
  unfold loop_state, daemon_main_loop.
  destruct (monitor g 0 envs); reflexivity.
Qed.

(** Three failing cycles from a counter of zero. *)
Lemma monitor_three_failures g d1 d2 d3 rest :
  g_daemon_running g = true ->
  dead_and_failing g d1 -> dead_and_failing g d2 -> dead_and_failing g d3 ->
  option_map summary (monitor g 0 [d1]) = Some (Going, 1, 1%nat) /\
  option_map summary (monitor g 0 [d1; d2]) = Some (Going, 2, 2%nat) /\
  option_map summary (monitor g 0 (d1 :: d2 :: d3 :: rest)) = Some (GaveUp, 3, 3%nat).
Proof.
  intros Hr H1 H2 H3.
  destruct (cycle_dead_and_failing g 0 d1 H1) as [l1 E1].
  destruct (cycle_dead_and_failing g 1 d2 H2) as [l2 E2].
  destruct (cycle_dead_and_failing g 2 d3 H3) as [l3 E3].
  change (0 + 1 >=? max_consecutive_failures, 0 + 1) with (false, 1) in E1.
  change (1 + 1 >=? max_consecutive_failures, 1 + 1) with (false, 2) in E2.
  change (2 + 1 >=? max_consecutive_failures, 2 + 1) with (true, 3) in E3.
  cbn [monitor]. rewrite Hr. cbn [negb]. rewrite E1, E2, E3.
  repeat split; reflexivity.
Qed.

(** *** The command lines

    What [snprintf] leaves in the command buffers, as text. *)

Lemma c_str_no_NUL_id l : no_NUL l -> c_str l = l.
Proof.
  induction 1 as [|c l Hc _ IH]; [reflexivity|]. cbn.
  destruct (Ascii.eqb_spec c NUL); [contradiction|]. rewrite IH. reflexivity.
Qed.

Lemma c_str_app_NUL l r : no_NUL l -> c_str (l ++ NUL :: r) = l.
Proof.
  induction 1 as [|c l Hc _ IH]; [reflexivity|]. cbn.
  destruct (Ascii.eqb_spec c NUL); [contradiction|]. rewrite IH. reflexivity.
Qed.

Lemma no_NUL_c_str a : no_NUL (c_str a).
Proof.
  induction a as [|c a IH]; [constructor|]. cbn.
  destruct (Ascii.eqb_spec c NUL); [constructor|]. constructor; assumption.
Qed.

Lemma no_NUL_firstn n l : no_NUL l -> no_NUL (firstn n l).
Proof.
  unfold no_NUL. intros H. revert n.
  induction H as [|c l Hc _ IH]; intros [|n]; cbn [firstn]; try constructor.
  - exact Hc.
  - apply IH.
Qed.

Lemma no_NUL_app l1 l2 : no_NUL l1 -> no_NUL l2 -> no_NUL (l1 ++ l2).
Proof. intros H1 H2. apply Forall_app. split; assumption. Qed.

(** The C string a [snprintf] leaves in a fresh buffer: its output cut to
    the size, less the terminator. *)
Lemma c_str_snprintf buf size fmt args :
  no_NUL (expand (c_str fmt) args) ->
  c_str (snprintf buf size fmt args) = firstn (size - 1) (expand (c_str fmt) args).
Proof.
  intros H. unfold snprintf, overwrite. cbn [firstn app].
  rewrite <- app_assoc. cbn [app].
  apply c_str_app_NUL, no_NUL_firstn, H.
Qed.

Lemma no_NUL_lit_cons c l : c <> NUL -> no_NUL l -> no_NUL (c :: l).
Proof. intros; constructor; assumption. Qed.

Ltac no_NUL_text :=
  repeat first
    [ apply no_NUL_c_str
    | apply no_NUL_firstn
    | apply Forall_nil
    | apply no_NUL_lit_cons; [discriminate|]
    | apply no_NUL_app ].

Lemma am_startservice_cmd_eq pkg svc :
  am_startservice_cmd pkg svc
  = firstn 1023 (am_startservice_text (c_str pkg) (c_str svc)).
Proof.
  unfold am_startservice_cmd. rewrite c_str_snprintf; [reflexivity|].
  change (expand (c_str am_startservice_format) [PStr pkg; PStr svc])
    with (am_startservice_text (c_str pkg) (c_str svc)).
  unfold am_startservice_text, lit. cbn [list_ascii_of_string]. no_NUL_text.
Qed.

Lemma am_start_foreground_cmd_eq pkg svc :
  am_start_foreground_cmd pkg svc
  = firstn 1023 (am_start_foreground_text (c_str pkg) (c_str svc)).
Proof.
  unfold am_start_foreground_cmd. rewrite c_str_snprintf; [reflexivity|].
  change (expand (c_str am_start_foreground_format) [PStr pkg; PStr svc])
    with (am_start_foreground_text (c_str pkg) (c_str svc)).
  unfold am_start_foreground_text, lit. cbn [list_ascii_of_string]. no_NUL_text.
Qed.

Lemma am_broadcast_cmd_eq pkg :
  am_broadcast_cmd pkg = firstn 511 (am_broadcast_text (c_str pkg)).
Proof.
  unfold am_broadcast_cmd. rewrite c_str_snprintf; [reflexivity|].
  change (expand (c_str am_broadcast_format) [PStr pkg; PStr pkg])
    with (am_broadcast_text (c_str pkg)).
  unfold am_broadcast_text, lit. cbn [list_ascii_of_string]. no_NUL_text.
Qed.

Lemma am_startservice_text_length pkg svc :
  List.length (am_startservice_text pkg svc)
  = (66 + List.length pkg + List.length svc)%nat.
Proof.
  unfold am_startservice_text. rewrite !length_app.
  change (List.length (lit "am startservice --user 0 -n ")) with 28%nat.
  change (List.length (lit "/")) with 1%nat.
  change (List.length (lit " --es start_reason native_daemon 2>&1")) with 37%nat.
  lia.
Qed.

Lemma am_start_foreground_text_length pkg svc :
  List.length (am_start_foreground_text pkg svc)
  = (78 + List.length pkg + List.length svc)%nat.
Proof.
  unfold am_start_foreground_text. rewrite !length_app.
  change (List.length (lit "am start-foreground-service --user 0 -n ")) with 40%nat.
  change (List.length (lit "/")) with 1%nat.
  change (List.length (lit " --es start_reason native_daemon 2>&1")) with 37%nat.
  lia.
Qed.

Lemma am_broadcast_text_length pkg :
  List.length (am_broadcast_text pkg) = (48 + 2 * List.length pkg)%nat.
Proof.
  unfold am_broadcast_text. rewrite !length_app.
  change (List.length (lit "am broadcast --user 0 -a ")) with 25%nat.
  change (List.length (lit ".NATIVE_WAKEUP -p ")) with 18%nat.
  change (List.length (lit " 2>&1")) with 5%nat.
  lia.
Qed.

End DaemonFacts.

Section DaemonTheorems.
Import Daemon.

Lemma monitor_going_flag g n envs f c :
  option_map summary (monitor g n envs) = Some (Going, f, c) ->
  g_daemon_running g = true.
Proof.
  destruct envs; cbn [monitor]; destruct (g_daemon_running g); cbn;
    intros H; try reflexivity; discriminate.
Qed.

Lemma monitor_gave_up_flag g n envs r :
  monitor g n envs = Some r -> loop_end r = GaveUp -> g_daemon_running g = true.
Proof.
  destruct envs; cbn [monitor]; destruct (g_daemon_running g); cbn [negb];
    intros H1 H2; try reflexivity; injection H1 as <-; discriminate.
Qed.

Lemma daemon_main_loop_total g envs :
  exists r, daemon_main_loop g envs = Some (r, g) /\
            monitor g 0 envs = Some {| loop_end := loop_end r; failures := failures r;
                                       cycles := cycles r; calls := tl (calls r) |}.
Proof.
  unfold daemon_main_loop. destruct (monitor_total g envs 0) as [[x f c l] ->].
  eexists; split; reflexivity.
Qed.

Lemma detach_total e : exists l, detach e = Some (tt, l).
Proof.
  unfold detach, OS.bind, call, ret.
  destruct (0 <=? env_open e); [destruct (env_open e >? 2)|]; eexists; reflexivity.
Qed.

(** What [start_daemon] does once past its guard. *)
Lemma start_daemon_past_guard g p s i e envs :
  g_daemon_running g = false ->
  let saved := save_config g p s i (env_getpid e) in
  exists r l,
    start_daemon g p s i e envs =
    Some (r, (if env_fork e =? 0 then set_running saved true else saved), l) /\
    (env_fork e <> 0 -> r = Returned (if env_fork e <? 0 then -1 else 0)) /\
    In Fork l.
Proof.
  intros Hg saved. unfold start_daemon. rewrite Hg.
  unfold start_daemon_fork, OS.bind, call, ret. cbn [app fst snd].
  fold saved.
  destruct (Z.ltb_spec (env_fork e) 0) as [Hneg|Hnn].
  - replace (env_fork e =? 0) with false by (symmetry; apply Z.eqb_neq; lia).
    do 2 eexists; split; [reflexivity|]. split; [reflexivity|]. cbn; auto.
  - destruct (Z.eqb_spec (env_fork e) 0) as [Hz|Hnz].
    + destruct (detach_total e) as [l2 ->].
      destruct (daemon_main_loop_total (set_running saved true) envs) as (r & -> & _).
      destruct (loop_end r); do 2 eexists;
        (split; [reflexivity|]); (split; [intros; contradiction|]); cbn; auto.
    + do 2 eexists; split; [reflexivity|]. split; [reflexivity|]. cbn; auto.
Qed.

(** The guard of [start_daemon], taken. *)
Lemma start_daemon_flag_set g p s i e envs :
  g_daemon_running g = true ->
  start_daemon g p s i e envs = Some (Returned 0, g, []).
Proof. intros H. unfold start_daemon. rewrite H. reflexivity. Qed.

(** No call that comes back to its caller sets the flag: it is false at
    every call of the interface. *)
Lemma callable_not_running g : callable g -> is_daemon_running g = false.
Proof.
  induction 1 as [|g p s i e envs r g' l _ IH H|g _ _]; try reflexivity.
  destruct (start_daemon_past_guard g p s i e envs IH) as (r' & l' & E & Hr & _).
  rewrite E in H. injection H as -> <- _.
  destruct (Z.eqb_spec (env_fork e) 0) as [Hz|Hnz]; [|exact IH].
  exfalso. revert E. unfold start_daemon.
  unfold is_daemon_running in IH. rewrite IH.
  unfold start_daemon_fork, OS.bind, call, ret. cbn [app fst snd]. rewrite Hz.
  cbn [Z.ltb Z.eqb Z.compare].
  destruct (detach_total e) as [l2 ->].
  destruct (daemon_main_loop (set_running _ true) envs) as [[r0 g0]|]; [|discriminate].
  destruct (loop_end r0); discriminate.
Qed.

(** [start_daemon] always turns the activation command on, so every
    round of the loop starts with it. *)
Lemma save_config_uses_am g p s i pid :
  use_am_command (g_config (save_config g p s i pid)) = true.
Proof. reflexivity. Qed.

Example proc_path_1234 : proc_path 1234 = lit "/proc/1234".
Proof. reflexivity. Qed.

Example proc_path_max : proc_path 2147483647 = lit "/proc/2147483647".
Proof. reflexivity. Qed.

(** C2. With the maximum fixed at 3: from any point of the loop at
    which the failure counter is zero, three cycles in a row in which the
    process is dead and every reactivation attempt fails end the loop,
    at the third and not before; and a cycle in which the prober finds
    the process alive leaves the counter at zero, whatever it was. *)
Theorem gives_up_after_exactly_three_failed_cycles g pre c d1 d2 d3 rest :
  loop_state g pre = Some (Going, 0, c) ->
  dead_and_failing g d1 -> dead_and_failing g d2 -> dead_and_failing g d3 ->
  loop_state g (pre ++ [d1]) = Some (Going, 1, (c + 1)%nat) /\
  loop_state g (pre ++ [d1; d2]) = Some (Going, 2, (c + 2)%nat) /\
  loop_state g (pre ++ d1 :: d2 :: d3 :: rest) = Some (GaveUp, 3, (c + 3)%nat) /\
  (forall n e, probe g e = true -> exists l, cycle g n e = Some ((false, 0), l)).
Proof.
  intros Hpre H1 H2 H3. rewrite !loop_state_monitor in *.
  pose proof (monitor_going_flag _ _ _ _ _ Hpre) as Hrun.
  destruct (monitor_three_failures g d1 d2 d3 rest Hrun H1 H2 H3) as (E1 & E2 & E3).
  rewrite !(monitor_app g pre 0 0 c _ Hpre), E1, E2, E3.
  repeat split. intros n e. apply cycle_alive.
Qed.

(** The forked child that gives up leaves its flag set and ends in
    [_exit(0)]. *)
Lemma child_gives_up_and_exits g p s i e envs x g' l :
  start_daemon g p s i e envs = Some (ChildExited x, g', l) ->
  is_daemon_running g' = true /\ exists l0, l = l0 ++ [Exit 0].
Proof.
  unfold start_daemon. destruct (g_daemon_running g); [discriminate|].
  unfold start_daemon_fork, OS.bind, call, ret. cbn [app fst snd].
  destruct (env_fork e <? 0); [discriminate|].
  destruct (env_fork e =? 0); [|discriminate].
  destruct (detach e) as [[u l2]|]; [|discriminate].
  destruct (daemon_main_loop_total
              (set_running (save_config g p s i (env_getpid e)) true) envs) as (r & -> & _).
  destruct (loop_end r); intros [= <- <- <-]; (split; [reflexivity|]);
    eexists; rewrite !app_comm_cons, !app_assoc; reflexivity.
Qed.

(** The loop writes no global: when it has given up they are as they
    were on entry, the flag among them set. *)
Lemma daemon_main_loop_keeps_globals g envs r g' :
  daemon_main_loop g envs = Some (r, g') -> loop_end r = GaveUp ->
  g' = g /\ g_daemon_running g' = true.
Proof.
  unfold daemon_main_loop. destruct (monitor g 0 envs) as [r0|] eqn:E; [|discriminate].
  intros [= <- <-] Hend. cbn in Hend. split; [reflexivity|].
  eapply monitor_gave_up_flag; eauto.
Qed.

(** A call of [start_daemon] that comes back leaves a state in which the
    interface can be called again. *)
Lemma start_daemon_parent g p s i e :
  callable g -> 0 < env_fork e ->
  exists gp lp,
    start_daemon g p s i e [] = Some (Returned 0, gp, lp) /\
    callable gp /\ is_daemon_running gp = false.
Proof.
  intros Hc Hf. pose proof (callable_not_running g Hc) as Hg.
  destruct (start_daemon_past_guard g p s i e [] Hg) as (r & l & E & Hr & _).
  rewrite (Hr ltac:(lia)) in E.
  replace (env_fork e <? 0) with false in E by (symmetry; apply Z.ltb_ge; lia).
  do 2 eexists. split; [exact E|].
  assert (Hc' : callable (if env_fork e =? 0
                          then set_running (save_config g p s i (env_getpid e)) true
                          else save_config g p s i (env_getpid e)))
    by (eapply callable_start; eauto).
  split; [exact Hc'|]. apply callable_not_running, Hc'.
Qed.

(** C3, as the code has it. The loop that gives up has not written the
    running flag: the monitor process, which set its own copy before
    entering the loop, still has it set when it calls [_exit(0)], which
    is all it does after the loop.  The query is called in the process
    that called [start_daemon]: there it answers [false] before the call,
    after it, and in every state in which the interface can be called,
    whether a loop has given up or not. *)
Theorem give_up_is_not_reported_by_the_flag g p s i e envs g' l :
  callable g ->
  start_daemon g p s i e envs = Some (ChildExited GaveUp, g', l) ->
  g_daemon_running g' = true /\
  (exists l0, l = l0 ++ [Exit 0]) /\
  is_daemon_running g = false /\
  (forall e', 0 < env_fork e' ->
     exists gp lp,
       start_daemon g p s i e' [] = Some (Returned 0, gp, lp) /\
       is_daemon_running gp = false) /\
  (forall gq, callable gq -> is_daemon_running gq = false).
Proof.
  intros Hc E.
  destruct (child_gives_up_and_exits _ _ _ _ _ _ _ _ _ E) as [Hflag Hexit].
  split; [exact Hflag|]. split; [exact Hexit|].
  split; [apply callable_not_running, Hc|]. split; [|apply callable_not_running].
  intros e' Hf. destruct (start_daemon_parent g p s i e' Hc Hf) as (gp & lp & Ep & _ & Hq).
  exists gp, lp. split; assumption.
Qed.


(** C5. A round runs the plain activation command, [am startservice];
    if that fails, the foreground variant, [am start-foreground-service],
    once; if that fails too, the broadcast; and nothing after the first
    success.  It reports success exactly when one of the commands it ran
    did.  The command lines are the texts below, each cut to what its
    buffer holds. *)
Theorem reactivation_round_order c e :
  use_am_command c = true ->
  let pkg := c_str (package_name c) in
  let svc := c_str (service_name c) in
  let plain_cmd :=
    firstn 1023 (lit "am startservice --user 0 -n " ++ pkg ++ lit "/" ++ svc
                 ++ lit " --es start_reason native_daemon 2>&1") in
  let fg_cmd :=
    firstn 1023 (lit "am start-foreground-service --user 0 -n " ++ pkg ++ lit "/" ++ svc
                 ++ lit " --es start_reason native_daemon 2>&1") in
  let bc_cmd :=
    firstn 511 (lit "am broadcast --user 0 -a " ++ pkg ++ lit ".NATIVE_WAKEUP -p " ++ pkg
                ++ lit " 2>&1") in
  let plain := env_system e plain_cmd =? 0 in
  let fg := env_system e fg_cmd =? 0 in
  let bc := env_system e bc_cmd =? 0 in
  reactivate c e =
  Some (plain || fg || bc,
        System plain_cmd ::
        if plain then [] else System fg_cmd :: if fg then [] else [System bc_cmd]).
Proof.
  intros H. cbn zeta. rewrite reactivate_eq, H. cbn zeta.
  pose proof (am_startservice_cmd_eq (package_name c) (service_name c)) as E1.
  pose proof (am_start_foreground_cmd_eq (package_name c) (service_name c)) as E2.
  pose proof (am_broadcast_cmd_eq (package_name c)) as E3.
  unfold am_startservice_text in E1. unfold am_start_foreground_text in E2.
  unfold am_broadcast_text in E3.
  set (c1 := am_startservice_cmd (package_name c) (service_name c)) in *.
  set (c2 := am_start_foreground_cmd (package_name c) (service_name c)) in *.
  set (c3 := am_broadcast_cmd (package_name c)) in *.
  rewrite <- E1, <- E2, <- E3. reflexivity.
Qed.

(** C8, at the failing input. Two calls of [start_daemon] in a row in
    one process, [fork] succeeding both times: both answer 0, and two
    children are forked. *)
Theorem second_start_daemon_forks_again :
  start_daemon_twice initial (lit "com.x") (lit "com.x.Svc") 1000 calm calm
  = Some (0, 0, 2%nat).
Proof. vm_compute. reflexivity. Qed.

(** C10. A call of [start_daemon] stores 3000 as the poll interval
    when its argument is not positive, and the argument itself when it
    is. *)
Theorem start_daemon_stores_interval g p s i e envs :
  callable g ->
  exists r g' l,
    start_daemon g p s i e envs = Some (r, g', l) /\
    (i <= 0 -> check_interval_ms (g_config g') = 3000) /\
    (0 < i -> check_interval_ms (g_config g') = i).
Proof.
  intros Hc. pose proof (callable_not_running g Hc) as Hf.
  destruct (start_daemon_past_guard g p s i e envs Hf) as (r & l & E & _).
  exists r. eexists. exists l. split; [exact E|].
  assert (Hi : forall b : bool, check_interval_ms
                 (g_config (if b then set_running (save_config g p s i (env_getpid e)) true
                            else save_config g p s i (env_getpid e)))
               = if i >? 0 then i else 3000) by (intros []; reflexivity).
  rewrite Hi, Z.gtb_ltb. split; intros H.
  - destruct (Z.ltb_spec 0 i); [lia|reflexivity].
  - destruct (Z.ltb_spec 0 i); [reflexivity|lia].
Qed.

End DaemonTheorems.

(* ================================================================== *)
(** ** The heartbeat channel                                           *)
(* ================================================================== *)

Section ChannelFacts.
Import Socket.

Lemma send_heartbeat_eq fd e :
  0 <= fd ->
  send_heartbeat fd e = Some (negb (env_send e <=? 0), [Send fd HEARTBEAT_MSG]).
Proof.
  intros H. unfold send_heartbeat, OS.bind, call, ret.
  destruct (Z.ltb_spec fd 0); [lia|].
  destruct (env_send e <=? 0); reflexivity.
Qed.

Lemma receive_with_timeout_eq fd buf size t e :
  0 <= fd < FD_SETSIZE -> 0 < size ->
  receive_with_timeout fd (Some buf) size t e =
  let sel := Select fd (Z.quot t 1000) (Z.rem t 1000 * 1000) in
  if env_select e <? 0 then Some (-1, [sel])
  else if env_select e =? 0 then Some (0, [sel])
  else if env_recv e <=? 0 then Some (-1, [sel; Recv fd (size - 1)])
  else Some (env_recv e, [sel; Recv fd (size - 1)]).
Proof.
  intros Hfd Hsz. unfold receive_with_timeout, OS.bind, call, ret.
  destruct (Z.ltb_spec fd 0); [lia|].
  destruct (Z.leb_spec size 0); [lia|]. cbn [orb].
  destruct (Z.leb_spec FD_SETSIZE fd); [lia|]. cbn zeta.
  destruct (env_select e <? 0); [reflexivity|].
  destruct (env_select e =? 0); [reflexivity|].
  destruct (env_recv e <=? 0); reflexivity.
Qed.

(** The sign of what [receive_with_timeout] answers, from the
    environment. *)
Lemma receive_with_timeout_sign fd buf size t e :
  0 <= fd < FD_SETSIZE -> 0 < size ->
  exists r l,
    receive_with_timeout fd (Some buf) size t e = Some (r, l) /\
    (r <? 0) = receive_fails e /\
    (r =? 0) = negb (receive_fails e) && times_out e /\
    count_lost_callbacks l = 0%nat /\ count_connects l = 0%nat /\
    closes fd l = false.
Proof.
  intros Hfd Hsz. rewrite receive_with_timeout_eq by assumption. cbn zeta.
  unfold receive_fails, times_out.
  destruct (Z.ltb_spec (env_select e) 0) as [Hs|Hs].
  - do 2 eexists. split; [reflexivity|]. repeat split.
  - destruct (Z.eqb_spec (env_select e) 0) as [Hz|Hz].
    + do 2 eexists. split; [reflexivity|]. rewrite Hz. repeat split.
    + replace (0 <? env_select e) with true by (symmetry; apply Z.ltb_lt; lia).
      destruct (Z.leb_spec (env_recv e) 0) as [Hr|Hr];
        do 2 eexists; (split; [reflexivity|]); repeat split.
      * cbn. destruct (Z.ltb_spec (env_recv e) 0); [lia|reflexivity].
      * cbn. destruct (Z.eqb_spec (env_recv e) 0); [lia|reflexivity].
Qed.

Lemma peer_closed_receive_fails e : peer_closed e = true -> receive_fails e = true.
Proof.
  unfold peer_closed, receive_fails. intros H.
  apply andb_true_iff in H as [H1 H2]. rewrite H1.
  apply Z.eqb_eq in H2. rewrite H2. apply orb_true_r.
Qed.

Lemma times_out_not_receive_fails e : times_out e = true -> receive_fails e = false.
Proof.
  unfold times_out, receive_fails. intros H. apply Z.eqb_eq in H. rewrite H. reflexivity.
Qed.

Lemma count_lost_callbacks_app l1 l2 :
  count_lost_callbacks (l1 ++ l2)
  = (count_lost_callbacks l1 + count_lost_callbacks l2)%nat.
Proof. unfold count_lost_callbacks. rewrite filter_app, length_app. reflexivity. Qed.

Lemma count_connects_app l1 l2 :
  count_connects (l1 ++ l2) = (count_connects l1 + count_connects l2)%nat.
Proof. unfold count_connects. rewrite filter_app, length_app. reflexivity. Qed.

Lemma notify_lost_eq g e :
  exists l, notify_lost g e = Some (tt, l) /\
            count_lost_callbacks l = callbacks_due g /\ count_connects l = 0%nat.
Proof.
  unfold notify_lost, callbacks_due.
  destruct (g_connection_lost_callback g); eexists; repeat split.
Qed.

(** One round of the client loop: it breaks exactly on a lost round, and
    calls the callback then and only then. *)
Lemma heartbeat_body_spec g interval e :
  0 <= g_client_socket g < FD_SETSIZE ->
  exists l,
    heartbeat_body g interval e = Some (round_lost e, l) /\
    count_lost_callbacks l = (if round_lost e then callbacks_due g else 0%nat) /\
    count_connects l = 0%nat.
Proof.
  intros Hfd. unfold heartbeat_body, round_lost.
  destruct (notify_lost_eq g e) as (ln & En & Cn & Kn).
  destruct (Z.leb_spec (env_send e) 0) as [Hs|Hs]; cbn [orb].
  - eexists. split.
    + eapply bind_Some; [apply send_heartbeat_eq; lia|].
      replace (env_send e <=? 0) with true by (symmetry; apply Z.leb_le; lia).
      cbn [negb]. eapply bind_Some; [exact En|reflexivity].
    + rewrite count_lost_callbacks_app, count_connects_app, app_nil_r, Cn, Kn.
      split; cbn; lia.
  - destruct (receive_with_timeout_sign (g_client_socket g) (repeat NUL 64) 64 interval e)
      as (r & lr & Er & Hneg & _ & Cr & Kr & _); [assumption|lia|].
    destruct (receive_fails e); eexists; split.
    + eapply bind_Some; [apply send_heartbeat_eq; lia|].
      replace (env_send e <=? 0) with false by (symmetry; apply Z.leb_gt; lia).
      cbn [negb]. eapply bind_Some; [exact Er|]. rewrite Hneg.
      eapply bind_Some; [exact En|reflexivity].
    + rewrite !count_lost_callbacks_app, !count_connects_app, Cn, Kn, Cr, Kr.
      split; cbn; lia.
    + eapply bind_Some; [apply send_heartbeat_eq; lia|].
      replace (env_send e <=? 0) with false by (symmetry; apply Z.leb_gt; lia).
      cbn [negb]. eapply bind_Some; [exact Er|]. rewrite Hneg.
      eapply bind_Some; reflexivity.
    + rewrite !count_lost_callbacks_app, !count_connects_app, Cr, Kr.
      split; cbn; lia.
Qed.

(** The client loop over a whole trace. *)
Lemma heartbeat_loop_spec g interval envs :
  0 <= g_client_socket g < FD_SETSIZE ->
  exists l,
    heartbeat_loop g interval envs
      = Some (if existsb round_lost envs then Left else Going, l) /\
    count_lost_callbacks l
      = (if existsb round_lost envs then callbacks_due g else 0%nat) /\
    count_connects l = 0%nat.
Proof.
  intros Hfd. induction envs as [|e envs IH]; cbn [heartbeat_loop existsb].
  - destruct (Z.ltb_spec (g_client_socket g) 0); [lia|]. eexists; repeat split.
  - destruct (Z.ltb_spec (g_client_socket g) 0); [lia|].
    destruct (heartbeat_body_spec g interval e Hfd) as (l1 & E1 & C1 & K1).
    rewrite E1. destruct (round_lost e); cbn [orb].
    + exists l1. repeat split; assumption.
    + destruct IH as (l2 & E2 & C2 & K2).
      assert (Hloop : heartbeat_loop g interval envs
                      = Some (if existsb round_lost envs then Left else Going, l2)).
      { destruct envs; exact E2. }
      rewrite Hloop. exists (l1 ++ l2).
      rewrite count_lost_callbacks_app, count_connects_app, C1, C2, K1, K2.
      repeat split.
Qed.

Lemma connect_socket_server_client_fd g name e fd g1 l :
  connect_socket_server g name e = Some ((fd, g1), l) ->
  0 <= fd -> g_client_socket g1 = fd.
Proof.
  unfold connect_socket_server. destruct name as [name|]; [|intros [= <- _ _]; lia].
  destruct (strlen name =? 0); [intros [= <- _ _]; lia|].
  unfold OS.bind, call at 1.
  destruct (Z.ltb_spec (env_socket e) 0).
  - cbn. intros [= <- _ _]; lia.
  - destruct (lift _ e) as [[path lp]|]; [|discriminate].
    unfold call, ret.
    destruct (env_connect e <? 0); cbn; intros [= <- <- _]; [lia|reflexivity].
Qed.

(** The guard of [start_socket_server_thread], taken: no socket, no
    thread, and the answer is [true]. *)
Lemma start_socket_server_thread_flag_set g name e :
  g_socket_running g = true ->
  start_socket_server_thread g name e = Some ((true, g), []).
Proof. intros H. unfold start_socket_server_thread. rewrite H. reflexivity. Qed.

(** A start that answers [true] leaves the flag set, in the process that
    will make the second call. *)
Lemma start_socket_server_thread_sets_flag g name e g' l :
  start_socket_server_thread g name e = Some ((true, g'), l) ->
  g_socket_running g' = true.
Proof.
  unfold start_socket_server_thread.
  destruct (g_socket_running g) eqn:Hg; [intros [= <- _]; exact Hg|].
  unfold OS.bind.
  destruct (create_socket_server g name e) as [[[fd g1] l1]|]; [|discriminate].
  cbn [fst snd]. destruct (fd <? 0); [discriminate|].
  unfold call, ret.
  destruct (negb (env_pthread_create e =? 0)); cbn; [discriminate|].
  intros [= <- _]. reflexivity.
Qed.

(** Started twice, the server is created once. *)
Lemma start_socket_server_thread_twice g name e1 e2 g' l :
  start_socket_server_thread g name e1 = Some ((true, g'), l) ->
  start_socket_server_thread g' name e2 = Some ((true, g'), []).
Proof.
  intros H. apply start_socket_server_thread_flag_set.
  eapply start_socket_server_thread_sets_flag; eauto.
Qed.

End ChannelFacts.

Section ChannelTheorems.
Import Socket.

Lemma closes_app fd l1 l2 : closes fd (l1 ++ l2) = closes fd l1 || closes fd l2.
Proof. apply existsb_app. Qed.

Lemma closes_close fd : closes fd [Close fd] = true.
Proof. unfold closes. cbn. rewrite Z.eqb_refl. reflexivity. Qed.

(** C1, at the failing input. For the name [wd_sock_1], with every call
    succeeding, the server binds ten NUL bytes and the client connects
    to a NUL byte followed by the name: two different addresses. *)
Theorem wd_sock_1_bound_and_connected_addresses :
  option_map (fun r => bound_address (snd r))
             (create_socket_server initial (Some wd_sock_1) calm)
    = Some (Some (repeat NUL 10)) /\
  option_map (fun r => connected_address (snd r))
             (connect_socket_server initial (Some wd_sock_1) calm)
    = Some (Some (NUL :: wd_sock_1)) /\
  repeat NUL 10 <> NUL :: wd_sock_1.
Proof. repeat split; try (vm_compute; reflexivity). discriminate. Qed.

(** C6, as the code has it. While the server runs, a receive that
    fails, a zero-length read among them, makes the thread close the
    peer and go back to accepting; a receive that times out leaves it
    on the same peer, the socket open.  Neither ends the thread, and
    back at the accept loop the thread goes on for as long as the flag
    is set and the listening socket is open.  The descriptors are ones
    an [fd_set] has room for. *)
Theorem server_receive_loop_on_loss g client_fd e :
  g_socket_running g = true -> 0 <= client_fd < FD_SETSIZE ->
  exists pc l,
    server_step g (AtReceive client_fd) e = Some (pc, l) /\
    pc <> ThreadReturned /\
    (receive_fails e = true -> pc = AtAccept /\ closes client_fd l = true) /\
    (peer_closed e = true -> pc = AtAccept /\ closes client_fd l = true) /\
    (times_out e = true -> pc = AtReceive client_fd /\ closes client_fd l = false) /\
    (0 <= g_server_socket g < FD_SETSIZE ->
     forall e', exists pc' l',
       server_step g AtAccept e' = Some (pc', l') /\ pc' <> ThreadReturned).
Proof.
  intros Hrun Hfd.
  destruct (receive_with_timeout_sign client_fd (repeat NUL 64) 64 5000 e)
    as (r & lr & Er & Hneg & Hzero & _ & _ & Hcl); [assumption|lia|].
  assert (Haccept : 0 <= g_server_socket g < FD_SETSIZE ->
                    forall e', exists pc' l',
                      server_step g AtAccept e' = Some (pc', l') /\ pc' <> ThreadReturned).
  { intros Hsrv e'. cbn [server_step]. rewrite Hrun.
    replace (0 <=? g_server_socket g) with true by (symmetry; apply Z.leb_le; lia).
    replace (FD_SETSIZE <=? g_server_socket g) with false
      by (symmetry; apply Z.leb_gt; lia).
    cbn [andb negb]. unfold OS.bind, call, ret.
    destruct (env_select e' <=? 0); [|destruct (env_accept e' <? 0)];
      do 2 eexists; (split; [reflexivity|discriminate]). }
  enough (Hmain : exists pc l,
             server_step g (AtReceive client_fd) e = Some (pc, l) /\
             pc <> ThreadReturned /\
             (receive_fails e = true -> pc = AtAccept /\ closes client_fd l = true) /\
             (times_out e = true ->
              pc = AtReceive client_fd /\ closes client_fd l = false)).
  { destruct Hmain as (pc & l & E & Hn & Hf & Ht). exists pc, l.
    repeat (split; [assumption|]). split; [|split; assumption].
    intros Hp. apply Hf, peer_closed_receive_fails, Hp. }
  cbn [server_step]. rewrite Hrun. cbn [negb]. unfold stack_buffer.
  destruct (r <? 0) eqn:Hr.
  - exists AtAccept, (lr ++ [Close client_fd] ++ []). split.
    { eapply bind_Some; [exact Er|]. rewrite Hr.
      eapply bind_Some; reflexivity. }
    assert (Hc : closes client_fd (lr ++ [Close client_fd] ++ []) = true).
    { rewrite closes_app, Hcl. cbn [orb app]. apply closes_close. }
    split; [discriminate|]. split; [auto|].
    intros Ht. rewrite (times_out_not_receive_fails e Ht) in Hneg. discriminate.
  - destruct (r >? 0) eqn:Hp.
    + exists (AtReceive client_fd), (lr ++ [Send client_fd HEARTBEAT_ACK] ++ []). split.
      { eapply bind_Some; [exact Er|]. rewrite Hr, Hp.
        eapply bind_Some; reflexivity. }
      split; [discriminate|]. split; [intros Hf; rewrite Hf in Hneg; discriminate|].
      intros _. split; [reflexivity|]. rewrite closes_app, Hcl. reflexivity.
    + exists (AtReceive client_fd), (lr ++ []). split.
      { eapply bind_Some; [exact Er|]. rewrite Hr, Hp. reflexivity. }
      split; [discriminate|]. split; [intros Hf; rewrite Hf in Hneg; discriminate|].
      intros _. split; [reflexivity|]. rewrite closes_app, Hcl. reflexivity.
Qed.

(** C7, as the code has it. After a successful connect, the client
    loop ends at the first round whose send fails or whose receive
    fails (an orderly close among them); the callback, when one is
    registered, is then called once, and never otherwise; the loop makes
    no socket or connect call.  A round whose receive times out is not
    such a round: the loop sleeps and goes on to the next.  The
    descriptor is one an [fd_set] has room for. *)
Theorem heartbeat_client_loss_callback g name interval e envs fd g1 l1 :
  connect_socket_server g name e = Some ((fd, g1), l1) -> 0 <= fd < FD_SETSIZE ->
  exists l2,
    start_heartbeat_client g name interval e envs
      = Some (if existsb round_lost envs then Some true else None, g1, l1 ++ l2) /\
    count_lost_callbacks l2
      = (if existsb round_lost envs then callbacks_due g1 else 0%nat) /\
    count_connects l2 = 0%nat /\
    (forall e', env_send e' <= 0 -> round_lost e' = true) /\
    (forall e', peer_closed e' = true -> round_lost e' = true) /\
    (forall e', 0 < env_send e' -> times_out e' = true ->
                round_lost e' = false /\
                heartbeat_body g1 interval e'
                = Some (false, [Send fd (lit "HB");
                                Select fd (Z.quot interval 1000) (Z.rem interval 1000 * 1000);
                                Usleep (usleep_arg interval)])).
Proof.
  intros Hc Hfd.
  pose proof (connect_socket_server_client_fd _ _ _ _ _ _ Hc (proj1 Hfd)) as Hg1.
  destruct (heartbeat_loop_spec g1 interval envs) as (l2 & E2 & C2 & K2); [lia|].
  exists l2. split; [|split; [exact C2|split; [exact K2|]]].
  - unfold start_heartbeat_client. rewrite Hc.
    destruct (Z.ltb_spec fd 0); [lia|]. rewrite E2.
    destruct (existsb round_lost envs); reflexivity.
  - split; [|split].
    + intros e' H. unfold round_lost.
      replace (env_send e' <=? 0) with true by (symmetry; apply Z.leb_le; lia). reflexivity.
    + intros e' H. unfold round_lost. rewrite (peer_closed_receive_fails e' H).
      apply orb_true_r.
    + intros e' Hs Ht.
      assert (Hl : round_lost e' = false).
      { unfold round_lost. rewrite (times_out_not_receive_fails e' Ht).
        replace (env_send e' <=? 0) with false by (symmetry; apply Z.leb_gt; lia).
        reflexivity. }
      split; [exact Hl|].
      unfold heartbeat_body, stack_buffer. rewrite Hg1.
      eapply (bind_Some _ _ _ _ [_]); [apply send_heartbeat_eq; lia|].
      replace (env_send e' <=? 0) with false by (symmetry; apply Z.leb_gt; lia).
      cbn [negb].
      eapply (bind_Some _ _ _ _ [_]).
      { rewrite receive_with_timeout_eq by lia. cbn zeta.
        unfold times_out in Ht. apply Z.eqb_eq in Ht. rewrite Ht. reflexivity. }
      reflexivity.
Qed.

(** C9. [start_heartbeat_client] answers [false] exactly when the
    connect fails.  When the connect succeeds it answers [true] as soon
    as the loop ends, which is at the first round whose send or receive
    fails; until then it is still in the loop.  The descriptor that
    [connect_socket_server] answers is one an [fd_set] has room for. *)
Theorem start_heartbeat_client_result g name interval e envs fd g1 l1 :
  connect_socket_server g name e = Some ((fd, g1), l1) -> fd < FD_SETSIZE ->
  exists res l,
    start_heartbeat_client g name interval e envs = Some (res, g1, l) /\
    (res = Some false <-> fd < 0) /\
    (0 <= fd -> res = if existsb round_lost envs then Some true else None).
Proof.
  intros Hc Hfit. unfold start_heartbeat_client. rewrite Hc.
  destruct (Z.ltb_spec fd 0) as [Hneg|Hpos].
  - do 2 eexists. split; [reflexivity|]. split; [tauto|lia].
  - pose proof (connect_socket_server_client_fd _ _ _ _ _ _ Hc Hpos) as Hg1.
    destruct (heartbeat_loop_spec g1 interval envs) as (l2 & E2 & _); [lia|].
    rewrite E2. destruct (existsb round_lost envs); do 2 eexists;
      (split; [reflexivity|]); (split; [|reflexivity]);
      (split; [discriminate|lia]).
Qed.

End ChannelTheorems.

(* ================================================================== *)
(** ** Where the code departs from the stated behaviour                *)
(* ================================================================== *)

Section Departures.

(** The loop that gives up does not leave the running flag false.  A
    first call of [start_daemon], in the process that [fork] makes the
    monitor: three failed cycles, the loop gives up, and the flag of that
    process is set when it exits. *)
Lemma give_up_does_not_clear_running_flag :
  ~ (forall g p s i e envs g' l,
        callable g ->
        Daemon.start_daemon g p s i e envs
          = Some (Daemon.ChildExited Daemon.GaveUp, g', l) ->
        Daemon.g_daemon_running g' = false).
Proof.
  intros H.
  pose (x := match Daemon.start_daemon Daemon.initial (lit "com.x") (lit "com.x.Svc") 1000
                     (with_fork calm 0) [calm; calm; calm] with
             | Some v => v
             | None => (Daemon.ChildGoing, Daemon.initial, [])
             end).
  assert (E : Daemon.start_daemon Daemon.initial (lit "com.x") (lit "com.x.Svc") 1000
                (with_fork calm 0) [calm; calm; calm]
              = Some (Daemon.ChildExited Daemon.GaveUp, snd (fst x), snd x))
    by (vm_compute; reflexivity).
  specialize (H _ _ _ _ _ _ _ _ callable_initial E). vm_compute in H. discriminate.
Qed.

(** A receive that times out does not make the server drop the peer:
    the thread stays on descriptor 4 and closes nothing. *)
Lemma server_keeps_peer_on_timeout :
  ~ (forall g client_fd e pc l,
        Socket.g_socket_running g = true -> 0 <= client_fd ->
        times_out e = true \/ peer_closed e = true ->
        Socket.server_step g (Socket.AtReceive client_fd) e = Some (pc, l) ->
        pc = Socket.AtAccept /\ closes client_fd l = true).
Proof.
  intros H.
  destruct (H serving 4 (with_select calm 0) (Socket.AtReceive 4) [Select 4 5 0])
    as [Hpc _]; try reflexivity; try lia.
  - left; reflexivity.
  - discriminate.
Qed.

(** A round whose acknowledgement times out does not end the client
    loop, and the callback is not called. *)
Lemma heartbeat_client_ignores_timeout :
  ~ (forall g interval envs r l,
        0 <= Socket.g_client_socket g ->
        Socket.g_connection_lost_callback g <> None ->
        existsb (fun e => (env_send e <=? 0) || times_out e || peer_closed e) envs = true ->
        Socket.heartbeat_loop g interval envs = Some (r, l) ->
        r = Socket.Left /\ count_lost_callbacks l = 1%nat).
Proof.
  intros H.
  destruct (H connected 1000 [with_select calm 0] Socket.Going
              [Send 3 Socket.HEARTBEAT_MSG; Select 3 1 0; Usleep 1000000])
    as [Hr _]; try reflexivity.
  - cbn; lia.
  - discriminate.
  - discriminate.
Qed.

End Departures.

(* ================================================================== *)
(** ** The theorems at concrete inputs                                 *)
(* ================================================================== *)

Section Instances.

Lemma gives_up_after_exactly_three_failed_cycles_at_watching :
  loop_state watching [breathing] = Some (Daemon.Going, 0, 1%nat) /\
  loop_state watching ([breathing] ++ [calm; calm; calm])
    = Some (Daemon.GaveUp, 3, 4%nat).
Proof.
  assert (Hd : dead_and_failing watching calm).
  { split; [vm_compute; reflexivity|]. intros cmd. cbn. lia. }
  split; [vm_compute; reflexivity|].
  apply (gives_up_after_exactly_three_failed_cycles
           watching [breathing] 1%nat calm calm calm []);
    try exact Hd.
  vm_compute; reflexivity.
Defined.

Lemma give_up_is_not_reported_by_the_flag_at_initial :
  exists g' l,
    Daemon.start_daemon Daemon.initial (lit "com.x") (lit "com.x.Svc") 1000
                        (with_fork calm 0) [calm; calm; calm]
      = Some (Daemon.ChildExited Daemon.GaveUp, g', l) /\
    Daemon.g_daemon_running g' = true /\
    Daemon.is_daemon_running Daemon.initial = false /\
    exists gp lp,
      Daemon.start_daemon Daemon.initial (lit "com.x") (lit "com.x.Svc") 1000 calm []
        = Some (Daemon.Returned 0, gp, lp) /\
      Daemon.is_daemon_running gp = false.
Proof.
  pose (x := match Daemon.start_daemon Daemon.initial (lit "com.x") (lit "com.x.Svc") 1000
                     (with_fork calm 0) [calm; calm; calm] with
             | Some v => v
             | None => (Daemon.ChildGoing, Daemon.initial, [])
             end).
  assert (E : Daemon.start_daemon Daemon.initial (lit "com.x") (lit "com.x.Svc") 1000
                (with_fork calm 0) [calm; calm; calm]
              = Some (Daemon.ChildExited Daemon.GaveUp, snd (fst x), snd x))
    by (vm_compute; reflexivity).
  destruct (give_up_is_not_reported_by_the_flag Daemon.initial (lit "com.x") (lit "com.x.Svc")
              1000 (with_fork calm 0) [calm; calm; calm] (snd (fst x)) (snd x)
              callable_initial E) as (Hflag & _ & Hq & Hparent & _).
  exists (snd (fst x)), (snd x). split; [exact E|]. split; [exact Hflag|].
  split; [exact Hq|]. apply (Hparent calm). reflexivity.
Defined.


Lemma reactivation_round_order_at_watching :
  Daemon.reactivate (Daemon.g_config watching) foreground_only
    = Some (true,
            [System (lit "am startservice --user 0 -n com.x/com.x.Svc --es start_reason native_daemon 2>&1");
             System (lit "am start-foreground-service --user 0 -n com.x/com.x.Svc --es start_reason native_daemon 2>&1")]) /\
  Daemon.reactivate (Daemon.g_config watching) calm
    = Some (false,
            [System (lit "am startservice --user 0 -n com.x/com.x.Svc --es start_reason native_daemon 2>&1");
             System (lit "am start-foreground-service --user 0 -n com.x/com.x.Svc --es start_reason native_daemon 2>&1");
             System (lit "am broadcast --user 0 -a com.x.NATIVE_WAKEUP -p com.x 2>&1")]).
Proof.
  split.
  - rewrite (reactivation_round_order (Daemon.g_config watching) foreground_only eq_refl).
    vm_compute. reflexivity.
  - rewrite (reactivation_round_order (Daemon.g_config watching) calm eq_refl).
    vm_compute. reflexivity.
Defined.

Lemma start_daemon_stores_interval_at_initial :
  callable Daemon.initial /\
  exists r g' l,
    Daemon.start_daemon Daemon.initial (lit "com.x") (lit "com.x.Svc") 0 calm []
      = Some (r, g', l) /\
    Daemon.check_interval_ms (Daemon.g_config g') = 3000.
Proof.
  split; [apply callable_initial|].
  destruct (start_daemon_stores_interval Daemon.initial (lit "com.x") (lit "com.x.Svc")
              0 calm [] callable_initial) as (r & g' & l & E & Hle & _).
  exists r, g', l. split; [exact E|]. apply Hle. lia.
Defined.

Lemma server_receive_loop_on_loss_at_serving :
  Socket.g_socket_running serving = true /\
  exists pc l,
    Socket.server_step serving (Socket.AtReceive 4) (with_recv calm 0) = Some (pc, l) /\
    pc = Socket.AtAccept /\ closes 4 l = true.
Proof.
  split; [reflexivity|].
  destruct (server_receive_loop_on_loss serving 4 (with_recv calm 0))
    as (pc & l & E & _ & _ & Hclosed & _); [reflexivity|unfold FD_SETSIZE; lia|].
  exists pc, l. split; [exact E|]. apply Hclosed. reflexivity.
Defined.

Lemma heartbeat_client_loss_callback_at_wd_sock_1 :
  exists res g1 l,
    Socket.start_heartbeat_client connected (Some wd_sock_1) 1000 calm
                                  [calm; with_recv calm 0]
      = Some (res, g1, l) /\
    res = Some true.
Proof.
  pose (x := match Socket.connect_socket_server connected (Some wd_sock_1) calm with
             | Some v => v
             | None => ((-1, connected), [])
             end).
  destruct (heartbeat_client_loss_callback connected (Some wd_sock_1) 1000 calm
              [calm; with_recv calm 0] (fst (fst x)) (snd (fst x)) (snd x))
    as (l2 & E & _); [vm_compute; reflexivity|unfold FD_SETSIZE; cbn; lia|].
  do 3 eexists. split; [exact E|]. reflexivity.
Defined.

Lemma start_heartbeat_client_result_at_wd_sock_1 :
  (exists g1 l,
     Socket.start_heartbeat_client Socket.initial (Some wd_sock_1) 1000 refusing [calm]
       = Some (Some false, g1, l)) /\
  (exists g1 l,
     Socket.start_heartbeat_client Socket.initial (Some wd_sock_1) 1000 calm
                                   [calm; with_recv calm 0; calm]
       = Some (Some true, g1, l)) /\
  (exists g1 l,
     Socket.start_heartbeat_client Socket.initial (Some wd_sock_1) 1000 calm
                                   [calm; with_send calm (-1)]
       = Some (Some true, g1, l)).
Proof.
  pose (x := match Socket.connect_socket_server Socket.initial (Some wd_sock_1) refusing with
             | Some v => v
             | None => ((0, Socket.initial), [])
             end).
  pose (y := match Socket.connect_socket_server Socket.initial (Some wd_sock_1) calm with
             | Some v => v
             | None => ((-1, Socket.initial), [])
             end).
  split; [|split].
  - destruct (start_heartbeat_client_result Socket.initial (Some wd_sock_1) 1000
                refusing [calm] (fst (fst x)) (snd (fst x)) (snd x))
      as (res & l & E & Hfalse & _);
      [vm_compute; reflexivity|vm_compute; reflexivity|].
    exists (snd (fst x)), l. rewrite E.
    rewrite (proj2 Hfalse); [reflexivity|]. vm_compute. reflexivity.
  - destruct (start_heartbeat_client_result Socket.initial (Some wd_sock_1) 1000
                calm [calm; with_recv calm 0; calm] (fst (fst y)) (snd (fst y)) (snd y))
      as (res & l & E & _ & Htrue);
      [vm_compute; reflexivity|vm_compute; reflexivity|].
    exists (snd (fst y)), l. rewrite E.
    rewrite Htrue; [reflexivity|]. vm_compute. discriminate.
  - destruct (start_heartbeat_client_result Socket.initial (Some wd_sock_1) 1000
                calm [calm; with_send calm (-1)] (fst (fst y)) (snd (fst y)) (snd y))
      as (res & l & E & _ & Htrue);
      [vm_compute; reflexivity|vm_compute; reflexivity|].
    exists (snd (fst y)), l. rewrite E.
    rewrite Htrue; [reflexivity|]. vm_compute. discriminate.
Defined.

End Instances.

(* ================================================================== *)
(** ** More on the channel                                             *)
(* ================================================================== *)

Section ChannelMore.
Import Socket.

(** [create_socket_server] on a name it accepts, call by call. *)
Lemma create_socket_server_eq g name e :
  path_blank g -> 0 < strlen name <= 107 ->
  create_socket_server g (Some name) e =
  let fd := env_socket e in
  let g1 := set_server_socket (set_socket_path g (repeat NUL 256)) fd in
  let bind := Bind fd server_sockaddr (sockaddr_len name) in
  if fd <? 0 then Some ((-1, g1), [SocketCall])
  else if env_bind e <? 0
       then Some ((-1, set_server_socket g1 (-1)), [SocketCall; bind; Close fd])
  else if env_listen e <? 0
       then Some ((-1, set_server_socket g1 (-1)),
                  [SocketCall; bind; Listen fd 5; Close fd])
  else Some ((fd, g1), [SocketCall; bind; Listen fd 5]).
Proof.
  intros Hp [Hlo Hhi]. unfold create_socket_server.
  destruct (Z.eqb_spec (strlen name) 0) as [E|_]; [lia|].
  rewrite snprintf_socket_path, Hp.
  change (NUL :: skipn 1 (repeat NUL 256)) with (repeat NUL 256).
  unfold OS.bind, call at 1. cbn zeta.
  destruct (env_socket e <? 0); [reflexivity|].
  cbn [g_socket_path set_server_socket set_socket_path].
  unfold memcpy. rewrite !repeat_length.
  replace (Z.to_nat (strlen name + 1) <=? 256)%nat with true
    by (symmetry; apply Nat.leb_le; lia).
  replace (Z.to_nat (strlen name + 1) <=? SUN_PATH_SIZE)%nat with true
    by (symmetry; apply Nat.leb_le; unfold SUN_PATH_SIZE; lia).
  cbn [andb lift ret].
  assert (Hpath : overwrite 0 (firstn (Z.to_nat (strlen name + 1)) (repeat NUL 256))
                    (repeat NUL SUN_PATH_SIZE) = repeat NUL SUN_PATH_SIZE).
  { unfold overwrite.
    rewrite (firstn_repeat_le NUL (Z.to_nat (strlen name + 1)) 256) by lia.
    cbn [firstn app].
    rewrite repeat_length, skipn_repeat', Nat.add_0_l, <- repeat_app.
    f_equal. unfold SUN_PATH_SIZE. lia. }
  rewrite Hpath. fold server_sockaddr. fold (sockaddr_len name).
  unfold call.
  destruct (env_bind e <? 0); [reflexivity|].
  destruct (env_listen e <? 0); reflexivity.
Qed.

(** [connect_socket_server] on a name it accepts, call by call. *)
Lemma connect_socket_server_eq g name e :
  0 < strlen name <= 106 ->
  connect_socket_server g (Some name) e =
  let fd := env_socket e in
  let g1 := set_client_socket g fd in
  let conn := Connect fd (client_sockaddr name) (sockaddr_len name) in
  if fd <? 0 then Some ((-1, g1), [SocketCall])
  else if env_connect e <? 0
       then Some ((-1, set_client_socket g1 (-1)), [SocketCall; conn; Close fd])
  else Some ((fd, g1), [SocketCall; conn]).
Proof.
  intros [Hlo Hhi]. unfold connect_socket_server.
  destruct (Z.eqb_spec (strlen name) 0) as [E|_]; [lia|].
  unfold OS.bind, call at 1. cbn zeta.
  destruct (env_socket e <? 0); [reflexivity|].
  unfold strcpy_at. rewrite repeat_length, length_app. cbn [List.length].
  replace (1 + (List.length (c_str name) + 1) <=? SUN_PATH_SIZE)%nat with true
    by (symmetry; apply Nat.leb_le; unfold SUN_PATH_SIZE, strlen in *; lia).
  cbn [lift ret]. fold (client_sockaddr name). fold (sockaddr_len name).
  unfold call.
  destruct (env_connect e <? 0); reflexivity.
Qed.

Lemma closes_cons_other fd c l :
  is_close c = false -> closes fd (c :: l) = closes fd l.
Proof. destruct c; cbn; try reflexivity; discriminate. Qed.

Lemma closes_cons_close fd l : closes fd (Close fd :: l) = true.
Proof. unfold closes. cbn. rewrite Z.eqb_refl. reflexivity. Qed.

(** X1. A null or empty socket name is turned away by every entry point
    before any call is made and with the globals untouched. *)
Theorem empty_socket_name_is_rejected g name e :
  name = None \/ (exists n, name = Some n /\ c_str n = []) ->
  create_socket_server g name e = Some ((-1, g), []) /\
  connect_socket_server g name e = Some ((-1, g), []) /\
  (g_socket_running g = false ->
   start_socket_server_thread g name e = Some ((false, g), [])) /\
  (forall interval envs,
      start_heartbeat_client g name interval e envs = Some (Some false, g, [])).
Proof.
  intros H.
  assert (Hc : create_socket_server g name e = Some ((-1, g), [])).
  { destruct H as [->|(n & -> & Hn)]; [reflexivity|].
    unfold create_socket_server, strlen. rewrite Hn. reflexivity. }
  assert (Hk : connect_socket_server g name e = Some ((-1, g), [])).
  { destruct H as [->|(n & -> & Hn)]; [reflexivity|].
    unfold connect_socket_server, strlen. rewrite Hn. reflexivity. }
  repeat split; try assumption.
  - intros Hr. unfold start_socket_server_thread, OS.bind. rewrite Hr, Hc. reflexivity.
  - intros interval envs. unfold start_heartbeat_client. rewrite Hk. reflexivity.
Qed.

(** X2. [create_socket_server] answers the new descriptor exactly when
    [socket], [bind] and [listen] all succeed, and then the descriptor is
    stored, open and listening with a backlog of 5.  Otherwise it
    answers -1, the stored descriptor is negative, and a socket that had
    been opened has been closed. *)
Theorem create_socket_server_outcome g name e :
  path_blank g -> 0 < strlen name <= 107 ->
  exists r g' l,
    create_socket_server g (Some name) e = Some ((r, g'), l) /\
    (0 <= r <-> 0 <= env_socket e /\ 0 <= env_bind e /\ 0 <= env_listen e) /\
    (0 <= r -> r = env_socket e /\ g_server_socket g' = r /\
               closes r l = false /\ In (Listen r 5) l) /\
    (r < 0 -> r = -1 /\ g_server_socket g' < 0 /\
              (0 <= env_socket e -> closes (env_socket e) l = true)).
Proof.
  intros Hp Hn. rewrite (create_socket_server_eq g name e Hp Hn). cbn zeta.
  destruct (Z.ltb_spec (env_socket e) 0) as [Hs|Hs].
  { do 3 eexists. split; [reflexivity|]. cbn. repeat split; try lia. }
  destruct (Z.ltb_spec (env_bind e) 0) as [Hb|Hb].
  { do 3 eexists. split; [reflexivity|]. cbn [g_server_socket set_server_socket].
    repeat split; try lia. intros _.
    rewrite !closes_cons_other by reflexivity. apply closes_cons_close. }
  destruct (Z.ltb_spec (env_listen e) 0) as [Hl|Hl].
  { do 3 eexists. split; [reflexivity|]. cbn [g_server_socket set_server_socket].
    repeat split; try lia. intros _.
    rewrite !closes_cons_other by reflexivity. apply closes_cons_close. }
  do 3 eexists. split; [reflexivity|]. cbn [g_server_socket set_server_socket].
  repeat split; try lia; try reflexivity. cbn; auto.
Qed.

(** X3. [connect_socket_server] answers the new descriptor exactly when
    [socket] and [connect] both succeed, and then the descriptor is
    stored and open.  Otherwise it answers -1, the stored descriptor is
    negative, and a socket that had been opened has been closed. *)
Theorem connect_socket_server_outcome g name e :
  0 < strlen name <= 106 ->
  exists r g' l,
    connect_socket_server g (Some name) e = Some ((r, g'), l) /\
    (0 <= r <-> 0 <= env_socket e /\ 0 <= env_connect e) /\
    (0 <= r -> r = env_socket e /\ g_client_socket g' = r /\ closes r l = false) /\
    (r < 0 -> r = -1 /\ g_client_socket g' < 0 /\
              (0 <= env_socket e -> closes (env_socket e) l = true)) /\
    g_server_socket g' = g_server_socket g /\
    g_socket_running g' = g_socket_running g.
Proof.
  intros Hn. rewrite (connect_socket_server_eq g name e Hn). cbn zeta.
  destruct (Z.ltb_spec (env_socket e) 0) as [Hs|Hs].
  { do 3 eexists. split; [reflexivity|]. cbn. repeat split; try lia. }
  destruct (Z.ltb_spec (env_connect e) 0) as [Hb|Hb].
  { do 3 eexists. split; [reflexivity|]. cbn [g_client_socket set_client_socket].
    repeat split; try lia. intros _.
    rewrite !closes_cons_other by reflexivity. apply closes_cons_close. }
  do 3 eexists. split; [reflexivity|]. cbn [g_client_socket set_client_socket].
  repeat split; try lia; reflexivity.
Qed.

(** [start_socket_server_thread] past its guard, call by call. *)
Lemma start_socket_server_thread_eq g name e :
  g_socket_running g = false -> path_blank g -> 0 < strlen name <= 107 ->
  start_socket_server_thread g (Some name) e =
  let fd := env_socket e in
  let g1 := set_server_socket (set_socket_path g (repeat NUL 256)) fd in
  let bind := Bind fd server_sockaddr (sockaddr_len name) in
  if fd <? 0 then Some ((false, g1), [SocketCall])
  else if env_bind e <? 0
       then Some ((false, set_server_socket g1 (-1)), [SocketCall; bind; Close fd])
  else if env_listen e <? 0
       then Some ((false, set_server_socket g1 (-1)),
                  [SocketCall; bind; Listen fd 5; Close fd])
  else if env_pthread_create e =? 0
       then Some ((true, set_socket_running g1 true),
                  [SocketCall; bind; Listen fd 5; PthreadCreate])
  else Some ((false, set_server_socket
                       (set_socket_running (set_socket_running g1 true) false) (-1)),
             [SocketCall; bind; Listen fd 5; PthreadCreate; Close fd]).
Proof.
  intros Hr Hp Hn. unfold start_socket_server_thread. rewrite Hr.
  unfold OS.bind at 1. rewrite (create_socket_server_eq g name e Hp Hn). cbn zeta.
  destruct (Z.ltb_spec (env_socket e) 0) as [Hs|Hs]; [reflexivity|].
  destruct (env_bind e <? 0); [reflexivity|].
  destruct (env_listen e <? 0); [reflexivity|].
  cbn [fst snd]. destruct (Z.ltb_spec (env_socket e) 0); [lia|].
  unfold OS.bind, call, ret.
  destruct (env_pthread_create e =? 0); reflexivity.
Qed.

(** X4. Past its guard, [start_socket_server_thread] answers [true]
    exactly when [socket], [bind], [listen] and [pthread_create] all
    succeed; the flag is then set, the listening descriptor stored and
    open, and one thread created.  When it answers [false] the flag is
    clear, the stored descriptor negative, and a socket that had been
    opened is closed again.  The client descriptor is not touched. *)
Theorem start_socket_server_thread_outcome g name e :
  g_socket_running g = false -> path_blank g -> 0 < strlen name <= 107 ->
  exists b g' l,
    start_socket_server_thread g (Some name) e = Some ((b, g'), l) /\
    (b = true <-> 0 <= env_socket e /\ 0 <= env_bind e /\ 0 <= env_listen e /\
                  env_pthread_create e = 0) /\
    (b = true -> g_socket_running g' = true /\ g_server_socket g' = env_socket e /\
                 closes (env_socket e) l = false /\
                 count_calls is_thread_create l = 1%nat) /\
    (b = false -> g_socket_running g' = false /\ g_server_socket g' < 0 /\
                  (0 <= env_socket e -> closes (env_socket e) l = true)) /\
    g_client_socket g' = g_client_socket g.
Proof.
  intros Hr Hp Hn. rewrite (start_socket_server_thread_eq g name e Hr Hp Hn). cbn zeta.
  destruct (Z.ltb_spec (env_socket e) 0) as [Hs|Hs].
  { do 3 eexists. split; [reflexivity|]. cbn. rewrite Hr.
    repeat split; try lia; try discriminate. }
  destruct (Z.ltb_spec (env_bind e) 0) as [Hb|Hb].
  { do 3 eexists. split; [reflexivity|].
    cbn [g_server_socket g_client_socket g_socket_running
         set_server_socket set_socket_path].
    rewrite Hr. repeat split; try lia; try discriminate. intros _.
    rewrite !closes_cons_other by reflexivity. apply closes_cons_close. }
  destruct (Z.ltb_spec (env_listen e) 0) as [Hl|Hl].
  { do 3 eexists. split; [reflexivity|].
    cbn [g_server_socket g_client_socket g_socket_running
         set_server_socket set_socket_path].
    rewrite Hr. repeat split; try lia; try discriminate. intros _.
    rewrite !closes_cons_other by reflexivity. apply closes_cons_close. }
  destruct (Z.eqb_spec (env_pthread_create e) 0) as [Ht|Ht].
  { do 3 eexists. split; [reflexivity|].
    cbn [g_server_socket g_client_socket g_socket_running
         set_server_socket set_socket_path set_socket_running].
    repeat split; try lia; try discriminate; try reflexivity. }
  do 3 eexists. split; [reflexivity|].
  cbn [g_server_socket g_client_socket g_socket_running
       set_server_socket set_socket_path set_socket_running].
  repeat split; try lia; try discriminate. intros _.
  rewrite !closes_cons_other by reflexivity. apply closes_cons_close.
Qed.

(** [stop_socket_server], call by call. *)
Lemma stop_socket_server_eq g e :
  stop_socket_server g e =
  let g0 := set_socket_running g false in
  let g1 := if 0 <=? g_server_socket g then set_server_socket g0 (-1) else g0 in
  let g2 := if 0 <=? g_client_socket g then set_client_socket g1 (-1) else g1 in
  Some (g2,
        (if 0 <=? g_server_socket g then [Close (g_server_socket g)] else []) ++
        (if 0 <=? g_client_socket g then [Close (g_client_socket g)] else []) ++
        [PthreadJoin]).
Proof.
  unfold stop_socket_server, OS.bind, call, ret.
  cbn [g_server_socket g_client_socket set_socket_running]. cbn zeta.
  destruct (0 <=? g_server_socket g); cbn [g_client_socket set_server_socket set_socket_running];
    destruct (0 <=? g_client_socket g); reflexivity.
Qed.

(** X5. [stop_socket_server] clears the flag, leaves both stored
    descriptors negative, closes the descriptors that were open and no
    other, and joins the thread whether or not one was ever started.  A
    second stop closes nothing and joins again. *)
Theorem stop_socket_server_outcome g e e' :
  exists g' l,
    stop_socket_server g e = Some (g', l) /\
    g_socket_running g' = false /\
    g_server_socket g' < 0 /\ g_client_socket g' < 0 /\
    (forall fd, closes fd l = true <->
                0 <= fd /\ (fd = g_server_socket g \/ fd = g_client_socket g)) /\
    (exists l0, l = l0 ++ [PthreadJoin]) /\
    g_connection_lost_callback g' = g_connection_lost_callback g /\
    stop_socket_server g' e' = Some (g', [PthreadJoin]).
Proof.
  rewrite stop_socket_server_eq. cbn zeta. do 2 eexists. split; [reflexivity|].
  destruct (Z.leb_spec 0 (g_server_socket g)) as [Hs|Hs];
    destruct (Z.leb_spec 0 (g_client_socket g)) as [Hc|Hc];
    cbn [g_server_socket g_client_socket g_socket_running g_connection_lost_callback
         set_server_socket set_client_socket set_socket_running app];
    (split; [reflexivity|]); (split; [lia|]); (split; [lia|]);
    (split; [|split; [|split; [reflexivity|]]]).
  all: try (match goal with
            | |- exists l0, ?l = l0 ++ [PthreadJoin] =>
                first [ exists (@nil Call); reflexivity
                      | eexists [_]; reflexivity
                      | eexists [_; _]; reflexivity ]
            end).
  all: try (rewrite stop_socket_server_eq;
            cbn [g_server_socket g_client_socket g_socket_running
                 set_server_socket set_client_socket set_socket_running];
            cbn zeta;
            repeat match goal with
                   | |- context [0 <=? ?x] =>
                       destruct (Z.leb_spec 0 x); [lia|]
                   end;
            reflexivity).
  all: intros fd; unfold closes; cbn [existsb orb];
    repeat match goal with
           | |- context [?a =? ?b] => destruct (Z.eqb_spec a b)
           end; cbn [orb]; split; intros H; try discriminate; try reflexivity;
    try lia; subst; try (split; [assumption|tauto]).
Qed.

Lemma send_heartbeat_total fd e : exists b l, send_heartbeat fd e = Some (b, l).
Proof.
  unfold send_heartbeat, OS.bind, call, ret.
  destruct (fd <? 0); [|destruct (env_send e <=? 0)]; do 2 eexists; reflexivity.
Qed.

Lemma strlen_nonneg name : 0 <= strlen name.
Proof. unfold strlen. lia. Qed.

Lemma strlen_zero name : strlen name = 0 -> c_str name = [].
Proof. unfold strlen. destruct (c_str name); cbn; [reflexivity|lia]. Qed.

(** One exported call keeps the listening descriptor valid while the flag
    is set, and never runs past an array. *)
Lemma channel_op_keeps g op e :
  listening_while_running g -> path_blank g -> name_fits op ->
  exists g' l, channel_op g op e = Some (g', l) /\
               listening_while_running g' /\ path_blank g'.
Proof.
  intros Hinv Hp Hfit. destruct op as [name| |name|fd]; cbn [channel_op name_fits] in *.
  - destruct (g_socket_running g) eqn:Hr.
    + exists g, []. split; [|split; assumption].
      unfold OS.bind. rewrite (start_socket_server_thread_flag_set g (Some name) e Hr).
      reflexivity.
    + destruct (Z.eq_dec (strlen name) 0) as [Hz|Hz].
      * exists g, []. split; [|split; assumption].
        unfold OS.bind, start_socket_server_thread, OS.bind. rewrite Hr.
        unfold create_socket_server. rewrite Hz. reflexivity.
      * pose proof (strlen_nonneg name).
        unfold OS.bind at 1.
        rewrite (start_socket_server_thread_eq g name e Hr Hp) by lia. cbn zeta.
        unfold listening_while_running, path_blank.
        destruct (Z.ltb_spec (env_socket e) 0);
          [|destruct (env_bind e <? 0);
            [|destruct (env_listen e <? 0);
              [|destruct (env_pthread_create e =? 0)]]];
          do 2 eexists; (split; [reflexivity|]);
          cbn [snd g_socket_running g_server_socket g_socket_path
               set_server_socket set_socket_path set_socket_running];
          (split; [|reflexivity]); try (rewrite Hr; discriminate);
          try discriminate; intros _; lia.
  - rewrite stop_socket_server_eq. cbn zeta. do 2 eexists. split; [reflexivity|].
    unfold listening_while_running, path_blank.
    destruct (0 <=? g_server_socket g); destruct (0 <=? g_client_socket g);
      cbn [g_socket_running g_socket_path
           set_server_socket set_client_socket set_socket_running];
      (split; [discriminate|exact Hp]).
  - destruct (Z.eq_dec (strlen name) 0) as [Hz|Hz].
    + exists g, []. split; [|split; assumption].
      unfold OS.bind, connect_socket_server. rewrite Hz. reflexivity.
    + pose proof (strlen_nonneg name).
      unfold OS.bind at 1. rewrite (connect_socket_server_eq g name e) by lia. cbn zeta.
      destruct (env_socket e <? 0); [|destruct (env_connect e <? 0)];
        do 2 eexists; (split; [reflexivity|]); (split; [exact Hinv|exact Hp]).
  - destruct (send_heartbeat_total fd e) as (b & l & E).
    exists g, (l ++ []). split; [|split; assumption].
    eapply bind_Some; [exact E|reflexivity].
Qed.

(** X6. Whatever exported calls are made from the initial state, with
    names short enough for [sun_path], none of them runs past an array,
    and after them the listening descriptor is a valid one whenever the
    running flag is set. *)
Theorem exported_calls_keep_listening_descriptor ops :
  Forall (fun oe => name_fits (fst oe)) ops ->
  exists g' l,
    channel_ops initial ops = Some (g', l) /\
    (g_socket_running g' = true -> 0 <= g_server_socket g').
Proof.
  intros Hfit.
  enough (H : forall g, listening_while_running g -> path_blank g ->
                        exists g' l, channel_ops g ops = Some (g', l) /\
                                     listening_while_running g' /\ path_blank g').
  { destruct (H initial) as (g' & l & E & Hi & _);
      [intros H0; discriminate|reflexivity|]. exists g', l. split; assumption. }
  induction Hfit as [|[op e] ops Hop _ IH]; intros g Hinv Hp.
  - exists g, []. repeat split; assumption.
  - destruct (channel_op_keeps g op e Hinv Hp Hop) as (g1 & l1 & E1 & Hinv1 & Hp1).
    destruct (IH g1 Hinv1 Hp1) as (g2 & l2 & E2 & Hinv2 & Hp2).
    exists g2, (l1 ++ l2). cbn [channel_ops]. rewrite E1, E2. repeat split; assumption.
Qed.

(** [receive_with_timeout] on a descriptor that an [fd_set] has room
    for, whatever its other arguments. *)
Lemma receive_with_timeout_cases fd buf size t e :
  fd < FD_SETSIZE ->
  exists r l,
    receive_with_timeout fd buf size t e = Some (r, l) /\
    (r = -1 \/ r = 0 \/ (0 < r /\ r = env_recv e)) /\
    (forall c, In c l ->
               (exists s u, c = Select fd s u) \/ c = Recv fd (size - 1)).
Proof.
  intros Hfit. unfold receive_with_timeout, OS.bind, call, ret.
  destruct ((fd <? 0) || match buf with None => true | Some _ => false end
            || (size <=? 0)).
  { do 2 eexists. split; [reflexivity|]. split; [auto|]. intros c []. }
  destruct (Z.leb_spec FD_SETSIZE fd); [lia|].
  cbn zeta.
  destruct (env_select e <? 0).
  { do 2 eexists. split; [reflexivity|]. split; [auto|].
    intros c [<-|[]]. left. eauto. }
  destruct (env_select e =? 0).
  { do 2 eexists. split; [reflexivity|]. split; [auto|].
    intros c [<-|[]]. left. eauto. }
  destruct (Z.leb_spec (env_recv e) 0).
  { do 2 eexists. split; [reflexivity|]. split; [auto|].
    intros c [<-|[<-|[]]]; [left; eauto|right; reflexivity]. }
  do 2 eexists. split; [reflexivity|]. split; [right; right; split; [lia|reflexivity]|].
  intros c [<-|[<-|[]]]; [left; eauto|right; reflexivity].
Qed.

(** One step of the server thread, its descriptors within an [fd_set]:
    it is defined, it returns only on a cleared flag or a closed
    listening socket, and what it does to a descriptor it does to the
    peer it is serving or to the one its [accept] has just returned. *)
Lemma server_step_cases g pc e peers :
  descriptors_fit (g, e) -> peer_fits pc ->
  (forall fd, pc = AtReceive fd -> In fd peers) ->
  exists pc' l,
    server_step g pc e = Some (pc', l) /\
    (pc <> ThreadReturned -> server_running (g, e) -> pc' <> ThreadReturned) /\
    peer_fits pc' /\
    ((existsb is_accept l = true -> In (env_accept e) peers) ->
     (forall fd, pc' = AtReceive fd -> In fd peers) /\ Forall (peer_call peers) l).
Proof.
  intros [Hsrv Hacc] Hfit Hpc. unfold server_running. cbn [fst snd] in *.
  destruct pc as [|fd|]; cbn [server_step].
  - destruct (g_socket_running g) eqn:Hr; cbn [andb negb].
    + destruct (Z.leb_spec 0 (g_server_socket g)) as [Hs|Hs]; cbn [negb].
      * destruct (Z.leb_spec FD_SETSIZE (g_server_socket g)); [lia|].
        unfold OS.bind, call, ret.
        destruct (env_select e <=? 0); [|destruct (env_accept e <? 0)];
          do 2 eexists; (split; [reflexivity|]);
          (split; [intros; discriminate|]);
          (split; [exact I || exact Hacc|]); cbn [existsb is_accept orb app];
          intros Hin; (split; [|repeat constructor]).
        -- intros fd' Hfd; discriminate.
        -- intros fd' Hfd; discriminate.
        -- intros fd' [= <-]. apply Hin. reflexivity.
      * exists ThreadReturned, []. split; [reflexivity|].
        split; [intros _ [_ ?]; lia|]. split; [exact I|].
        intros _. split; [intros; discriminate|constructor].
    + exists ThreadReturned, []. split; [reflexivity|].
      split; [intros _ [? _]; discriminate|]. split; [exact I|].
      intros _. split; [intros; discriminate|constructor].
  - pose proof (Hpc fd eq_refl) as Hfd. cbn [peer_fits] in Hfit.
    destruct (g_socket_running g) eqn:Hr; cbn [negb].
    + destruct (receive_with_timeout_cases fd stack_buffer 64 5000 e Hfit)
        as (r & lr & Er & Hrv & Hlr).
      assert (Hcalls : Forall (peer_call peers) lr).
      { apply Forall_forall. intros c Hc.
        destruct (Hlr c Hc) as [(s0 & u & ->)| ->]; cbn; auto. }
      destruct (r <? 0) eqn:Hneg; [|destruct (r >? 0) eqn:Hpos].
      * exists AtAccept, (lr ++ [Close fd] ++ []). split.
        { eapply bind_Some; [exact Er|]. rewrite Hneg. eapply bind_Some; reflexivity. }
        split; [intros; discriminate|]. split; [exact I|]. intros _.
        split; [intros; discriminate|].
        apply Forall_app. split; [assumption|]. repeat constructor. exact Hfd.
      * exists (AtReceive fd), (lr ++ [Send fd HEARTBEAT_ACK] ++ []). split.
        { eapply bind_Some; [exact Er|]. rewrite Hneg, Hpos.
          eapply bind_Some; reflexivity. }
        split; [intros; discriminate|]. split; [exact Hfit|]. intros _.
        split; [intros fd' [= <-]; exact Hfd|].
        apply Forall_app. split; [assumption|]. repeat constructor. exact Hfd.
      * exists (AtReceive fd), (lr ++ []). split.
        { eapply bind_Some; [exact Er|]. rewrite Hneg, Hpos. reflexivity. }
        split; [intros; discriminate|]. split; [exact Hfit|]. intros _.
        split; [intros fd' [= <-]; exact Hfd|].
        apply Forall_app. split; [assumption|constructor].
    + exists AtAccept, ([Close fd] ++ []). split; [reflexivity|].
      split; [intros; discriminate|]. split; [exact I|]. intros _.
      split; [intros; discriminate|].
      repeat constructor. exact Hfd.
  - exists ThreadReturned, []. split; [reflexivity|].
    split; [intros H; contradiction|]. split; [exact I|]. intros _.
    split; [intros; discriminate|constructor].
Qed.

(** X7. While the flag stays set and the listening socket open, the
    server thread does not return, whatever its peers do: lost peers,
    failed accepts and timeouts leave it in one of its two loops.  The
    descriptors are ones an [fd_set] has room for. *)
Theorem server_thread_outlives_its_peers trace : forall pc,
  Forall server_running trace -> Forall descriptors_fit trace -> peer_fits pc ->
  pc <> ThreadReturned ->
  exists pc' l, server_run pc trace = Some (pc', l) /\ pc' <> ThreadReturned.
Proof.
  induction trace as [|[g e] trace IH]; intros pc Hall Hfits Hfit Hpc.
  - exists pc, []. split; [reflexivity|assumption].
  - inversion Hall as [|? ? Hge Hrest]; subst.
    inversion Hfits as [|? ? Hd Hdrest]; subst.
    destruct (server_step_cases g pc e
                (match pc with AtReceive fd => [fd] | _ => [] end) Hd Hfit)
      as (pc1 & l1 & E1 & Hlive & Hfit1 & _).
    { intros fd ->. cbn; auto. }
    destruct (IH pc1 Hrest Hdrest Hfit1 (Hlive Hpc Hge)) as (pc2 & l2 & E2 & H2).
    exists pc2, (l1 ++ l2). cbn [server_run]. rewrite E1, E2. split; [reflexivity|assumption].
Qed.

(** X8. Once the flag is cleared the server thread returns within two
    loop heads, closing the peer it was serving and making no other
    call. *)
Theorem server_thread_returns_after_stop pc g1 e1 g2 e2 rest :
  g_socket_running g1 = false -> g_socket_running g2 = false ->
  server_run pc ((g1, e1) :: (g2, e2) :: rest)
  = Some (ThreadReturned, match pc with AtReceive fd => [Close fd] | _ => [] end).
Proof.
  intros H1 H2.
  assert (Hret : forall tr, server_run ThreadReturned tr = Some (ThreadReturned, [])).
  { induction tr as [|[g e] tr IH]; [reflexivity|].
    cbn [server_run server_step]. unfold ret. rewrite IH. reflexivity. }
  assert (Hacc : forall g e, g_socket_running g = false ->
                             server_step g AtAccept e = Some (ThreadReturned, [])).
  { intros g e H. cbn [server_step]. rewrite H. reflexivity. }
  assert (Hrcv : forall g e fd, g_socket_running g = false ->
                                server_step g (AtReceive fd) e = Some (AtAccept, [Close fd])).
  { intros g e fd H. cbn [server_step]. rewrite H. reflexivity. }
  assert (Hdone : forall g e, server_step g ThreadReturned e = Some (ThreadReturned, [])).
  { reflexivity. }
  destruct pc as [|fd|]; cbn [server_run].
  - rewrite (Hacc g1 e1 H1), Hdone, Hret. reflexivity.
  - rewrite (Hrcv g1 e1 fd H1), (Hacc g2 e2 H2), Hret. reflexivity.
  - rewrite !Hdone, Hret. reflexivity.
Qed.

(** X9. The server thread sends nothing but the acknowledgement OK, and
    sends, receives and closes only on descriptors that its own [accept]
    calls returned (or on the peer it was serving at the start of the
    trace); it never reads more than 63 bytes.  The descriptors are ones
    an [fd_set] has room for. *)
Theorem server_thread_touches_only_its_peers trace pc :
  Forall descriptors_fit trace -> peer_fits pc ->
  exists pc' l,
    server_run pc trace = Some (pc', l) /\
    Forall (peer_call (match pc with AtReceive fd => [fd] | _ => [] end
                       ++ accepted pc trace)) l.
Proof.
  enough (H : forall peers trace pc,
             Forall descriptors_fit trace -> peer_fits pc ->
             (forall fd, pc = AtReceive fd -> In fd peers) ->
             incl (accepted pc trace) peers ->
             exists pc' l, server_run pc trace = Some (pc', l) /\
                           Forall (peer_call peers) l).
  { intros Hfits Hfit. apply H; try assumption.
    - intros fd ->. cbn; auto.
    - intros x Hx. apply in_or_app. right. exact Hx. }
  clear trace pc. intros peers trace.
  induction trace as [|[g e] trace IH]; intros pc Hfits Hfit Hpc Hincl.
  - exists pc, []. split; [reflexivity|constructor].
  - inversion Hfits as [|? ? Hd Hdrest]; subst.
    destruct (server_step_cases g pc e peers Hd Hfit Hpc)
      as (pc1 & l1 & E1 & _ & Hfit1 & Hl1).
    cbn [accepted] in Hincl. rewrite E1 in Hincl.
    destruct Hl1 as [Hpc1 Hl1].
    { intros Hacc. apply Hincl. rewrite Hacc. cbn; auto. }
    destruct (IH pc1 Hdrest Hfit1 Hpc1) as (pc2 & l2 & E2 & Hl2).
    { intros x Hx. apply Hincl. apply in_or_app. right. exact Hx. }
    exists pc2, (l1 ++ l2). cbn [server_run]. rewrite E1, E2.
    split; [reflexivity|]. apply Forall_app. split; assumption.
Qed.

(** X10. With valid arguments [receive_with_timeout] first waits in
    [select] with a timeout that is the given milliseconds exactly, the
    microseconds part within a second when the timeout is not negative;
    a negative timeout gives [select] a negative time.  The descriptor
    is one an [fd_set] has room for. *)
Theorem receive_with_timeout_splits_timeout fd buf size t e :
  0 <= fd < FD_SETSIZE -> 0 < size ->
  exists r sec usec rest,
    receive_with_timeout fd (Some buf) size t e
      = Some (r, Select fd sec usec :: rest) /\
    sec * 1000000 + usec = t * 1000 /\
    (0 <= t -> 0 <= sec /\ 0 <= usec < 1000000) /\
    (t < 0 -> sec <= 0 /\ usec <= 0 /\ (sec < 0 \/ usec < 0)).
Proof.
  intros Hfd Hsz. rewrite receive_with_timeout_eq by assumption. cbn zeta.
  assert (Hsplit : Z.quot t 1000 * 1000000 + Z.rem t 1000 * 1000 = t * 1000).
  { pose proof (Z.quot_rem' t 1000). lia. }
  assert (Hpos : 0 <= t -> 0 <= Z.quot t 1000 /\ 0 <= Z.rem t 1000 * 1000 < 1000000).
  { intros Ht. pose proof (Z.rem_bound_pos t 1000 Ht ltac:(lia)).
    pose proof (Z.quot_pos t 1000 Ht ltac:(lia)). lia. }
  assert (Hneg : t < 0 -> Z.quot t 1000 <= 0 /\ Z.rem t 1000 * 1000 <= 0 /\
                          (Z.quot t 1000 < 0 \/ Z.rem t 1000 * 1000 < 0)).
  { intros Ht. pose proof (Z.rem_bound_pos_neg t 1000 ltac:(lia) ltac:(lia)).
    pose proof (Z.quot_rem' t 1000).
    assert (Z.quot t 1000 <= 0).
    { rewrite <- (Z.opp_involutive t), Z.quot_opp_l by lia.
      pose proof (Z.quot_pos (- t) 1000 ltac:(lia) ltac:(lia)). lia. }
    lia. }
  destruct (env_select e <? 0); [|destruct (env_select e =? 0);
                                  [|destruct (env_recv e <=? 0)]];
    do 4 eexists; (split; [reflexivity|]); (split; [exact Hsplit|]);
    (split; [exact Hpos|exact Hneg]).
Qed.

(** X11. [receive_with_timeout] turns bad arguments away with -1 and
    no call.  With good ones and a descriptor that an [fd_set] has no
    room for, its [FD_SET] writes outside the set.  With good ones and a
    descriptor within the set it answers 0 exactly on a [select]
    timeout, a positive count exactly when the socket is readable and
    [recv] gives data, and -1 otherwise; [recv] is called only on a
    readable socket, for one byte less than the buffer holds, so that a
    count the kernel gives within that limit leaves room for the
    terminator. *)
Theorem receive_with_timeout_answer fd buf size t e :
  (fd < 0 \/ buf = None \/ size <= 0 ->
   receive_with_timeout fd buf size t e = Some (-1, [])) /\
  (0 <= fd -> buf <> None -> 0 < size ->
   (FD_SETSIZE <= fd -> receive_with_timeout fd buf size t e = None) /\
   (fd < FD_SETSIZE ->
    exists r l,
      receive_with_timeout fd buf size t e = Some (r, l) /\
      (r = 0 <-> env_select e = 0) /\
      (0 < r <-> 0 < env_select e /\ 0 < env_recv e) /\
      (r = -1 \/ r = 0 \/ r = env_recv e) /\
      (In (Recv fd (size - 1)) l <-> 0 < env_select e) /\
      count_calls is_recv l = (if 0 <? env_select e then 1%nat else 0%nat) /\
      (env_recv e <= size - 1 -> r < size))).
Proof.
  split.
  { intros H. unfold receive_with_timeout.
    destruct (Z.ltb_spec fd 0) as [Hfd|Hfd]; [reflexivity|].
    destruct buf as [buf|]; [|reflexivity].
    destruct (Z.leb_spec size 0) as [Hsz|Hsz]; [reflexivity|].
    exfalso. destruct H as [H|[H|H]]; [lia|discriminate|lia]. }
  intros Hfd Hbuf Hsz. destruct buf as [buf|]; [|contradiction]. split.
  { intros Hbig. unfold receive_with_timeout.
    destruct (Z.ltb_spec fd 0); [lia|].
    destruct (Z.leb_spec size 0); [lia|]. cbn [orb].
    destruct (Z.leb_spec FD_SETSIZE fd); [reflexivity|lia]. }
  intros Hfit.
  rewrite receive_with_timeout_eq by (try split; assumption). cbn zeta.
  destruct (Z.ltb_spec (env_select e) 0) as [Hs|Hs].
  { do 2 eexists. split; [reflexivity|].
    replace (0 <? env_select e) with false by (symmetry; apply Z.ltb_ge; lia).
    repeat split; try lia; auto.
    intros [H|[]]; discriminate. }
  destruct (Z.eqb_spec (env_select e) 0) as [Hz|Hz].
  { do 2 eexists. split; [reflexivity|].
    replace (0 <? env_select e) with false by (symmetry; apply Z.ltb_ge; lia).
    repeat split; try lia; auto.
    intros [H|[]]; discriminate. }
  replace (0 <? env_select e) with true by (symmetry; apply Z.ltb_lt; lia).
  destruct (Z.leb_spec (env_recv e) 0) as [Hr|Hr];
    do 2 eexists; (split; [reflexivity|]);
    repeat split; try lia; auto; try (intros _; cbn; auto).
Qed.

Lemma count_calls_app p l1 l2 :
  count_calls p (l1 ++ l2) = (count_calls p l1 + count_calls p l2)%nat.
Proof. unfold count_calls. rewrite filter_app, length_app. reflexivity. Qed.

Lemma count_calls_none p l :
  Forall (fun c => p c = false) l -> count_calls p l = 0%nat.
Proof.
  unfold count_calls. induction 1 as [|c l Hc _ IH]; [reflexivity|].
  cbn. rewrite Hc. exact IH.
Qed.

(** One round of the client loop: what it calls. *)
Lemma heartbeat_body_calls g interval e :
  0 <= g_client_socket g < FD_SETSIZE ->
  exists l,
    heartbeat_body g interval e = Some (round_lost e, l) /\
    Forall (client_call (g_client_socket g)) l /\
    count_calls is_send l = 1%nat.
Proof.
  intros Hfd. unfold heartbeat_body, round_lost.
  assert (Hn : exists ln, notify_lost g e = Some (tt, ln) /\
                          Forall (client_call (g_client_socket g)) ln /\
                          count_calls is_send ln = 0%nat).
  { unfold notify_lost. destruct (g_connection_lost_callback g);
      eexists; (split; [reflexivity|]); split; repeat constructor. }
  destruct Hn as (ln & En & Fn & Cn).
  destruct (receive_with_timeout_cases (g_client_socket g) stack_buffer 64 interval e
              (proj2 Hfd))
    as (r & lr & Er & _ & Hlr).
  assert (Flr : Forall (client_call (g_client_socket g)) lr /\
                count_calls is_send lr = 0%nat).
  { split.
    - apply Forall_forall. intros c Hc.
      destruct (Hlr c Hc) as [(s0 & u & ->)| ->]; cbn; auto.
    - apply count_calls_none. apply Forall_forall. intros c Hc.
      destruct (Hlr c Hc) as [(s0 & u & ->)| ->]; reflexivity. }
  destruct Flr as [Flr Clr].
  destruct (receive_with_timeout_sign (g_client_socket g) (repeat NUL 64) 64 interval e)
    as (r' & lr' & Er' & Hneg & _); [assumption|lia|].
  unfold stack_buffer in Er. rewrite Er in Er'. injection Er' as <- <-.
  destruct (Z.leb_spec (env_send e) 0) as [Hs|Hs]; cbn [orb].
  - exists ([Send (g_client_socket g) HEARTBEAT_MSG] ++ ln ++ []). split; [|split].
    + eapply bind_Some; [apply send_heartbeat_eq; lia|].
      replace (env_send e <=? 0) with true by (symmetry; apply Z.leb_le; lia).
      cbn [negb]. eapply bind_Some; [exact En|reflexivity].
    + apply Forall_app. split; [repeat constructor|].
      apply Forall_app. split; [assumption|constructor].
    + rewrite !count_calls_app, Cn. reflexivity.
  - destruct (receive_fails e).
    + exists ([Send (g_client_socket g) HEARTBEAT_MSG] ++ lr ++ ln ++ []).
      split; [|split].
      * eapply bind_Some; [apply send_heartbeat_eq; lia|].
        replace (env_send e <=? 0) with false by (symmetry; apply Z.leb_gt; lia).
        cbn [negb]. eapply bind_Some; [exact Er|]. rewrite Hneg.
        eapply bind_Some; [exact En|reflexivity].
      * apply Forall_app. split; [repeat constructor|].
        apply Forall_app. split; [assumption|].
        apply Forall_app. split; [assumption|constructor].
      * rewrite !count_calls_app, Cn, Clr. reflexivity.
    + exists ([Send (g_client_socket g) HEARTBEAT_MSG] ++ lr
              ++ [Usleep (usleep_arg interval)] ++ []).
      split; [|split].
      * eapply bind_Some; [apply send_heartbeat_eq; lia|].
        replace (env_send e <=? 0) with false by (symmetry; apply Z.leb_gt; lia).
        cbn [negb]. eapply bind_Some; [exact Er|]. rewrite Hneg.
        eapply bind_Some; reflexivity.
      * apply Forall_app. split; [repeat constructor|].
        apply Forall_app. split; [assumption|repeat constructor].
      * rewrite !count_calls_app, Clr. reflexivity.
Qed.

(** X12. The client loop sends one heartbeat per round, up to and
    including the first lost round, always the literal HB on its own
    descriptor; besides that it only waits, reads at most 63 bytes,
    sleeps and calls the callback.  It never closes the descriptor, also
    not when the connection is lost.  The descriptor is one an [fd_set]
    has room for. *)
Theorem heartbeat_loop_calls g interval envs :
  0 <= g_client_socket g < FD_SETSIZE ->
  exists r l,
    heartbeat_loop g interval envs = Some (r, l) /\
    Forall (client_call (g_client_socket g)) l /\
    count_calls is_send l = rounds_run envs /\
    count_calls is_close l = 0%nat.
Proof.
  intros Hfd.
  enough (H : exists r l, heartbeat_loop g interval envs = Some (r, l) /\
                          Forall (client_call (g_client_socket g)) l /\
                          count_calls is_send l = rounds_run envs).
  { destruct H as (r & l & E & F & C). exists r, l. repeat split; try assumption.
    clear E C. unfold count_calls. induction F as [|c l Hc _ IH]; [reflexivity|].
    destruct c; cbn in Hc |- *; try contradiction; exact IH. }
  induction envs as [|e envs IH]; cbn [heartbeat_loop rounds_run].
  - destruct (Z.ltb_spec (g_client_socket g) 0); [lia|].
    do 2 eexists. split; [reflexivity|]. split; [constructor|reflexivity].
  - destruct (Z.ltb_spec (g_client_socket g) 0); [lia|].
    destruct (heartbeat_body_calls g interval e Hfd) as (l1 & E1 & F1 & C1).
    rewrite E1. destruct (round_lost e).
    + do 2 eexists. split; [reflexivity|]. split; assumption.
    + destruct IH as (r2 & l2 & E2 & F2 & C2).
      assert (Hloop : heartbeat_loop g interval envs = Some (r2, l2)).
      { destruct envs; exact E2. }
      rewrite Hloop. exists r2, (l1 ++ l2). split; [reflexivity|].
      split; [apply Forall_app; split; assumption|].
      rewrite count_calls_app, C1, C2. reflexivity.
Qed.

End ChannelMore.

(* ================================================================== *)
(** ** More on the daemon                                              *)
(* ================================================================== *)

Section DaemonMore.
Import Daemon.

(** The state a cycle leaves, from what the prober and the round of
    reactivation answer. *)
Lemma cycle_state g n e :
  exists l,
    cycle g n e
    = Some (if round_failed g e
            then (n + 1 >=? max_consecutive_failures, n + 1)
            else (false, 0), l).
Proof.
  destruct (is_process_alive_probe g e) as [l Hl].
  destruct (reactivate_total (g_config g) e) as (b & l' & Hr).
  rewrite cycle_eq, Hl. unfold round_failed, round_succeeds. rewrite Hr. cbn zeta.
  destruct (probe g e); [|destruct b]; eexists; reflexivity.
Qed.

(** From a counter below the maximum, the loop gives up only at the end
    of a run of failed cycles that brings the counter to the maximum. *)
Lemma monitor_gave_up_run g envs : forall n r,
  0 <= n < max_consecutive_failures ->
  monitor g n envs = Some r -> loop_end r = GaveUp ->
  exists pre run post,
    envs = pre ++ run ++ post /\
    forallb (round_failed g) run = true /\
    cycles r = (List.length pre + List.length run)%nat /\
    failures r = max_consecutive_failures /\
    ((pre = [] /\ Z.of_nat (List.length run) = max_consecutive_failures - n) \/
     Z.of_nat (List.length run) = max_consecutive_failures).
Proof.
  unfold max_consecutive_failures.
  induction envs as [|e envs IH]; intros n r Hn E Hend; cbn [monitor] in E.
  - destruct (negb (g_daemon_running g)); injection E as <-; discriminate.
  - destruct (negb (g_daemon_running g)); [injection E as <-; discriminate|].
    destruct (cycle_state g n e) as [l Hc]. rewrite Hc in E.
    unfold max_consecutive_failures in E.
    destruct (round_failed g e) eqn:Hf.
    + destruct (Z.geb_spec (n + 1) 3) as [Hge|Hlt].
      * injection E as <-. exists [], [e], envs.
        cbn [app forallb List.length cycles failures].
        rewrite Hf. repeat split; try reflexivity; try lia. left. split; [reflexivity|lia].
      * destruct (monitor g (n + 1) envs) as [r1|] eqn:E1; [|discriminate].
        injection E as <-. cbn in Hend.
        destruct (IH (n + 1) r1 ltac:(lia) E1 Hend)
          as (pre & run & post & -> & Hall & Hcy & Hfl & Hcase).
        destruct Hcase as [[-> Hlen]|Hlen].
        -- exists [], (e :: run), post. cbn [app forallb List.length cycles failures].
           rewrite Hf, Hall, Hcy. repeat split; try assumption.
           left. split; [reflexivity|]. cbn [List.length] in *. lia.
        -- exists (e :: pre), run, post. cbn [app List.length cycles failures].
           rewrite Hcy. repeat split; try assumption. right. exact Hlen.
    + destruct (monitor g 0 envs) as [r1|] eqn:E1; [|discriminate].
      injection E as <-. cbn in Hend.
      destruct (IH 0 r1 ltac:(lia) E1 Hend)
        as (pre & run & post & -> & Hall & Hcy & Hfl & Hcase).
      exists (e :: pre), run, post. cbn [app List.length cycles failures].
      rewrite Hcy. repeat split; try assumption. right.
      destruct Hcase as [[_ Hlen]|Hlen]; lia.
Qed.

(** X13. The loop gives up only at the third of three failed cycles in
    a row: whenever it has given up, the last three cycles it ran each
    found the process dead and failed to reactivate it. *)
Theorem gives_up_only_after_three_failed_cycles g envs r g' :
  daemon_main_loop g envs = Some (r, g') -> loop_end r = GaveUp ->
  exists pre d1 d2 d3 post,
    envs = pre ++ d1 :: d2 :: d3 :: post /\
    round_failed g d1 = true /\ round_failed g d2 = true /\
    round_failed g d3 = true /\
    cycles r = (List.length pre + 3)%nat /\ failures r = 3.
Proof.
  unfold daemon_main_loop. destruct (monitor g 0 envs) as [r0|] eqn:E; [|discriminate].
  intros [= <- <-] Hend. cbn in Hend.
  destruct (monitor_gave_up_run g envs 0 r0 ltac:(unfold max_consecutive_failures; lia)
              E Hend) as (pre & run & post & -> & Hall & Hcy & Hfl & Hcase).
  assert (Hlen : List.length run = 3%nat).
  { unfold max_consecutive_failures in Hcase. destruct Hcase as [[_ H]|H]; lia. }
  destruct run as [|d1 [|d2 [|d3 [|d4 run]]]]; try discriminate.
  cbn in Hall. apply andb_true_iff in Hall as [H1 Hall].
  apply andb_true_iff in Hall as [H2 Hall]. apply andb_true_iff in Hall as [H3 _].
  exists pre, d1, d2, d3, post. cbn [cycles failures]. repeat split; assumption.
Qed.

(** The counter and the cycle count along the loop, from a counter below
    the maximum. *)
Lemma monitor_bounds g envs : forall n,
  0 <= n < max_consecutive_failures ->
  exists r,
    monitor g n envs = Some r /\
    0 <= failures r <= max_consecutive_failures /\
    (loop_end r = GaveUp <-> failures r = max_consecutive_failures) /\
    (cycles r <= List.length envs)%nat /\
    (loop_end r = Going -> cycles r = List.length envs) /\
    (loop_end r = FlagCleared <-> g_daemon_running g = false) /\
    (g_daemon_running g = false -> cycles r = 0%nat).
Proof.
  unfold max_consecutive_failures.
  induction envs as [|e envs IH]; intros n Hn; cbn [monitor].
  - destruct (g_daemon_running g); cbn [negb]; eexists; (split; [reflexivity|]);
      cbn [failures loop_end cycles List.length];
      repeat split; try lia; try discriminate; intros; try lia; discriminate.
  - destruct (g_daemon_running g) eqn:Hg; cbn [negb].
    2:{ eexists; (split; [reflexivity|]); cbn [failures loop_end cycles List.length];
        repeat split; try lia; try discriminate; intros; try lia; discriminate. }
    destruct (cycle_state g n e) as [l Hc]. rewrite Hc.
    unfold max_consecutive_failures.
    destruct (round_failed g e).
    + destruct (Z.geb_spec (n + 1) 3) as [Hge|Hlt].
      * eexists; (split; [reflexivity|]); cbn [failures loop_end cycles List.length].
        repeat split; try lia; try discriminate; intros; try lia; discriminate.
      * destruct (IH (n + 1) ltac:(lia)) as (r & -> & Hb & Hg3 & Hcy & Hgo & Hfc & Hz).
        eexists; (split; [reflexivity|]); cbn [failures loop_end cycles List.length].
        repeat split; try tauto; try lia.
        intros H. rewrite (Hgo H). reflexivity.
    + destruct (IH 0 ltac:(lia)) as (r & -> & Hb & Hg3 & Hcy & Hgo & Hfc & Hz).
      eexists; (split; [reflexivity|]); cbn [failures loop_end cycles List.length].
      repeat split; try tauto; try lia.
      intros H. rewrite (Hgo H). reflexivity.
Qed.

(** X14. On every trace [daemon_main_loop] has a state; the failure
    counter stays between 0 and 3 and is 3 exactly when the loop has
    given up; the loop runs at most one cycle per entry of the trace and
    all of them while it is still going; and it ends on the flag exactly
    when the flag is clear, without running a cycle. *)
Theorem loop_counter_stays_within_bounds g envs :
  exists r,
    daemon_main_loop g envs = Some (r, g) /\
    0 <= failures r <= 3 /\
    (loop_end r = GaveUp <-> failures r = 3) /\
    (cycles r <= List.length envs)%nat /\
    (loop_end r = Going -> cycles r = List.length envs) /\
    (loop_end r = FlagCleared <-> g_daemon_running g = false) /\
    (g_daemon_running g = false -> cycles r = 0%nat).
Proof.
  destruct (monitor_bounds g envs 0) as (r & E & H);
    [unfold max_consecutive_failures; lia|].
  unfold daemon_main_loop. rewrite E. eexists. split; [reflexivity|]. exact H.
Qed.

Lemma is_process_alive_calls g e b l :
  is_process_alive (parent_pid (g_config g)) e = Some (b, l) ->
  Forall (monitor_call g) l /\ count_calls is_system l = 0%nat /\ ~ In (Sleep 5) l.
Proof.
  rewrite is_process_alive_eq.
  destruct (_ <=? 0); [|destruct (proc_entry_is_dir _ _)]; intros [= _ <-];
    (split; [repeat constructor|split; [reflexivity|]]); cbn [In];
    intros H; repeat destruct H as [H|H]; try discriminate; assumption.
Qed.

Lemma reactivate_calls g e b l :
  reactivate (g_config g) e = Some (b, l) ->
  Forall (monitor_call g) l /\ (0 < count_calls is_system l)%nat /\ ~ In (Sleep 5) l.
Proof.
  rewrite reactivate_eq. cbn zeta.
  set (c1 := am_startservice_cmd (package_name (g_config g)) (service_name (g_config g))).
  set (c2 := am_start_foreground_cmd (package_name (g_config g))
                                     (service_name (g_config g))).
  set (c3 := am_broadcast_cmd (package_name (g_config g))).
  assert (H1 : monitor_call g (System c1)) by (left; reflexivity).
  assert (H2 : monitor_call g (System c2)) by (right; left; reflexivity).
  assert (H3 : monitor_call g (System c3)) by (right; right; reflexivity).
  destruct (use_am_command (g_config g));
    [destruct (env_system e c1 =? 0); [|destruct (env_system e c2 =? 0)]|];
    intros [= _ <-];
    (split; [repeat (constructor; try assumption)|]);
    (split; [unfold count_calls; cbn [filter is_system List.length]; lia|]);
    cbn [In]; intros H; repeat destruct H as [H|H]; try discriminate; assumption.
Qed.

(** What one cycle calls. *)
Lemma cycle_calls g n e :
  exists x l,
    cycle g n e = Some (x, l) /\
    Forall (monitor_call g) l /\
    (count_calls is_system l = 0%nat <-> probe g e = true) /\
    (In (Sleep 5) l <-> probe g e = false /\ round_succeeds g e = true).
Proof.
  destruct (is_process_alive_probe g e) as [l1 Hl].
  destruct (reactivate_total (g_config g) e) as (b & l2 & Hr).
  destruct (is_process_alive_calls g e _ _ Hl) as (F1 & C1 & S1).
  destruct (reactivate_calls g e _ _ Hr) as (F2 & C2 & S2).
  rewrite cycle_eq, Hl. unfold round_succeeds. rewrite Hr. cbn zeta.
  assert (Hu : monitor_call g (Usleep (usleep_arg (check_interval_ms (g_config g)))))
    by reflexivity.
  destruct (probe g e).
  - do 2 eexists. split; [reflexivity|]. split; [constructor; assumption|].
    split; [split; [reflexivity|intros _; exact C1]|].
    split; [intros [H|H]; [discriminate|contradiction]|intros [H _]; discriminate].
  - destruct b; do 2 eexists; (split; [reflexivity|]).
    + split; [constructor; [assumption|]; repeat (apply Forall_app; split);
              try assumption; repeat constructor|].
      split.
      * change (Usleep ?u :: ?l) with ([Usleep u] ++ l).
        rewrite !count_calls_app. split; [intros H|discriminate]. lia.
      * split; [intros _; split; reflexivity|intros _].
        right. apply in_or_app. right. apply in_or_app. right. left. reflexivity.
    + split; [constructor; [assumption|]; repeat (apply Forall_app; split);
              try assumption; repeat constructor|].
      split.
      * change (Usleep ?u :: ?l) with ([Usleep u] ++ l).
        rewrite !count_calls_app. split; [intros H|discriminate]. lia.
      * split; [|intros [_ H]; discriminate].
        intros [H|H]; [discriminate|].
        apply in_app_or in H as [H|H]; [contradiction|].
        apply in_app_or in H as [H|H]; [contradiction|destruct H].
Qed.

Lemma monitor_calls g envs : forall n,
  exists r, monitor g n envs = Some r /\ Forall (monitor_call g) (calls r).
Proof.
  induction envs as [|e envs IH]; intros n; cbn [monitor].
  - destruct (negb (g_daemon_running g)); eexists; (split; [reflexivity|constructor]).
  - destruct (negb (g_daemon_running g)); [eexists; (split; [reflexivity|constructor])|].
    destruct (cycle_calls g n e) as ([b n'] & l & E & F & _). rewrite E.
    destruct b; [eexists; (split; [reflexivity|exact F])|].
    destruct (IH n') as (r & -> & Fr).
    eexists. split; [reflexivity|]. cbn [calls]. apply Forall_app. split; assumption.
Qed.

(** X15. Besides ignoring SIGPIPE once, the monitoring loop only sleeps,
    looks up the [/proc] entry of the process id stored at start, sends
    that process signal 0, and runs the three activation commands built
    from the stored names: it signals no other process, sends no other
    signal, and never forks. *)
Theorem monitoring_loop_calls g envs :
  exists r l,
    daemon_main_loop g envs = Some (r, g) /\
    calls r = IgnoreSigpipe :: l /\
    Forall (monitor_call g) l.
Proof.
  destruct (monitor_calls g envs 0) as (r & E & F).
  unfold daemon_main_loop. rewrite E.
  do 2 eexists. split; [reflexivity|]. split; [reflexivity|exact F].
Qed.

(** X16. A cycle runs an activation command exactly when the prober
    finds the process dead, and it sleeps the five seconds of settling
    exactly when, having found it dead, the round of reactivation
    succeeds. *)
Theorem cycle_commands_and_settling g n e :
  exists x l,
    cycle g n e = Some (x, l) /\
    (count_calls is_system l = 0%nat <-> probe g e = true) /\
    (In (Sleep 5) l <-> probe g e = false /\ round_succeeds g e = true).
Proof.
  destruct (cycle_calls g n e) as (x & l & E & _ & H1 & H2).
  exists x, l. split; [exact E|]. split; [exact H1|exact H2].
Qed.

Lemma count_forks_app l1 l2 :
  count_forks (l1 ++ l2) = (count_forks l1 + count_forks l2)%nat.
Proof. unfold count_forks. rewrite filter_app, length_app. reflexivity. Qed.

Lemma monitor_call_no_fork g l : Forall (monitor_call g) l -> count_forks l = 0%nat.
Proof.
  unfold count_forks. induction 1 as [|c l Hc _ IH]; [reflexivity|].
  destruct c; cbn in Hc |- *; try contradiction; exact IH.
Qed.

Lemma detach_no_fork e l : detach e = Some (tt, l) -> count_forks l = 0%nat.
Proof.
  unfold detach, OS.bind, call, ret.
  destruct (0 <=? env_open e); [destruct (env_open e >? 2)|];
    intros [= <-]; reflexivity.
Qed.

(** X17. Past its guard [start_daemon] stores the configuration and
    forks once, whatever comes of the fork.  When the fork fails the
    caller gets -1, when it succeeds 0, and in both cases the caller's
    flag stays clear and nothing else is called.  In the child the flag
    is set and the call never comes back. *)
Theorem start_daemon_by_fork_result g p s i e envs :
  g_daemon_running g = false ->
  exists x g' l,
    start_daemon g p s i e envs = Some (x, g', l) /\
    count_forks l = 1%nat /\
    g_config g' = g_config (save_config g p s i (env_getpid e)) /\
    (env_fork e < 0 ->
     x = Returned (-1) /\ g_daemon_running g' = false /\ l = [Getpid; Fork]) /\
    (0 < env_fork e ->
     x = Returned 0 /\ g_daemon_running g' = false /\ l = [Getpid; Fork]) /\
    (env_fork e = 0 -> g_daemon_running g' = true /\ forall r, x <> Returned r).
Proof.
  intros Hg. unfold start_daemon. rewrite Hg.
  unfold start_daemon_fork, OS.bind, call, ret. cbn [app fst snd].
  set (saved := save_config g p s i (env_getpid e)).
  assert (Hs : g_daemon_running saved = false) by exact Hg.
  destruct (Z.ltb_spec (env_fork e) 0) as [Hneg|Hnn].
  { do 3 eexists. split; [reflexivity|]. repeat split; try lia; assumption. }
  destruct (Z.eqb_spec (env_fork e) 0) as [Hz|Hnz].
  2:{ do 3 eexists. split; [reflexivity|]. repeat split; try lia; assumption. }
  destruct (detach_total e) as [l2 E2]. rewrite E2.
  pose proof (detach_no_fork e l2 E2) as F2.
  destruct (monitor_calls (set_running saved true) envs 0) as (r & Er & Fr).
  unfold daemon_main_loop. rewrite Er. cbn [loop_end calls].
  pose proof (monitor_call_no_fork _ _ Fr) as F3.
  destruct (loop_end r); do 3 eexists; (split; [reflexivity|]);
    (split; [change (Getpid :: Fork :: ?l) with ([Getpid; Fork] ++ l);
             change (IgnoreSigpipe :: ?l) with ([IgnoreSigpipe] ++ l);
             rewrite !count_forks_app, F2, F3; reflexivity|]);
    (split; [reflexivity|]); repeat split; try lia; intros; discriminate.
Qed.

(** X18. With the names as [start_daemon] stores them, the two
    activation commands always fit their buffer and are run in full.
    The broadcast command is run in full when the package name has at
    most 231 bytes; with a longer name it is cut to 511 bytes. *)
Theorem stored_names_and_command_buffers g p s i pid :
  let c := g_config (save_config g p s i pid) in
  am_startservice_cmd (package_name c) (service_name c)
    = am_startservice_text (package_name c) (service_name c) /\
  am_start_foreground_cmd (package_name c) (service_name c)
    = am_start_foreground_text (package_name c) (service_name c) /\
  (strlen p <= 231 ->
   package_name c = c_str p /\
   am_broadcast_cmd (package_name c) = am_broadcast_text (c_str p)) /\
  (231 < strlen p ->
   am_broadcast_cmd (package_name c) = firstn 511 (am_broadcast_text (package_name c)) /\
   List.length (am_broadcast_cmd (package_name c)) = 511%nat /\
   (511 < List.length (am_broadcast_text (package_name c)))%nat).
Proof.
  cbn zeta. cbn [g_config save_config package_name service_name]. unfold strncpy.
  set (pk := firstn 255 (c_str p)). set (sv := firstn 511 (c_str s)).
  assert (Hpk : no_NUL pk) by (apply no_NUL_firstn, no_NUL_c_str).
  assert (Hsv : no_NUL sv) by (apply no_NUL_firstn, no_NUL_c_str).
  assert (Lpk : (List.length pk <= 255)%nat) by (unfold pk; rewrite length_firstn; lia).
  assert (Lsv : (List.length sv <= 511)%nat) by (unfold sv; rewrite length_firstn; lia).
  rewrite am_startservice_cmd_eq, am_start_foreground_cmd_eq, am_broadcast_cmd_eq.
  rewrite !(c_str_no_NUL_id pk Hpk), !(c_str_no_NUL_id sv Hsv).
  split; [|split; [|split]].
  - apply firstn_all2. rewrite am_startservice_text_length. lia.
  - apply firstn_all2. rewrite am_start_foreground_text_length. lia.
  - intros Hlen. unfold strlen in Hlen.
    assert (Epk : pk = c_str p) by (unfold pk; apply firstn_all2; lia).
    split; [exact Epk|]. rewrite Epk.
    apply firstn_all2. rewrite am_broadcast_text_length. lia.
  - intros Hlen. unfold strlen in Hlen.
    assert (Lpk' : (232 <= List.length pk)%nat)
      by (unfold pk; rewrite length_firstn; lia).
    split; [reflexivity|].
    rewrite length_firstn, am_broadcast_text_length. lia.
Qed.

End DaemonMore.

(* ================================================================== *)
(** ** Process diagnostics                                             *)
(* ================================================================== *)

Section ProcessFacts.
Import ProcOS Process.

(** X19. [set_process_priority] makes one [setpriority] call, for the
    calling process, with the priority brought into the range -20..19: a
    value in the range is passed as it is, a lower one as -20, a higher
    one as 19.  It answers [true] exactly when the call answers 0. *)
Theorem set_process_priority_clamps priority e :
  exists b p,
    set_process_priority priority e = (b, [Setpriority PRIO_PROCESS 0 p]) /\
    -20 <= p <= 19 /\
    (-20 <= priority <= 19 -> p = priority) /\
    (priority < -20 -> p = -20) /\
    (19 < priority -> p = 19) /\
    (b = true <-> env_setpriority e = 0).
Proof.
  unfold set_process_priority, bind, call, ret. cbn zeta.
  destruct (Z.ltb_spec priority (-20)) as [Hlo|Hlo].
  - change (-20 >? 19) with false. cbn iota.
    destruct (Z.eqb_spec (env_setpriority e) 0) as [Hz|Hz];
      do 2 eexists; (split; [reflexivity|]); repeat split; try lia;
      intros; try discriminate; congruence.
  - rewrite Z.gtb_ltb. destruct (Z.ltb_spec 19 priority) as [Hhi|Hhi];
      destruct (Z.eqb_spec (env_setpriority e) 0) as [Hz|Hz];
      do 2 eexists; (split; [reflexivity|]); repeat split; try lia;
      intros; try discriminate; congruence.
Qed.

Lemma wrap32_small z : - 2 ^ 31 <= z < 2 ^ 31 -> wrap32 z = z.
Proof.
  intros H. unfold wrap32. rewrite Z.mod_small by lia. lia.
Qed.

(** X20. [get_oom_adj] prefers the new file: when it opens, the answer
    is the number read from it, or 1000 when none can be read, and the
    old file is not touched.  When only the old file opens, its value
    (15 when none can be read) is scaled by 1000/17, rounding towards
    zero, so that the old range -17..15 gives -1000..882.  When neither
    opens the answer is 1000. *)
Theorem get_oom_adj_sources e :
  exists r l,
    get_oom_adj e = (r, l) /\
    (env_fopen e oom_score_adj_path (lit "r") = true ->
     r = match env_fscanf e oom_score_adj_path with Some a => a | None => 1000 end /\
     forall mode opened, ~ In (Fopen oom_adj_path mode opened) l) /\
    (env_fopen e oom_score_adj_path (lit "r") = false ->
     env_fopen e oom_adj_path (lit "r") = true ->
     -17 <= legacy_oom_adj e <= 15 ->
     r = Z.quot (legacy_oom_adj e * 1000) 17 /\ -1000 <= r <= 882 /\
     (legacy_oom_adj e = 15 -> r = 882) /\ (legacy_oom_adj e = -17 -> r = -1000)) /\
    (env_fopen e oom_score_adj_path (lit "r") = false ->
     env_fopen e oom_adj_path (lit "r") = false ->
     r = 1000).
Proof.
  unfold get_oom_adj, fopen, fclose, bind, call, ret. cbn zeta.
  destruct (env_fopen e oom_score_adj_path (lit "r")).
  - do 2 eexists. split; [reflexivity|]. split; [|split; intros; discriminate].
    intros _. split; [reflexivity|]. intros mode opened H. cbn in H.
    repeat destruct H as [H|H]; try discriminate; assumption.
  - destruct (env_fopen e oom_adj_path (lit "r")).
    + do 2 eexists. split; [reflexivity|].
      split; [intros; discriminate|]. split; [|intros; discriminate].
      intros _ _ Hr. fold (legacy_oom_adj e).
      rewrite wrap32_small by lia.
      assert (Hq : 17 * Z.quot (legacy_oom_adj e * 1000) 17
                   + Z.rem (legacy_oom_adj e * 1000) 17 = legacy_oom_adj e * 1000)
        by (symmetry; apply Z.quot_rem'; lia).
      pose proof (Z.rem_bound_abs (legacy_oom_adj e * 1000) 17 ltac:(lia)) as Hb.
      change (Z.abs 17) with 17 in Hb.
      assert (Hs : -1000 <= Z.quot (legacy_oom_adj e * 1000) 17 <= 882).
      { destruct (Z.le_ge_cases 0 (legacy_oom_adj e)).
        - pose proof (Z.rem_nonneg (legacy_oom_adj e * 1000) 17 ltac:(lia) ltac:(lia)).
          lia.
        - pose proof (Z.rem_nonpos (legacy_oom_adj e * 1000) 17 ltac:(lia) ltac:(lia)).
          lia. }
      split; [reflexivity|]. split; [exact Hs|].
      split; intros ->; reflexivity.
    + do 2 eexists. split; [reflexivity|].
      split; [intros; discriminate|]. split; intros; [discriminate|reflexivity].
Qed.

(** X21. [check_root] answers [true] exactly when the user or effective
    user id is 0 or one of the seven marker files can be accessed.  It
    asks in a fixed order and stops at the first hit: the effective id
    only when the user id is not 0, the files only when neither id is 0,
    and each file only when none before it was found. *)
Theorem check_root_looks_in_order e :
  let hit := fun path => env_access e path =? 0 in
  check_root e =
  ((env_getuid e =? 0) || (env_geteuid e =? 0) || existsb hit root_markers,
   Getuid :: if env_getuid e =? 0 then [] else
   Geteuid :: if env_geteuid e =? 0 then [] else
   map Access (up_to_first hit root_markers)).
Proof.
  cbn zeta. unfold check_root, orM, accessible, bind, call, ret, root_markers.
  cbn [existsb up_to_first map].
  destruct (env_getuid e =? 0); [reflexivity|].
  destruct (env_geteuid e =? 0); [reflexivity|].
  destruct (env_access e (lit "/system/app/Superuser.apk") =? 0); [reflexivity|].
  destruct (env_access e (lit "/system/xbin/su") =? 0); [reflexivity|].
  destruct (env_access e (lit "/system/bin/su") =? 0); [reflexivity|].
  destruct (env_access e (lit "/data/local/bin/su") =? 0); [reflexivity|].
  destruct (env_access e (lit "/sbin/su") =? 0); [reflexivity|].
  destruct (env_access e (lit "/sbin/.magisk") =? 0); [reflexivity|].
  destruct (env_access e (lit "/data/adb/magisk") =? 0); reflexivity.
Qed.

Lemma only_digits_spec name :
  only_digits name = true <-> Forall is_digit (c_str name).
Proof.
  induction name as [|c name IH]; cbn [only_digits c_str].
  - split; [constructor|reflexivity].
  - destruct (Ascii.eqb c NUL); [split; [constructor|reflexivity]|].
    destruct (Nat.ltb_spec (nat_of_ascii c) 48) as [Hlo|Hlo]; cbn [orb].
    + split; [discriminate|]. intros H. inversion H as [|? ? Hc _]; subst.
      unfold is_digit in Hc. lia.
    + destruct (Nat.ltb_spec 57 (nat_of_ascii c)) as [Hhi|Hhi].
      * split; [discriminate|]. intros H. inversion H as [|? ? Hc _]; subst.
        unfold is_digit in Hc. lia.
      * rewrite IH. split.
        -- intros H. constructor; [unfold is_digit; lia|exact H].
        -- intros H. inversion H; assumption.
Qed.

Lemma first_byte_is_NUL_spec name :
  first_byte_is_NUL name = false <-> c_str name <> [].
Proof.
  destruct name as [|c name]; cbn; [split; [discriminate|congruence]|].
  destruct (Ascii.eqb c NUL); split; congruence.
Qed.

Lemma is_pid_entryb_spec d : is_pid_entryb d = true <-> is_pid_entry d.
Proof.
  unfold is_pid_entryb, is_pid_entry.
  rewrite !andb_true_iff, Z.eqb_eq, only_digits_spec, negb_true_iff,
    first_byte_is_NUL_spec. tauto.
Qed.

Lemma count_step_eq count d :
  count_step count d = if is_pid_entryb d then wrap32 (count + 1) else count.
Proof.
  unfold count_step, is_pid_entryb.
  destruct (d_type d =? DT_DIR); [|reflexivity].
  destruct (only_digits (d_name d)); reflexivity.
Qed.

Lemma fold_count_step entries : forall count,
  0 <= count ->
  count + Z.of_nat (List.length entries) < 2 ^ 31 ->
  fold_left count_step entries count
  = count + Z.of_nat (List.length (filter is_pid_entryb entries)).
Proof.
  induction entries as [|d entries IH]; intros count Hc Hb; cbn [fold_left filter].
  - cbn. lia.
  - cbn [List.length] in Hb. rewrite count_step_eq.
    pose proof (filter_length_le is_pid_entryb entries) as Hle.
    destruct (is_pid_entryb d).
    + rewrite wrap32_small by lia. rewrite IH by lia. cbn [List.length]. lia.
    + rewrite IH by lia. reflexivity.
Qed.

(** X22. [get_process_count] answers -1 when [/proc] cannot be opened,
    without reading or closing anything.  Otherwise it reads every
    entry, closes the directory, and answers the number of entries that
    are directories named by a non-empty string of digits, which lies
    between 0 and the number of entries. *)
Theorem get_process_count_counts_pid_directories e :
  (env_opendir e = false ->
   get_process_count e = (-1, [Opendir (lit "/proc") false])) /\
  (env_opendir e = true ->
   Z.of_nat (List.length (env_readdir e)) < 2 ^ 31 ->
   exists n,
     get_process_count e
     = (Z.of_nat n,
        Opendir (lit "/proc") true
        :: repeat Readdir (S (List.length (env_readdir e))) ++ [Closedir]) /\
     n = List.length (filter is_pid_entryb (env_readdir e)) /\
     (n <= List.length (env_readdir e))%nat /\
     (forall d, In d (filter is_pid_entryb (env_readdir e)) <->
                In d (env_readdir e) /\ is_pid_entry d)).
Proof.
  unfold get_process_count, bind, call, ret. split; intros Ho.
  - rewrite Ho. reflexivity.
  - intros Hlen. rewrite Ho. cbn [negb].
    exists (List.length (filter is_pid_entryb (env_readdir e))).
    rewrite fold_count_step by lia.
    split; [reflexivity|]. split; [reflexivity|].
    split; [apply filter_length_le|].
    intros d. rewrite filter_In, is_pid_entryb_spec. tauto.
Qed.

Lemma has_prefix_true key line :
  has_prefix key line = true -> exists rest, c_str line = key ++ rest.
Proof.
  unfold has_prefix. destruct (list_eq_dec _ _ _) as [E|]; [|discriminate].
  intros _. exists (skipn (List.length key) (c_str line)).
  rewrite <- E at 1. symmetry. apply firstn_skipn.
Qed.

Lemma has_prefix_of_app key key' rest line :
  c_str line = key ++ rest ->
  firstn (List.length key') key <> firstn (List.length key') key' ->
  (List.length key' <= List.length key)%nat ->
  has_prefix key' line = false.
Proof.
  intros E Hne Hlen. unfold has_prefix.
  destruct (list_eq_dec _ _ _) as [E'|]; [|reflexivity].
  exfalso. apply Hne. rewrite E in E'.
  rewrite firstn_app in E'.
  replace (List.length key' - List.length key)%nat with 0%nat in E' by lia.
  cbn [firstn] in E'. rewrite app_nil_r in E'. rewrite E'.
  symmetry. apply firstn_all.
Qed.

(** The three keys of [/proc/meminfo] exclude one another. *)
Lemma meminfo_keys_exclusive line :
  (has_prefix (lit "MemTotal:") line = true ->
   has_prefix (lit "MemFree:") line = false /\
   has_prefix (lit "MemAvailable:") line = false) /\
  (has_prefix (lit "MemFree:") line = true ->
   has_prefix (lit "MemAvailable:") line = false).
Proof.
  split; intros H; apply has_prefix_true in H as [rest E].
  - split.
    + eapply has_prefix_of_app; [exact E|discriminate|cbn; lia].
    + unfold has_prefix. rewrite E.
      destruct (list_eq_dec _ _ _) as [E'|]; [|reflexivity].
      cbn in E'. discriminate E'.
  - unfold has_prefix. rewrite E.
    destruct (list_eq_dec _ _ _) as [E'|]; [|reflexivity].
    cbn in E'. discriminate E'.
Qed.

Lemma fold_meminfo_step scan lines : forall t f a,
  fold_left (meminfo_step scan) lines (t, f, a)
  = (fold_left (fun acc line =>
                  if has_prefix (lit "MemTotal:") line
                  then match scan (skipn 9 (c_str line)) with Some v => v | None => acc end
                  else acc) lines t,
     fold_left (fun acc line =>
                  if has_prefix (lit "MemFree:") line
                  then match scan (skipn 8 (c_str line)) with Some v => v | None => acc end
                  else acc) lines f,
     fold_left (fun acc line =>
                  if has_prefix (lit "MemAvailable:") line
                  then match scan (skipn 13 (c_str line)) with Some v => v | None => acc end
                  else acc) lines a).
Proof.
  induction lines as [|line lines IH]; intros t f a; [reflexivity|].
  cbn [fold_left]. unfold meminfo_step at 2.
  destruct (meminfo_keys_exclusive line) as [H1 H2].
  destruct (has_prefix (lit "MemTotal:") line) eqn:E1.
  - destruct (H1 eq_refl) as [-> ->]. apply IH.
  - destruct (has_prefix (lit "MemFree:") line) eqn:E2.
    + rewrite (H2 eq_refl). apply IH.
    + destruct (has_prefix (lit "MemAvailable:") line); apply IH.
Qed.

(** X23. [get_memory_info] stores nothing and makes no call when a
    pointer is null, and stores three zeros when [/proc/meminfo] cannot
    be opened.  Otherwise each of the three values is read from the
    lines that start with its own key, independently of the other two:
    it is the number found in the last such line in which one can be
    read, and 0 when there is none. *)
Theorem get_memory_info_values e :
  get_memory_info false e = (None, []) /\
  (env_fopen e meminfo_path (lit "r") = false ->
   get_memory_info true e = (Some (0, 0, 0), [Fopen meminfo_path (lit "r") false])) /\
  (env_fopen e meminfo_path (lit "r") = true ->
   let lines := read_lines (env_file e meminfo_path) in
   let scan := env_sscanf e in
   fst (get_memory_info true e)
   = Some (last_scanned scan (lit "MemTotal:") lines,
           last_scanned scan (lit "MemFree:") lines,
           last_scanned scan (lit "MemAvailable:") lines)).
Proof.
  split; [reflexivity|]. unfold get_memory_info, fopen, fgets_all, fclose, bind, call, ret.
  cbn [negb]. split; intros Ho; rewrite Ho; cbn [negb]; [reflexivity|].
  cbn zeta. cbn [fst]. rewrite fold_meminfo_step. reflexivity.
Qed.

Lemma count_opened_app l1 l2 :
  count_opened (l1 ++ l2) = (count_opened l1 + count_opened l2)%nat.
Proof. unfold count_opened. rewrite filter_app, length_app. reflexivity. Qed.

Lemma count_closed_app l1 l2 :
  count_closed (l1 ++ l2) = (count_closed l1 + count_closed l2)%nat.
Proof. unfold count_closed. rewrite filter_app, length_app. reflexivity. Qed.

Lemma count_fgets path n :
  count_opened (repeat (Fgets path) n) = 0%nat /\
  count_closed (repeat (Fgets path) n) = 0%nat.
Proof. induction n as [|n [IH1 IH2]]; split; try reflexivity; assumption. Qed.

(** X24. The four functions that open a file close it again on every
    path: in each of them the files closed are as many as the files
    opened, one or none. *)
Theorem opened_files_are_closed e adj buffer buffer_size pointers_ok :
  count_opened (snd (get_oom_adj e)) = count_closed (snd (get_oom_adj e)) /\
  count_opened (snd (set_oom_adj adj e)) = count_closed (snd (set_oom_adj adj e)) /\
  count_opened (snd (get_memory_info pointers_ok e))
    = count_closed (snd (get_memory_info pointers_ok e)) /\
  count_opened (snd (get_process_status buffer buffer_size e))
    = count_closed (snd (get_process_status buffer buffer_size e)) /\
  (count_opened (snd (get_oom_adj e)) <= 1)%nat.
Proof.
  repeat split.
  - unfold get_oom_adj, fopen, fclose, bind, call, ret. cbn zeta.
    destruct (env_fopen e oom_score_adj_path (lit "r")); [reflexivity|].
    destruct (env_fopen e oom_adj_path (lit "r")); reflexivity.
  - unfold set_oom_adj, fopen, fclose, bind, call, ret.
    destruct (env_fopen e oom_score_adj_path (lit "w")); [|reflexivity].
    destruct (env_fprintf e >? 0); reflexivity.
  - unfold get_memory_info, fopen, fgets_all, fclose, bind, call, ret.
    destruct pointers_ok; [|reflexivity]. cbn [negb].
    destruct (env_fopen e meminfo_path (lit "r")); [|reflexivity].
    cbn [negb snd app].
    change (Fopen ?p ?m true :: ?l) with ([Fopen p m true] ++ l).
    rewrite !count_opened_app, !count_closed_app.
    destruct (count_fgets meminfo_path
                (S (List.length (read_lines (env_file e meminfo_path))))) as [-> ->].
    reflexivity.
  - unfold get_process_status. destruct buffer as [buf|]; [|reflexivity].
    destruct (buffer_size <=? 0); [reflexivity|].
    unfold fopen, fgets_all, fclose, bind, call, ret.
    destruct (env_fopen e status_path (lit "r")); [|reflexivity].
    cbn [negb].
    destruct (status_loop _ _) as [[result offset]|]; cbn [snd app];
      change (Fopen ?p ?m true :: ?l) with ([Fopen p m true] ++ l);
      rewrite !count_opened_app, !count_closed_app;
      destruct (count_fgets status_path
                  (S (List.length (read_lines (env_file e status_path))))) as [-> ->];
      reflexivity.
  - unfold get_oom_adj, fopen, fclose, bind, call, ret. cbn zeta.
    destruct (env_fopen e oom_score_adj_path (lit "r")); [cbn; lia|].
    destruct (env_fopen e oom_adj_path (lit "r")); cbn; lia.
Qed.

Lemma overwrite_length off (src dst : list ascii) :
  (off + List.length src <= List.length dst)%nat ->
  List.length (overwrite off src dst) = List.length dst.
Proof.
  intros H. unfold overwrite.
  rewrite !length_app, length_firstn, length_skipn. lia.
Qed.

Lemma repeat_NUL_cons n : NUL :: repeat NUL n = repeat NUL (S n).
Proof. reflexivity. Qed.

Lemma c_str_result_holding acc :
  no_NUL acc -> (List.length acc < 4096)%nat -> c_str (result_holding acc) = acc.
Proof.
  intros Hn Hl. unfold result_holding.
  replace (4096 - List.length acc)%nat with (S (4095 - List.length acc)) by lia.
  cbn [repeat]. apply c_str_app_NUL, Hn.
Qed.

(** One pass of the loop keeps [result] a terminated string that fits,
    and [strcpy] within the array. *)
Lemma status_step_holding acc line :
  no_NUL acc -> (List.length acc < 4095)%nat ->
  status_step (result_holding acc, Z.of_nat (List.length acc)) line
  = let acc' := status_collect acc [line] in
    Some (result_holding acc', Z.of_nat (List.length acc')).
Proof.
  intros Hn Hl. unfold status_step. cbn [status_collect].
  destruct (is_status_key_line line); cbn [andb]; [|reflexivity].
  unfold strlen.
  destruct (Nat.ltb_spec (List.length acc + List.length (c_str line)) 4095) as [Hfit|Hfit].
  - replace (Z.of_nat (List.length acc) + Z.of_nat (List.length (c_str line)) <? 4096 - 1)
      with true by (symmetry; apply Z.ltb_lt; lia).
    rewrite Nat2Z.id. unfold strcpy_at.
    assert (Hlen : List.length (result_holding acc) = 4096%nat).
    { unfold result_holding. rewrite length_app, repeat_length. lia. }
    rewrite Hlen, length_app. cbn [List.length].
    replace (List.length acc + (List.length (c_str line) + 1) <=? 4096)%nat with true
      by (symmetry; apply Nat.leb_le; lia).
    cbn zeta. f_equal. f_equal.
    + unfold overwrite, result_holding.
      rewrite firstn_app, Nat.sub_diag, firstn_all. cbn [firstn]. rewrite app_nil_r.
      rewrite skipn_app, skipn_all2 by (rewrite length_app; cbn [List.length]; lia).
      rewrite skipn_repeat', !length_app. cbn [List.length app].
      rewrite <- !app_assoc. f_equal. f_equal. cbn [app]. rewrite repeat_NUL_cons.
      f_equal. lia.
    + rewrite length_app. lia.
  - replace (Z.of_nat (List.length acc) + Z.of_nat (List.length (c_str line)) <? 4096 - 1)
      with false by (symmetry; apply Z.ltb_ge; lia).
    reflexivity.
Qed.

Lemma status_collect_keeps acc lines :
  no_NUL acc -> (List.length acc < 4095)%nat ->
  no_NUL (status_collect acc lines) /\
  (List.length (status_collect acc lines) < 4095)%nat.
Proof.
  revert acc. induction lines as [|line lines IH]; intros acc Hn Hl; cbn [status_collect].
  - split; assumption.
  - destruct (is_status_key_line line); cbn [andb]; [|apply IH; assumption].
    destruct (Nat.ltb_spec (List.length acc + List.length (c_str line)) 4095);
      [|apply IH; assumption].
    apply IH; [apply no_NUL_app; [assumption|apply no_NUL_c_str]|].
    rewrite length_app. lia.
Qed.

Lemma status_loop_holding lines : forall acc,
  no_NUL acc -> (List.length acc < 4095)%nat ->
  status_loop (result_holding acc, Z.of_nat (List.length acc)) lines
  = let acc' := status_collect acc lines in
    Some (result_holding acc', Z.of_nat (List.length acc')).
Proof.
  induction lines as [|line lines IH]; intros acc Hn Hl; [reflexivity|].
  cbn [status_loop]. rewrite status_step_holding by assumption. cbn zeta.
  destruct (status_collect_keeps acc [line] Hn Hl) as [Hn' Hl'].
  rewrite IH by assumption. cbn zeta. cbn [status_collect].
  destruct (is_status_key_line line && _); reflexivity.
Qed.

(** While everything fits, what is collected is every key line. *)
Lemma status_collect_all lines : forall acc,
  (List.length acc + List.length (status_text lines) < 4095)%nat ->
  status_collect acc lines = acc ++ status_text lines.
Proof.
  unfold status_text.
  induction lines as [|line lines IH]; intros acc H; cbn [status_collect filter] in *.
  - cbn. symmetry. apply app_nil_r.
  - destruct (is_status_key_line line); cbn [andb].
    + cbn [map List.concat] in H |- *. rewrite length_app in H.
      replace (List.length acc + List.length (c_str line) <? 4095)%nat with true
        by (symmetry; apply Nat.ltb_lt; lia).
      rewrite IH by (rewrite length_app; lia). rewrite <- app_assoc. reflexivity.
    + apply IH. exact H.
Qed.

(** The buffer after the [strncpy] and the terminator of lines 200-201. *)
Lemma status_copy_out buf acc n :
  no_NUL acc -> (List.length acc < 4096)%nat -> List.length buf = S n ->
  let out := overwrite n [NUL] (strncpy_pad buf (result_holding acc) n) in
  List.length out = S n /\ c_str out = firstn n acc /\ nth n out NUL = NUL.
Proof.
  intros Hn Hl Hb. cbn zeta. unfold strncpy_pad.
  rewrite c_str_result_holding by assumption.
  set (s := firstn n acc).
  assert (Hs : (List.length s <= n)%nat) by (unfold s; rewrite length_firstn; lia).
  set (pad := s ++ repeat NUL (n - List.length s)).
  assert (Hpad : List.length pad = n).
  { unfold pad. rewrite length_app, repeat_length. lia. }
  assert (Hcopy : overwrite 0 pad buf = pad ++ skipn n buf).
  { unfold overwrite. cbn [firstn app]. rewrite Nat.add_0_l, Hpad. reflexivity. }
  rewrite Hcopy.
  assert (Hout : overwrite n [NUL] (pad ++ skipn n buf) = pad ++ [NUL]).
  { unfold overwrite. rewrite firstn_app, Hpad, Nat.sub_diag, firstn_all2 by lia.
    cbn [firstn]. rewrite app_nil_r. cbn [List.length].
    rewrite skipn_all2 by (rewrite length_app, length_skipn; lia).
    rewrite app_nil_r. reflexivity. }
  rewrite Hout. split; [rewrite length_app; cbn [List.length]; lia|]. split.
  - unfold pad. rewrite <- app_assoc.
    destruct (n - List.length s)%nat; cbn [repeat app];
      apply c_str_app_NUL; unfold s; apply no_NUL_firstn, Hn.
  - rewrite app_nth2 by lia. rewrite Hpad, Nat.sub_diag. reflexivity.
Qed.

Lemma c_str_status_unreadable : no_NUL (expand (c_str status_unreadable) []).
Proof. cbn. unfold no_NUL. repeat (constructor; [discriminate|]). constructor. Qed.

(** X25. [get_process_status] leaves a null buffer or one of no size
    alone, without a call.  Given a buffer of [buffer_size] bytes it
    never writes outside the buffer or outside its own 4096-byte array,
    and the buffer afterwards holds a terminated string of at most
    [buffer_size - 1] bytes: the start of the fixed message when the
    status file cannot be opened, and otherwise the start of the lines
    that begin with one of the eight keys, in file order, as far as
    they stay below 4095 bytes together. *)
Theorem get_process_status_fills_buffer buf buffer_size e :
  get_process_status None buffer_size e = (Some None, []) /\
  (buffer_size <= 0 ->
   get_process_status (Some buf) buffer_size e = (Some (Some buf), [])) /\
  (0 < buffer_size -> Z.of_nat (List.length buf) = buffer_size ->
   let lines := read_lines (env_file e status_path) in
   let text := if env_fopen e status_path (lit "r")
               then status_collect [] lines else status_unreadable in
   exists out,
     fst (get_process_status (Some buf) buffer_size e) = Some (Some out) /\
     Z.of_nat (List.length out) = buffer_size /\
     c_str out = firstn (Z.to_nat (buffer_size - 1)) text /\
     strlen out <= buffer_size - 1 /\
     (env_fopen e status_path (lit "r") = true ->
      (List.length (status_text lines) < 4095)%nat ->
      text = status_text lines)).
Proof.
  split; [reflexivity|]. split.
  { intros H. unfold get_process_status.
    replace (buffer_size <=? 0) with true by (symmetry; apply Z.leb_le; lia).
    reflexivity. }
  intros Hsz Hlen. cbn zeta. unfold get_process_status.
  replace (buffer_size <=? 0) with false by (symmetry; apply Z.leb_gt; lia).
  unfold fopen, fgets_all, fclose, bind, call, ret.
  destruct buf as [|b0 buf']; [cbn in Hlen; lia|].
  assert (Hbuf1 : List.length (overwrite 0 [NUL] (b0 :: buf')) = S (Z.to_nat (buffer_size - 1))).
  { rewrite overwrite_length by (cbn [List.length]; lia). lia. }
  set (buf1 := overwrite 0 [NUL] (b0 :: buf')) in *.
  destruct (env_fopen e status_path (lit "r")); cbn [negb fst].
  - change (repeat NUL 4096, 0) with (result_holding [], Z.of_nat (@List.length ascii [])).
    rewrite status_loop_holding by (try constructor; cbn; lia). cbn zeta.
    destruct (status_collect_keeps [] (read_lines (env_file e status_path)))
      as [Hn Hl]; [constructor|cbn; lia|].
    set (acc := status_collect [] (read_lines (env_file e status_path))) in *.
    destruct (status_copy_out buf1 acc (Z.to_nat (buffer_size - 1)) Hn ltac:(lia) Hbuf1)
      as (Ho1 & Ho2 & _).
    eexists. split; [reflexivity|]. split; [lia|]. split; [exact Ho2|].
    split.
    + unfold strlen. rewrite Ho2, length_firstn. lia.
    + intros _ Hfit. unfold acc. rewrite status_collect_all by exact Hfit. reflexivity.
  - eexists. split; [reflexivity|].
    assert (Hc : c_str (snprintf buf1 (Z.to_nat buffer_size) status_unreadable [])
                 = firstn (Z.to_nat (buffer_size - 1)) status_unreadable).
    { rewrite c_str_snprintf by apply c_str_status_unreadable.
      replace (Z.to_nat buffer_size - 1)%nat with (Z.to_nat (buffer_size - 1)) by lia.
      reflexivity. }
    split; [|split; [exact Hc|split; [|intros; discriminate]]].
    + unfold snprintf. rewrite overwrite_length.
      * lia.
      * rewrite length_app, length_firstn. cbn [List.length]. lia.
    + unfold strlen. rewrite Hc, length_firstn. lia.
Qed.

End ProcessFacts.

(* ================================================================== *)
(** ** The MediaRoute heartbeat counter                                *)
(* ================================================================== *)

Section MediaRouteFacts.
Import MediaRoute.

(** X26. [getServiceStatus] answers 0 when both services run, 1 when
    one does, 2 when none does, and nothing else; [performHeartbeat]
    answers [false] exactly in the state in which the status is 2, and
    leaves the status as it was. *)
Theorem service_status_and_heartbeat_agree g ts :
  (getServiceStatus g = 0 \/ getServiceStatus g = 1 \/ getServiceStatus g = 2) /\
  getServiceStatus g
  = 2 - (if isService1Running (g_serviceState g) then 1 else 0)
      - (if isService2Running (g_serviceState g) then 1 else 0) /\
  (fst (fst (performHeartbeat g ts)) = false <-> getServiceStatus g = 2) /\
  getServiceStatus (snd (performHeartbeat g ts)) = getServiceStatus g.
Proof.
  unfold getServiceStatus, performHeartbeat. cbn zeta.
  destruct (isService1Running (g_serviceState g));
    destruct (isService2Running (g_serviceState g)); cbn;
    repeat split; auto; try discriminate; try lia.
Qed.

Lemma native_initialized g op ts :
  g_initialized g = true \/ op = NativeInit ->
  g_initialized (fst (native g op ts)) = true.
Proof.
  intros [H| ->].
  - destruct op; cbn [native fst]; try exact H.
    + unfold init. rewrite H. reflexivity.
    + unfold performHeartbeat. cbn zeta.
      destruct (negb (isService1Running (g_serviceState g))
                && negb (isService2Running (g_serviceState g))); exact H.
  - cbn [native fst]. unfold init. destruct (g_initialized g); reflexivity.
Qed.

Lemma init_again g ts : g_initialized g = true -> init g ts = g.
Proof.
  intros H. unfold init. rewrite H. destruct g; cbn in *. subst. reflexivity.
Qed.

Lemma natives_app g ops1 ops2 :
  natives g (ops1 ++ ops2) = natives (natives g ops1) ops2.
Proof.
  revert g. induction ops1 as [|[op ts] ops1 IH]; intros g; [reflexivity|].
  cbn [app natives]. apply IH.
Qed.

Lemma natives_initialized ops : forall g,
  g_initialized g = true \/ In NativeInit (map fst ops) ->
  g_initialized (natives g ops) = true.
Proof.
  induction ops as [|[op ts] ops IH]; intros g H; cbn [natives].
  - destruct H as [H|[]]. exact H.
  - apply IH. destruct H as [H|[H|H]].
    + left. apply native_initialized. left. exact H.
    + left. apply native_initialized. right. exact H.
    + right. exact H.
Qed.

(** X27. [init] takes effect once.  The first call clears the two
    service flags and the counter and keeps the stored names; once it
    has been made, a further call changes nothing, wherever it comes in
    a sequence of calls. *)
Theorem init_takes_effect_once g ts :
  (g_initialized g = false ->
   let s := g_serviceState (init g ts) in
   g_initialized (init g ts) = true /\
   isService1Running s = false /\ isService2Running s = false /\
   heartbeatCount s = 0 /\ lastHeartbeatTime s = getCurrentTimeMs ts /\
   packageName s = packageName (g_serviceState g) /\
   service1Name s = service1Name (g_serviceState g) /\
   service2Name s = service2Name (g_serviceState g)) /\
  (g_initialized g = true -> init g ts = g) /\
  (forall before after,
      In NativeInit (map fst before) ->
      natives g (before ++ (NativeInit, ts) :: after) = natives g (before ++ after)).
Proof.
  split; [|split].
  - intros H. unfold init. rewrite H. cbn. repeat split.
  - apply init_again.
  - intros before after Hin. rewrite !natives_app. cbn [natives native fst].
    rewrite init_again; [reflexivity|].
    apply natives_initialized. right. exact Hin.
Qed.

Lemma wrap32_range z : - 2 ^ 31 <= wrap32 z < 2 ^ 31.
Proof.
  unfold wrap32. pose proof (Z.mod_pos_bound (z + 2 ^ 31) (2 ^ 32) ltac:(lia)). lia.
Qed.

Lemma wrap32_succ z n : wrap32 (wrap32 (z + n) + 1) = wrap32 (z + (n + 1)).
Proof.
  unfold wrap32.
  replace ((z + n + 2 ^ 31) mod 2 ^ 32 - 2 ^ 31 + 1 + 2 ^ 31)
    with ((z + n + 2 ^ 31) mod 2 ^ 32 + 1) by lia.
  rewrite Zplus_mod_idemp_l. f_equal. f_equal. lia.
Qed.

Lemma wrap32_id z : - 2 ^ 31 <= z < 2 ^ 31 -> wrap32 z = z.
Proof. intros H. unfold wrap32. rewrite Z.mod_small by lia. lia. Qed.

Lemma native_count g op ts n c :
  g_initialized g = true ->
  heartbeatCount (g_serviceState g) = wrap32 (c + n) ->
  heartbeatCount (g_serviceState (fst (native g op ts)))
  = wrap32 (c + (n + if is_beat op then 1 else 0)).
Proof.
  intros Hi Hc. destruct op; cbn [native fst is_beat]; rewrite ?Z.add_0_r; try exact Hc.
  - rewrite init_again by exact Hi. exact Hc.
  - cbn. rewrite Hc. apply wrap32_succ.
  - unfold performHeartbeat. cbn zeta.
    destruct (negb (isService1Running (g_serviceState g))
              && negb (isService2Running (g_serviceState g)));
      cbn; rewrite Hc; apply wrap32_succ.
Qed.

(** X28. Once initialised, the counter counts the heartbeats: after any
    sequence of calls it has grown by the number of [checkWakeLock] and
    [performHeartbeat] calls among them, whether the heartbeats
    succeeded or not, wrapping round as a 32-bit integer; no other call
    changes it. *)
Theorem heartbeat_count_counts_beats g ops :
  g_initialized g = true ->
  - 2 ^ 31 <= heartbeatCount (g_serviceState g) < 2 ^ 31 ->
  heartbeatCount (g_serviceState (natives g ops))
  = wrap32 (heartbeatCount (g_serviceState g) + beats ops) /\
  (heartbeatCount (g_serviceState g) + beats ops < 2 ^ 31 ->
   heartbeatCount (g_serviceState (natives g ops))
   = heartbeatCount (g_serviceState g) + beats ops).
Proof.
  intros Hi Hr.
  assert (H : forall ops g n c,
             g_initialized g = true ->
             heartbeatCount (g_serviceState g) = wrap32 (c + n) ->
             heartbeatCount (g_serviceState (natives g ops))
             = wrap32 (c + (n + beats ops))).
  { clear. induction ops as [|[op ts] ops IH]; intros g n c Hi Hc.
    - cbn [natives]. unfold beats. cbn. rewrite Z.add_0_r. exact Hc.
    - cbn [natives].
      rewrite (IH _ (n + if is_beat op then 1 else 0) c).
      + f_equal. unfold beats. cbn [filter fst].
        destruct (is_beat op); cbn [List.length]; lia.
      + apply native_initialized. left. exact Hi.
      + apply native_count; assumption. }
  assert (E : heartbeatCount (g_serviceState (natives g ops))
              = wrap32 (heartbeatCount (g_serviceState g) + beats ops)).
  { rewrite (H ops g 0 (heartbeatCount (g_serviceState g)) Hi).
    - f_equal.
    - rewrite Z.add_0_r. symmetry. apply wrap32_id. exact Hr. }
  split; [exact E|]. intros Hb. rewrite E. apply wrap32_id.
  unfold beats in *. lia.
Qed.

Lemma native_flags g op ts :
  g_initialized g = true ->
  isService1Running (g_serviceState (fst (native g op ts)))
  = match service1_event op with
    | Some b => b
    | None => isService1Running (g_serviceState g)
    end /\
  isService2Running (g_serviceState (fst (native g op ts)))
  = match service2_event op with
    | Some b => b
    | None => isService2Running (g_serviceState g)
    end.
Proof.
  intros Hi. destruct op; cbn [native fst service1_event service2_event];
    try (split; reflexivity).
  - rewrite init_again by exact Hi. split; reflexivity.
  - unfold performHeartbeat. cbn zeta.
    destruct (negb (isService1Running (g_serviceState g))
              && negb (isService2Running (g_serviceState g))); split; reflexivity.
Qed.

(** X29. Once initialised, each service flag is what the last start or
    stop notice for that service said, and what it was before when the
    calls carry no such notice: notices for the other service,
    heartbeats, status queries and further [init] calls do not touch
    it. *)
Theorem service_flags_follow_last_notice g ops :
  g_initialized g = true ->
  isService1Running (g_serviceState (natives g ops))
  = match last_event service1_event (map fst ops) with
    | Some b => b
    | None => isService1Running (g_serviceState g)
    end /\
  isService2Running (g_serviceState (natives g ops))
  = match last_event service2_event (map fst ops) with
    | Some b => b
    | None => isService2Running (g_serviceState g)
    end.
Proof.
  revert g. induction ops as [|[op ts] ops IH]; intros g Hi; [split; reflexivity|].
  cbn [natives map fst last_event].
  destruct (IH (fst (native g op ts))) as [H1 H2];
    [apply native_initialized; left; exact Hi|].
  destruct (native_flags g op ts Hi) as [F1 F2].
  rewrite H1, H2, F1, F2.
  destruct (last_event service1_event (map fst ops));
    destruct (last_event service2_event (map fst ops)); split; reflexivity.
Qed.

Lemma wrap64_id z : - 2 ^ 63 <= z < 2 ^ 63 -> wrap64 z = z.
Proof. intros H. unfold wrap64. rewrite Z.mod_small by lia. lia. Qed.

Lemma getCurrentTimeMs_normal ts :
  normal_time ts ->
  getCurrentTimeMs ts = tv_sec ts * 1000 + Z.quot (tv_nsec ts) 1000000 /\
  0 <= Z.quot (tv_nsec ts) 1000000 <= 999.
Proof.
  intros [Hs Hn]. unfold getCurrentTimeMs.
  assert (Hq : 0 <= Z.quot (tv_nsec ts) 1000000 <= 999).
  { rewrite Z.quot_div_nonneg by lia. split.
    - apply Z.div_pos; lia.
    - apply Z.lt_succ_r. apply Z.div_lt_upper_bound; lia. }
  rewrite (wrap64_id (tv_sec ts * 1000)) by lia.
  rewrite wrap64_id by lia. split; [reflexivity|exact Hq].
Qed.

(** X30. For times as the monotonic clock gives them, the milliseconds
    of [getCurrentTimeMs] are the seconds times 1000 plus the whole
    milliseconds of the nanoseconds, and they do not go back when the
    clock does not; so the elapsed time that [performHeartbeat] works
    out from the stored time of an earlier call is not negative, and is
    the difference of the two times. *)
Theorem heartbeat_times_do_not_go_back g a b :
  normal_time a -> normal_time b -> not_before a b ->
  lastHeartbeatTime (g_serviceState g) = getCurrentTimeMs a ->
  tv_sec a * 1000 <= getCurrentTimeMs a <= tv_sec a * 1000 + 999 /\
  getCurrentTimeMs a <= getCurrentTimeMs b /\
  snd (fst (performHeartbeat g b)) = getCurrentTimeMs b - getCurrentTimeMs a /\
  0 <= snd (fst (performHeartbeat g b)) /\
  lastHeartbeatTime (g_serviceState (snd (performHeartbeat g b))) = getCurrentTimeMs b.
Proof.
  intros Ha Hb Hab Hlast.
  destruct (getCurrentTimeMs_normal a Ha) as [Ea Qa].
  destruct (getCurrentTimeMs_normal b Hb) as [Eb Qb].
  assert (Hle : getCurrentTimeMs a <= getCurrentTimeMs b).
  { rewrite Ea, Eb. destruct Hab as [Hlt|[Heq Hn]].
    - lia.
    - rewrite Heq. destruct Ha as [_ Ha], Hb as [_ Hb].
      rewrite !Z.quot_div_nonneg by lia.
      pose proof (Z.div_le_mono (tv_nsec a) (tv_nsec b) 1000000 ltac:(lia) Hn). lia. }
  assert (Hel : snd (fst (performHeartbeat g b)) = getCurrentTimeMs b - getCurrentTimeMs a).
  { unfold performHeartbeat. cbn zeta. rewrite Hlast.
    assert (Hw : wrap64 (getCurrentTimeMs b - getCurrentTimeMs a)
                 = getCurrentTimeMs b - getCurrentTimeMs a).
    { apply wrap64_id. destruct Ha as [Ha _], Hb as [Hb _]. lia. }
    destruct (negb (isService1Running (g_serviceState g))
              && negb (isService2Running (g_serviceState g))); cbn [fst snd]; exact Hw. }
  split; [lia|]. split; [exact Hle|]. split; [exact Hel|]. split; [lia|].
  unfold performHeartbeat. cbn zeta.
  destruct (negb (isService1Running (g_serviceState g))
            && negb (isService2Running (g_serviceState g))); reflexivity.
Qed.

End MediaRouteFacts.

(* ================================================================== *)
(** ** The further theorems at concrete inputs                         *)
(* ================================================================== *)

Section MoreInstances.

Lemma wd_sock_1_fits : 0 < strlen wd_sock_1 <= 106.
Proof. unfold wd_sock_1, strlen. cbn. lia. Defined.

Lemma empty_socket_name_is_rejected_at_null :
  Socket.create_socket_server Socket.initial None calm = Some ((-1, Socket.initial), []).
Proof.
  exact (proj1 (empty_socket_name_is_rejected Socket.initial None calm
                  (or_introl eq_refl))).
Defined.

Lemma create_socket_server_outcome_at_wd_sock_1 :
  exists r g' l,
    Socket.create_socket_server Socket.initial (Some wd_sock_1) calm = Some ((r, g'), l) /\
    0 <= r.
Proof.
  destruct (create_socket_server_outcome Socket.initial wd_sock_1 calm)
    as (r & g' & l & E & Hiff & _).
  - reflexivity.
  - pose proof wd_sock_1_fits. lia.
  - exists r, g', l. split; [exact E|]. apply Hiff. cbn. lia.
Defined.

Lemma connect_socket_server_outcome_at_wd_sock_1 :
  exists r g' l,
    Socket.connect_socket_server Socket.initial (Some wd_sock_1) calm = Some ((r, g'), l) /\
    0 <= r.
Proof.
  destruct (connect_socket_server_outcome Socket.initial wd_sock_1 calm wd_sock_1_fits)
    as (r & g' & l & E & Hiff & _).
  exists r, g', l. split; [exact E|]. apply Hiff. cbn. lia.
Defined.

Lemma start_socket_server_thread_outcome_at_wd_sock_1 :
  exists b g' l,
    Socket.start_socket_server_thread Socket.initial (Some wd_sock_1) calm
      = Some ((b, g'), l) /\
    b = true.
Proof.
  destruct (start_socket_server_thread_outcome Socket.initial wd_sock_1 calm)
    as (b & g' & l & E & Hiff & _).
  - reflexivity.
  - reflexivity.
  - pose proof wd_sock_1_fits. lia.
  - exists b, g', l. split; [exact E|]. apply Hiff. cbn. lia.
Defined.

Lemma exported_calls_keep_listening_descriptor_at_a_session :
  exists g' l,
    channel_ops Socket.initial a_session = Some (g', l) /\
    (Socket.g_socket_running g' = true -> 0 <= Socket.g_server_socket g').
Proof.
  apply (exported_calls_keep_listening_descriptor a_session).
  pose proof wd_sock_1_fits.
  repeat constructor; cbn [fst name_fits]; lia.
Defined.

Lemma server_thread_outlives_its_peers_at_serving :
  exists pc' l,
    Socket.server_run Socket.AtAccept [(serving, calm); (serving, with_recv calm 0)]
      = Some (pc', l) /\
    pc' <> Socket.ThreadReturned.
Proof.
  apply (server_thread_outlives_its_peers
           [(serving, calm); (serving, with_recv calm 0)] Socket.AtAccept).
  - repeat apply Forall_cons; try apply Forall_nil; split; cbn; try reflexivity; lia.
  - repeat apply Forall_cons; try apply Forall_nil; split; cbn; unfold FD_SETSIZE; lia.
  - exact I.
  - discriminate.
Defined.

Lemma server_thread_touches_only_its_peers_at_serving :
  exists pc' l,
    Socket.server_run Socket.AtAccept
      [(serving, calm); (serving, calm); (serving, with_recv calm 0)]
      = Some (pc', l) /\
    Forall (peer_call [4]) l.
Proof.
  apply (server_thread_touches_only_its_peers
           [(serving, calm); (serving, calm); (serving, with_recv calm 0)]
           Socket.AtAccept).
  - repeat apply Forall_cons; try apply Forall_nil; split; cbn; unfold FD_SETSIZE; lia.
  - exact I.
Defined.

Lemma server_thread_returns_after_stop_at_peer_4 :
  Socket.server_run (Socket.AtReceive 4) [(Socket.initial, calm); (Socket.initial, calm)]
  = Some (Socket.ThreadReturned, [Close 4]).
Proof.
  apply (server_thread_returns_after_stop (Socket.AtReceive 4)
           Socket.initial calm Socket.initial calm []); reflexivity.
Defined.

Lemma receive_with_timeout_splits_timeout_at_5000 :
  exists r sec usec rest,
    Socket.receive_with_timeout 3 (Some []) 64 5000 calm
      = Some (r, Select 3 sec usec :: rest) /\
    sec * 1000000 + usec = 5000 * 1000.
Proof.
  destruct (receive_with_timeout_splits_timeout 3 [] 64 5000 calm)
    as (r & sec & usec & rest & E & H & _); [unfold FD_SETSIZE; lia|lia|].
  exists r, sec, usec, rest. split; assumption.
Defined.

Lemma receive_with_timeout_answer_at_4_and_1024 :
  Socket.receive_with_timeout (-1) (Some []) 64 5000 calm = Some (-1, []) /\
  Socket.receive_with_timeout 1024 (Some []) 64 5000 calm = None /\
  exists r l,
    Socket.receive_with_timeout 4 (Some []) 64 5000 calm = Some (r, l) /\ 0 < r.
Proof.
  split; [|split].
  - apply (receive_with_timeout_answer (-1) (Some []) 64 5000 calm). left. lia.
  - apply (receive_with_timeout_answer 1024 (Some []) 64 5000 calm);
      [lia|discriminate|lia|unfold FD_SETSIZE; lia].
  - destruct (receive_with_timeout_answer 4 (Some []) 64 5000 calm) as [_ H].
    destruct H as [_ H]; [lia|discriminate|lia|].
    destruct H as (r & l & E & _ & Hpos & _); [unfold FD_SETSIZE; lia|].
    exists r, l. split; [exact E|]. apply Hpos. cbn. lia.
Defined.

Lemma heartbeat_loop_calls_at_connected :
  exists r l,
    Socket.heartbeat_loop connected 1000 [calm; with_recv calm 0] = Some (r, l) /\
    count_calls is_send l = 2%nat /\ count_calls is_close l = 0%nat.
Proof.
  destruct (heartbeat_loop_calls connected 1000 [calm; with_recv calm 0])
    as (r & l & E & _ & Hs & Hc); [cbn; unfold FD_SETSIZE; lia|].
  exists r, l. split; [exact E|]. split; [exact Hs|exact Hc].
Defined.

Lemma gives_up_only_after_three_failed_cycles_at_watching :
  exists pre d1 d2 d3 post,
    [calm; calm; calm] = pre ++ d1 :: d2 :: d3 :: post /\
    round_failed watching d1 = true.
Proof.
  pose (r := match Daemon.daemon_main_loop watching [calm; calm; calm] with
             | Some (r, _) => r
             | None => no_result
             end).
  destruct (gives_up_only_after_three_failed_cycles watching [calm; calm; calm] r watching)
    as (pre & d1 & d2 & d3 & post & E & H1 & _); [vm_compute; reflexivity..|].
  exists pre, d1, d2, d3, post. split; assumption.
Defined.

Lemma start_daemon_by_fork_result_at_initial :
  exists x g' l,
    Daemon.start_daemon Daemon.initial (lit "com.x") (lit "com.x.Svc") 1000 calm []
      = Some (x, g', l) /\
    x = Daemon.Returned 0.
Proof.
  destruct (start_daemon_by_fork_result Daemon.initial (lit "com.x") (lit "com.x.Svc")
              1000 calm [] eq_refl) as (x & g' & l & E & _ & _ & _ & Hpos & _).
  exists x, g', l. split; [exact E|]. apply Hpos. cbn. lia.
Defined.

Lemma heartbeat_count_counts_beats_at_initialised :
  MediaRoute.heartbeatCount
    (MediaRoute.g_serviceState
       (MediaRoute.natives initialised
          [(MediaRoute.NativeCheckWakeLock, one_second);
           (MediaRoute.NativeGetServiceStatus, one_second);
           (MediaRoute.NativePerformHeartbeat, two_and_a_half_seconds)]))
  = 2.
Proof.
  apply (heartbeat_count_counts_beats initialised
           [(MediaRoute.NativeCheckWakeLock, one_second);
            (MediaRoute.NativeGetServiceStatus, one_second);
            (MediaRoute.NativePerformHeartbeat, two_and_a_half_seconds)]).
  - reflexivity.
  - cbn. lia.
  - cbn. lia.
Defined.

Lemma service_flags_follow_last_notice_at_initialised :
  MediaRoute.isService1Running
    (MediaRoute.g_serviceState
       (MediaRoute.natives initialised
          [(MediaRoute.NativeOnServiceStarted (lit "com.x") (lit "S1"), one_second);
           (MediaRoute.NativeOnService2Started (lit "com.x") (lit "S2"), one_second);
           (MediaRoute.NativeOnServiceStopped, two_and_a_half_seconds)]))
  = false.
Proof.
  apply (service_flags_follow_last_notice initialised
           [(MediaRoute.NativeOnServiceStarted (lit "com.x") (lit "S1"), one_second);
            (MediaRoute.NativeOnService2Started (lit "com.x") (lit "S2"), one_second);
            (MediaRoute.NativeOnServiceStopped, two_and_a_half_seconds)]).
  reflexivity.
Defined.

Lemma heartbeat_times_do_not_go_back_at_initialised :
  snd (fst (MediaRoute.performHeartbeat initialised two_and_a_half_seconds)) = 1500.
Proof.
  refine (proj1 (proj2 (proj2 (heartbeat_times_do_not_go_back
                                 initialised one_second two_and_a_half_seconds
                                 _ _ _ _)))).
  - unfold normal_time. cbn. lia.
  - unfold normal_time. cbn. lia.
  - left. cbn. lia.
  - reflexivity.
Defined.

End MoreInstances.
